(** * Cards: a shallow embedding of the drag-and-drop core

    The program is a browser script: a registry [allObjects] of [Card],
    [Stack] and [Pile] objects, three mouse handlers that mutate it, and a
    [tick] that redraws (and, while drawing, resets preview fields).

    Conventions of the embedding.
    - JavaScript numbers are IEEE 754 binary64 values: the Standard Library's
      [spec_float] with precision 53 and maximal exponent 1024, whose
      operations round to nearest, ties to even, as the language prescribes.
      A getter that returns [undefined], or [NaN] computed from [undefined],
      is [None]: all the code does with such a value is compare it.
    - Objects live in a store [gmap ref Obj]; arrays hold references, so
      [===] is equality of references and a write through one alias is seen
      through every other.
    - A handler returns [option State]: [None] stands for an uncaught
      [TypeError] (a property read on [undefined]); such a run is only ever
      excluded by hypotheses, never used as a result. *)

From Stdlib Require Import ZArith Lia.
From Stdlib Require Import Floats.SpecFloat.
From stdpp Require Import base option list strings gmap.

Set Default Proof Using "Type".

(** ** Numbers *)

Abbreviation ref := nat (only parsing).

Abbreviation double := spec_float.

Definition prec : Z := 53.
Definition emax : Z := 1024.

(** The double nearest to an integer: exact up to 2^53. *)
Definition of_Z (z : Z) : double := binary_normalize prec emax z 0 false.

(** The integer a double is, when it is one. *)
Definition num_to_Z (v : double) : option Z :=
  match v with
  | S754_zero _ => Some 0%Z
  | S754_finite s m e =>
      if (0 <=? e)%Z then Some (cond_Zopp s (Zpos m * 2 ^ e))
      else if (Zpos m mod 2 ^ (- e) =? 0)%Z then Some (cond_Zopp s (Zpos m / 2 ^ (- e)))
      else None
  | _ => None
  end.

Declare Scope double_scope.
Delimit Scope double_scope with dbl.
Bind Scope double_scope with spec_float.
Number Notation spec_float of_Z num_to_Z : double_scope.

Definition fadd : double -> double -> double := SFadd prec emax.
Definition fsub : double -> double -> double := SFsub prec emax.
Definition fmul : double -> double -> double := SFmul prec emax.
Definition fdiv : double -> double -> double := SFdiv prec emax.
Definition fopp : double -> double := SFopp.

(** [a === b], [a < b] and [a <= b] on numbers; [>] and [>=] are the same
    with the operands swapped.  Each is [false] when an operand is [NaN]. *)
Definition feqb : double -> double -> bool := SFeqb.
Definition fltb : double -> double -> bool := SFltb.
Definition fleb : double -> double -> bool := SFleb.

Infix "+" := fadd : double_scope.
Infix "-" := fsub : double_scope.
Infix "*" := fmul : double_scope.
Infix "/" := fdiv : double_scope.
Notation "- x" := (fopp x) : double_scope.
Notation "a == b" := (feqb a b = true) (at level 70, no associativity) : double_scope.
Notation "a < b" := (fltb a b = true) : double_scope.
Notation "a <= b" := (fleb a b = true) : double_scope.
Notation "a <= b <= c" := (fleb a b = true /\ fleb b c = true) : double_scope.

(** [this.length] and [this.length - 1] as numbers. *)
Definition num_of_nat (n : nat) : double := of_Z (Z.of_nat n).
Definition num_pred (n : nat) : double := (num_of_nat n - 1)%dbl.

Global Arguments fadd : simpl never.
Global Arguments fsub : simpl never.
Global Arguments fmul : simpl never.
Global Arguments fdiv : simpl never.
Global Arguments fopp : simpl never.
Global Arguments feqb : simpl never.
Global Arguments fltb : simpl never.
Global Arguments fleb : simpl never.
Global Arguments of_Z : simpl never.

(** The literals [0.5], [1.5] and [22.5] of the source. *)
Definition half : double := Eval vm_compute in (1 / 2)%dbl.
Definition three_halves : double := Eval vm_compute in (3 / 2)%dbl.
Definition spacing : double := Eval vm_compute in (45 / 2)%dbl.

(** [Math.PI]: the double 884279719003555 / 2^48. *)
Definition Math_PI : double := Eval vm_compute in
  binary_normalize prec emax 884279719003555 (-48) false.

(** [Math.floor]: zeros, infinities and [NaN] are returned as they are; a
    finite number with a fraction goes to the integer below. *)
Definition Math_floor (v : double) : double :=
  match v with
  | S754_finite s m e =>
      if (0 <=? e)%Z then v
      else match (cond_Zopp s (Zpos m) / 2 ^ (- e))%Z with
           | Z0 => S754_zero s
           | q => of_Z q
           end
  | _ => v
  end.

(** Comparisons against a getter that may be [undefined] ([NaN] after
    arithmetic): every comparison with [NaN] is [false]. *)
Definition le_u (a : double) (b : option double) : bool :=
  match b with Some b => fleb a b | None => false end.
Definition ge_u (a : double) (b : option double) : bool :=
  match b with Some b => fleb b a | None => false end.

(** [switch (this.direction) { case 0: ..; case Math.PI * 0.5: ..;
    case Math.PI: ..; case Math.PI * 1.5: .. }] with no [default]; the
    labels are compared with [===]. *)
Definition switch_direction {A} (d : double) (c0 c90 c180 c270 : A) : option A :=
  if feqb d 0 then Some c0
  else if feqb d (Math_PI * half) then Some c90
  else if feqb d Math_PI then Some c180
  else if feqb d (Math_PI * three_halves) then Some c270
  else None.

Definition supported (d : double) : Prop :=
  (d == 0 \/ d == Math_PI * half \/ d == Math_PI \/ d == Math_PI * three_halves)%dbl.

(** ** JavaScript arrays as lists *)

Section JsArray.
Context {A : Type}.

(** [a[i]] for a number [i]: [undefined] outside [0 .. length-1]. *)
Definition js_get (l : list A) (i : Z) : option A :=
  if (i <? 0)%Z then None else l !! Z.to_nat i.

(** [Array.prototype.splice(start, deleteCount, ...items)]: the removed
    elements and the array afterwards. *)
Definition js_splice (start : Z) (deleteCount : nat) (items l : list A)
  : list A * list A :=
  let len := Z.of_nat (length l) in
  let k := Z.to_nat (if (start <? 0)%Z then Z.max (len + start) 0
                     else Z.min start len) in
  (take deleteCount (drop k l), take k l ++ items ++ drop (k + deleteCount) l).

(** [findIndex]: the first index whose element passes, or -1. *)
Fixpoint js_findIndex (p : A -> bool) (l : list A) : Z :=
  match l with
  | [] => (-1)%Z
  | a :: l' => if p a then 0%Z
               else let i := js_findIndex p l' in
                    if (i <? 0)%Z then (-1)%Z else (i + 1)%Z
  end.
End JsArray.

(** [a[v]] for a number [v]: the element when [v] is an integer inside the
    array ([-0] names the element 0), [undefined] otherwise. *)
Definition js_get_num {A} (l : list A) (v : double) : option A :=
  match num_to_Z v with
  | Some z => if (z <? Z.of_nat (length l))%Z then js_get l z else None
  | None => None
  end.

(** The start index [splice] makes of its first argument: [undefined] and
    [NaN] count as 0, a fraction is cut off, and the infinities are cut to
    the length, beyond which [splice] clamps anyway. *)
Definition splice_start (v : option double) (len : nat) : Z :=
  match v with
  | Some (S754_finite s m e) =>
      cond_Zopp s (if (0 <=? e)%Z then Zpos m * 2 ^ e else Zpos m / 2 ^ (- e))
  | Some (S754_infinity s) => cond_Zopp s (Z.of_nat len)
  | _ => 0%Z
  end.

(** [indexOf] on an array of references. *)
Definition js_indexOf (r : ref) (l : list ref) : Z :=
  js_findIndex (fun a => bool_decide (a = r)) l.

(** ** Card *)

Record Image := mkImage { naturalWidth : double; naturalHeight : double }.

(** [Card.outline]: [false], ["stack"] or ["pile"]. *)
Inductive Outline := OutlineFalse | OutlineStack | OutlinePile.

Module Card.
Record t := mk {
  direction : double;
  flipped : bool;
  size : double;
  num : string;
  suit : string;
  x : double;
  y : double;
  image : Image;
  outline : Outline
}.

Definition width (c : t) : double := (naturalWidth (image c) * size c)%dbl.
Definition height (c : t) : double := (naturalHeight (image c) * size c)%dbl.

Definition cornerX (c : t) : option double :=
  switch_direction (direction c)
    (x c + width c)%dbl (x c - height c)%dbl (x c - width c)%dbl (x c + height c)%dbl.

Definition cornerY (c : t) : option double :=
  switch_direction (direction c)
    (y c + height c)%dbl (y c + width c)%dbl (y c - height c)%dbl (y c - width c)%dbl.

Definition isIn (c : t) (px py : double) : option bool :=
  switch_direction (direction c)
    (fleb (x c) px && le_u px (cornerX c) && fleb (y c) py && le_u py (cornerY c))
    (fleb px (x c) && ge_u px (cornerX c) && fleb (y c) py && le_u py (cornerY c))
    (fleb px (x c) && ge_u px (cornerX c) && fleb py (y c) && ge_u py (cornerY c))
    (fleb (x c) px && le_u px (cornerX c) && fleb py (y c) && ge_u py (cornerY c)).

Definition set_direction (v : double) (c : t) : t :=
  mk v (flipped c) (size c) (num c) (suit c) (x c) (y c) (image c) (outline c).
Definition set_flipped (v : bool) (c : t) : t :=
  mk (direction c) v (size c) (num c) (suit c) (x c) (y c) (image c) (outline c).
Definition set_size (v : double) (c : t) : t :=
  mk (direction c) (flipped c) v (num c) (suit c) (x c) (y c) (image c) (outline c).
Definition set_x (v : double) (c : t) : t :=
  mk (direction c) (flipped c) (size c) (num c) (suit c) v (y c) (image c) (outline c).
Definition set_y (v : double) (c : t) : t :=
  mk (direction c) (flipped c) (size c) (num c) (suit c) (x c) v (image c) (outline c).
Definition set_outline (v : Outline) (c : t) : t :=
  mk (direction c) (flipped c) (size c) (num c) (suit c) (x c) (y c) (image c) v.

(** [a[i]] for a string: the one-character string at [i]. *)
Definition char_at (a : string) (i : nat) : string :=
  match String.get i a with
  | Some ch => String ch EmptyString
  | None => EmptyString
  end.

(** [new Card(a, x, y, e, d)] with [img] the image [d[a]]. *)
Definition new (a : string) (img : Image) (x0 y0 e : double) : t :=
  mk 0 false e (char_at a 0) (char_at a 1) x0 y0 img OutlineFalse.
End Card.

(** ** Stack and Pile

    Both classes extend [Array]: the elements are references to Cards.  The
    position is kept in the fields [X], [Y] behind the accessors [x], [y]. *)

(** [Stack.outlineIndex]: [false], or whatever index was last stored there
    (a number, or [undefined] when no direction matched). *)
Inductive OutlineIndex := OIFalse | OIIndex (i : option double).

Module Stack.
Record t := mk {
  elems : list ref;
  X : double;
  Y : double;
  flipped : bool;
  direction : double;
  outlineIndex : OutlineIndex;
  lastOutline : bool
}.

Definition set_elems (v : list ref) (s : t) : t :=
  mk v (X s) (Y s) (flipped s) (direction s) (outlineIndex s) (lastOutline s).
Definition set_X (v : double) (s : t) : t :=
  mk (elems s) v (Y s) (flipped s) (direction s) (outlineIndex s) (lastOutline s).
Definition set_Y (v : double) (s : t) : t :=
  mk (elems s) (X s) v (flipped s) (direction s) (outlineIndex s) (lastOutline s).
Definition set_flipped (v : bool) (s : t) : t :=
  mk (elems s) (X s) (Y s) v (direction s) (outlineIndex s) (lastOutline s).
Definition set_direction (v : double) (s : t) : t :=
  mk (elems s) (X s) (Y s) (flipped s) v (outlineIndex s) (lastOutline s).
Definition set_outlineIndex (v : OutlineIndex) (s : t) : t :=
  mk (elems s) (X s) (Y s) (flipped s) (direction s) v (lastOutline s).
Definition set_lastOutline (v : bool) (s : t) : t :=
  mk (elems s) (X s) (Y s) (flipped s) (direction s) (outlineIndex s) v.
End Stack.

Module Pile.
Record t := mk {
  elems : list ref;
  X : double;
  Y : double;
  flipped : bool;
  direction : double;
  isOutline : bool
}.

Definition set_elems (v : list ref) (p : t) : t :=
  mk v (X p) (Y p) (flipped p) (direction p) (isOutline p).
Definition set_X (v : double) (p : t) : t :=
  mk (elems p) v (Y p) (flipped p) (direction p) (isOutline p).
Definition set_Y (v : double) (p : t) : t :=
  mk (elems p) (X p) v (flipped p) (direction p) (isOutline p).
Definition set_flipped (v : bool) (p : t) : t :=
  mk (elems p) (X p) (Y p) v (direction p) (isOutline p).
Definition set_direction (v : double) (p : t) : t :=
  mk (elems p) (X p) (Y p) (flipped p) v (isOutline p).
Definition set_isOutline (v : bool) (p : t) : t :=
  mk (elems p) (X p) (Y p) (flipped p) (direction p) v.
End Pile.

(** ** The store *)

Inductive Obj :=
| OCard (c : Card.t)
| OStack (s : Stack.t)
| OPile (p : Pile.t).

(** [object.constructor.name.toLowerCase()] *)
Inductive Kind := KCard | KStack | KPile.

Definition kind_of (o : Obj) : Kind :=
  match o with OCard _ => KCard | OStack _ => KStack | OPile _ => KPile end.

Global Instance Kind_eq_dec : EqDecision Kind.
Proof. solve_decision. Defined.

Abbreviation Heap := (gmap nat Obj).

(** [this[0]] of a Stack or Pile when it is a Card; every element of a group
    is a Card in the source, so a reference bound to anything else is read as
    an absent element. *)
Definition first_card (h : Heap) (l : list ref) : option Card.t :=
  match l with
  | [] => None
  | r :: _ => match h !! r with Some (OCard c) => Some c | _ => None end
  end.

Definition Stack_width (h : Heap) (s : Stack.t) : option double :=
  match first_card h (Stack.elems s) with
  | Some c0 =>
      Some (((num_of_nat (length (Stack.elems s)) - 1) * 45 * Card.size c0)
            + naturalWidth (Card.image c0) * Card.size c0)%dbl
  | None => None
  end.

Definition Stack_height (h : Heap) (s : Stack.t) : option double :=
  match first_card h (Stack.elems s) with
  | Some c0 => Some (naturalHeight (Card.image c0) * Card.size c0)%dbl
  | None => None
  end.

Definition Pile_width (h : Heap) (p : Pile.t) : option double :=
  match first_card h (Pile.elems p) with
  | Some c0 => Some (naturalWidth (Card.image c0) * Card.size c0)%dbl
  | None => None
  end.

Definition Pile_height (h : Heap) (p : Pile.t) : option double :=
  match first_card h (Pile.elems p) with
  | Some c0 => Some (naturalHeight (Card.image c0) * Card.size c0)%dbl
  | None => None
  end.

(** [a + b] and [a - b] where [b] may be [undefined]. *)
Definition add_u (a : double) (b : option double) : option double := (fun v => (a + v)%dbl) <$> b.
Definition sub_u (a : double) (b : option double) : option double := (fun v => (a - v)%dbl) <$> b.

Definition Stack_cornerX (h : Heap) (s : Stack.t) : option double :=
  mjoin (switch_direction (Stack.direction s)
    (add_u (Stack.X s) (Stack_width h s)) (sub_u (Stack.X s) (Stack_height h s))
    (sub_u (Stack.X s) (Stack_width h s)) (add_u (Stack.X s) (Stack_height h s))).

Definition Stack_cornerY (h : Heap) (s : Stack.t) : option double :=
  mjoin (switch_direction (Stack.direction s)
    (add_u (Stack.Y s) (Stack_height h s)) (add_u (Stack.Y s) (Stack_width h s))
    (sub_u (Stack.Y s) (Stack_height h s)) (sub_u (Stack.Y s) (Stack_width h s))).

Definition Stack_isIn (h : Heap) (s : Stack.t) (px py : double) : option bool :=
  let x := Stack.X s in let y := Stack.Y s in
  let cx := Stack_cornerX h s in let cy := Stack_cornerY h s in
  switch_direction (Stack.direction s)
    (fleb x px && le_u px cx && fleb y py && le_u py cy)
    (fleb px x && ge_u px cx && fleb y py && le_u py cy)
    (fleb px x && ge_u px cx && fleb py y && ge_u py cy)
    (fleb x px && le_u px cx && fleb py y && ge_u py cy).

Definition Pile_cornerX (h : Heap) (p : Pile.t) : option double :=
  mjoin (switch_direction (Pile.direction p)
    (add_u (Pile.X p) (Pile_width h p)) (sub_u (Pile.X p) (Pile_height h p))
    (sub_u (Pile.X p) (Pile_width h p)) (add_u (Pile.X p) (Pile_height h p))).

Definition Pile_cornerY (h : Heap) (p : Pile.t) : option double :=
  mjoin (switch_direction (Pile.direction p)
    (add_u (Pile.Y p) (Pile_height h p)) (add_u (Pile.Y p) (Pile_width h p))
    (sub_u (Pile.Y p) (Pile_height h p)) (sub_u (Pile.Y p) (Pile_width h p))).

Definition Pile_isIn (h : Heap) (p : Pile.t) (px py : double) : option bool :=
  let x := Pile.X p in let y := Pile.Y p in
  let cx := Pile_cornerX h p in let cy := Pile_cornerY h p in
  switch_direction (Pile.direction p)
    (fleb x px && le_u px cx && fleb y py && le_u py cy)
    (fleb px x && ge_u px cx && fleb y py && le_u py cy)
    (fleb px x && ge_u px cx && fleb py y && ge_u py cy)
    (fleb x px && le_u px cx && fleb py y && ge_u py cy).

(** *** [Stack.getSpecCard] *)

(** What [getSpecCard] can return: [false], an index (a number, or
    [undefined] when no direction matched), or an element of the Stack
    ([undefined] when the index is outside it). *)
Inductive SpecResult :=
| SpecFalse
| SpecIndex (i : option double)
| SpecCard (c : option ref).

(** The [switch] that computes [index]; [None] is the uninitialised [let]. *)
Definition Stack_fanIndex (s : Stack.t) (px py : double) : option double :=
  switch_direction (Stack.direction s)
    (Math_floor ((px - Stack.X s) / spacing))
    (Math_floor ((py - Stack.Y s) / spacing))
    (Math_floor ((Stack.X s - px) / spacing))
    (Math_floor ((Stack.Y s - py) / spacing)).

(** [index < this.length ? index : this.length - 1]; [undefined < n] and
    [NaN < n] are [false]. *)
Definition scrubbed (index : option double) (len : nat) : double :=
  match index with
  | Some i => if fltb i (num_of_nat len) then i else num_pred len
  | None => num_pred len
  end.

Definition truthy (b : option bool) : bool := default false b.

Definition Stack_getSpecCard (h : Heap) (s : Stack.t) (px py : double)
    (returnIndex scrub checkIsIn : bool) : SpecResult :=
  if checkIsIn && negb (truthy (Stack_isIn h s px py)) then SpecFalse
  else
    let index := Stack_fanIndex s px py in
    let len := length (Stack.elems s) in
    if returnIndex then
      (if scrub then SpecIndex (Some (scrubbed index len)) else SpecIndex index)
    else SpecCard (js_get_num (Stack.elems s) (scrubbed index len)).

(** ** Generic property access

    The handlers read and write [flipped], [direction], [x], [y], [length]
    on [allObjects[i]] whatever its class. *)

Definition get_flipped (o : Obj) : bool :=
  match o with
  | OCard c => Card.flipped c | OStack s => Stack.flipped s | OPile p => Pile.flipped p
  end.

Definition get_direction (o : Obj) : double :=
  match o with
  | OCard c => Card.direction c | OStack s => Stack.direction s | OPile p => Pile.direction p
  end.

Definition get_x (o : Obj) : double :=
  match o with OCard c => Card.x c | OStack s => Stack.X s | OPile p => Pile.X p end.

Definition get_y (o : Obj) : double :=
  match o with OCard c => Card.y c | OStack s => Stack.Y s | OPile p => Pile.Y p end.

(** The array part of an object; a Card has none. *)
Definition get_elems (o : Obj) : option (list ref) :=
  match o with
  | OCard _ => None | OStack s => Some (Stack.elems s) | OPile p => Some (Pile.elems p)
  end.

Definition put_elems (l : list ref) (o : Obj) : Obj :=
  match o with
  | OCard c => OCard c
  | OStack s => OStack (Stack.set_elems l s)
  | OPile p => OPile (Pile.set_elems l p)
  end.

Definition put_flipped (v : bool) (o : Obj) : Obj :=
  match o with
  | OCard c => OCard (Card.set_flipped v c)
  | OStack s => OStack (Stack.set_flipped v s)
  | OPile p => OPile (Pile.set_flipped v p)
  end.

Definition put_direction (v : double) (o : Obj) : Obj :=
  match o with
  | OCard c => OCard (Card.set_direction v c)
  | OStack s => OStack (Stack.set_direction v s)
  | OPile p => OPile (Pile.set_direction v p)
  end.

(** [dst.flipped = src.flipped] and [dst.direction = src.direction]. *)
Definition copy_flipped (h : Heap) (dst src : ref) : option Heap :=
  od ← h !! dst; os ← h !! src;
  Some (<[dst := put_flipped (get_flipped os) od]> h).

Definition copy_direction (h : Heap) (dst src : ref) : option Heap :=
  od ← h !! dst; os ← h !! src;
  Some (<[dst := put_direction (get_direction os) od]> h).

(** The first element of a group, updated when it is a Card: the
    [if (this[0]) { this[0].x = a; }] of the position setters. *)
Definition alter_first_card (f : Card.t -> Card.t) (h : Heap) (l : list ref) : Heap :=
  match l with
  | [] => h
  | r0 :: _ => match h !! r0 with
               | Some (OCard c0) => <[r0 := OCard (f c0)]> h
               | _ => h
               end
  end.

(** [o.x = v]: a plain field of a Card, the setter of a Stack or Pile. *)
Definition write_x (h : Heap) (r : ref) (v : double) : option Heap :=
  o ← h !! r;
  match o with
  | OCard c => Some (<[r := OCard (Card.set_x v c)]> h)
  | OStack s =>
      Some (<[r := OStack (Stack.set_X v s)]> (alter_first_card (Card.set_x v) h (Stack.elems s)))
  | OPile p =>
      Some (<[r := OPile (Pile.set_X v p)]> (alter_first_card (Card.set_x v) h (Pile.elems p)))
  end.

Definition write_y (h : Heap) (r : ref) (v : double) : option Heap :=
  o ← h !! r;
  match o with
  | OCard c => Some (<[r := OCard (Card.set_y v c)]> h)
  | OStack s =>
      Some (<[r := OStack (Stack.set_Y v s)]> (alter_first_card (Card.set_y v) h (Stack.elems s)))
  | OPile p =>
      Some (<[r := OPile (Pile.set_Y v p)]> (alter_first_card (Card.set_y v) h (Pile.elems p)))
  end.

(** [o.isIn(x, y)], [o.width] and [o.height] dispatched on the class. *)
Definition obj_isIn (h : Heap) (o : Obj) (px py : double) : option bool :=
  match o with
  | OCard c => Card.isIn c px py
  | OStack s => Stack_isIn h s px py
  | OPile p => Pile_isIn h p px py
  end.

Definition obj_width (h : Heap) (o : Obj) : option double :=
  match o with
  | OCard c => Some (Card.width c) | OStack s => Stack_width h s | OPile p => Pile_width h p
  end.

Definition obj_height (h : Heap) (o : Obj) : option double :=
  match o with
  | OCard c => Some (Card.height c) | OStack s => Stack_height h s | OPile p => Pile_height h p
  end.

Definition obj_cornerX (h : Heap) (o : Obj) : option double :=
  match o with
  | OCard c => Card.cornerX c | OStack s => Stack_cornerX h s | OPile p => Pile_cornerX h p
  end.

Definition obj_cornerY (h : Heap) (o : Obj) : option double :=
  match o with
  | OCard c => Card.cornerY c | OStack s => Stack_cornerY h s | OPile p => Pile_cornerY h p
  end.

(** [a.isIn(x, y)] as a condition, for [a] an element of [allObjects]. *)
Definition isIn_ref (h : Heap) (px py : double) (r : ref) : bool :=
  match h !! r with
  | Some o => truthy (obj_isIn h o px py)
  | None => false
  end.

(** ** Constructors of the groups

    [new Stack(x, y, ...cards)] and [new Pile(x, y, ...cards)]: the position
    is assigned while the array is still empty, so no Card is moved. *)
Definition new_Stack (x0 y0 : double) (cards : list ref) : Stack.t :=
  Stack.mk cards x0 y0 false 0 OIFalse false.

Definition new_Pile (x0 y0 : double) (cards : list ref) : Pile.t :=
  Pile.mk cards x0 y0 false 0 false.

(** ** Events, the drag session, the state *)

Module Ev.
Record t := mk {
  clientX : double;
  clientY : double;
  button : Z;
  movementX : double;
  movementY : double;
  timeStamp : double
}.
End Ev.

Module Dragging.
Record t := mk {
  type : Kind;
  object : ref;
  x : double;
  y : double;
  timeStamp : double;
  doubleClick : bool;
  specCard : option ref;
  specCardIndex : option Z;
  draggedYet : bool;
  index : Z;
  overIndex : option Z;
  over : option ref
}.

Definition set_xy (x0 y0 : double) (d : t) : t :=
  mk (type d) (object d) x0 y0 (timeStamp d) (doubleClick d) (specCard d)
     (specCardIndex d) (draggedYet d) (index d) (overIndex d) (over d).
Definition set_draggedYet (v : bool) (d : t) : t :=
  mk (type d) (object d) (x d) (y d) (timeStamp d) (doubleClick d) (specCard d)
     (specCardIndex d) v (index d) (overIndex d) (over d).
Definition set_over (i : Z) (o : option ref) (d : t) : t :=
  mk (type d) (object d) (x d) (y d) (timeStamp d) (doubleClick d) (specCard d)
     (specCardIndex d) (draggedYet d) (index d) (Some i) o.
End Dragging.

(** [dragging] and [lastDragged] are [false] ([None]) or a session object. *)
Record State := mkState {
  heap : Heap;
  allObjects : list ref;
  dragging : option Dragging.t;
  lastDragged : option Dragging.t
}.

Definition with_heap (h : Heap) (s : State) : State :=
  mkState h (allObjects s) (dragging s) (lastDragged s).

(** ** [tick]: the state a redraw leaves behind

    Only the writes of the [draw] methods are kept; the canvas is not part
    of the state. *)

(** [Card.draw]: [if (this.outline) { ...; this.outline = false; }] *)
Definition draw_Card (h : Heap) (r : ref) (c : Card.t) : Heap :=
  match Card.outline c with
  | OutlineFalse => h
  | _ => <[r := OCard (Card.set_outline OutlineFalse c)]> h
  end.

(** [dragging.specCard && !dragging.doubleClick && a === dragging.specCard] *)
Definition spec_hit (d : option Dragging.t) (a : ref) : bool :=
  match d with
  | Some d => match Dragging.specCard d with
              | Some c => negb (Dragging.doubleClick d) && bool_decide (a = c)
              | None => false
              end
  | None => false
  end.

(** [this.outlineIndex === b] for the position [b] of the loop. *)
Definition oi_is (b : Z) (oi : OutlineIndex) : bool :=
  match oi with OIIndex (Some i) => feqb i (of_Z b) | _ => false end.

(** The [forEach] of [Stack.draw], as far as [outlineIndex] goes. *)
Fixpoint draw_Stack_loop (d : option Dragging.t) (l : list ref) (b : Z)
    (oi : OutlineIndex) : OutlineIndex :=
  match l with
  | [] => oi
  | a :: l' =>
      draw_Stack_loop d l' (b + 1)
        (if oi_is b oi || spec_hit d a then OIFalse else oi)
  end.

(** [Stack.draw]; the trailing outline reads [this[0].size]. *)
Definition draw_Stack (d : option Dragging.t) (h : Heap) (r : ref) (s : Stack.t)
  : option Heap :=
  let s1 := Stack.set_outlineIndex
              (draw_Stack_loop d (Stack.elems s) 0 (Stack.outlineIndex s)) s in
  if Stack.lastOutline s then
    match first_card h (Stack.elems s) with
    | Some _ => Some (<[r := OStack (Stack.set_lastOutline false s1)]> h)
    | None => None
    end
  else Some (<[r := OStack s1]> h).

(** [Pile.draw(z = 0.5)]:
    [[this[0].x, this[0].y, this[0].size] = [this.x, this.y, z]] and the
    reset of [isOutline], both under [if (this[0])]. *)
Definition draw_Pile (h : Heap) (r : ref) (p : Pile.t) : Heap :=
  match first_card h (Pile.elems p) with
  | Some _ =>
      let h1 := alter_first_card
                  (fun c => Card.set_size half (Card.set_y (Pile.Y p) (Card.set_x (Pile.X p) c)))
                  h (Pile.elems p) in
      if Pile.isOutline p then <[r := OPile (Pile.set_isOutline false p)]> h1 else h1
  | None => h
  end.

Definition draw_ref (d : option Dragging.t) (h : Heap) (r : ref) : option Heap :=
  o ← h !! r;
  match o with
  | OCard c => Some (draw_Card h r c)
  | OStack s => draw_Stack d h r s
  | OPile p => Some (draw_Pile h r p)
  end.

Fixpoint draw_all (d : option Dragging.t) (l : list ref) (h : Heap) : option Heap :=
  match l with
  | [] => Some h
  | r :: l' => h' ← draw_ref d h r; draw_all d l' h'
  end.

(** [allObjects.slice().reverse().forEach(a => a.draw())] *)
Definition tick (s : State) : option State :=
  h' ← draw_all (dragging s) (reverse (allObjects s)) (heap s);
  Some (with_heap h' s).

(** ** The [mousedown] handler *)

(** [object.reverse()] under [type === "stack" || type === "pile"]. *)
Definition reverse_group (o : Obj) : Obj :=
  match o with
  | OCard c => OCard c
  | OStack s => OStack (Stack.set_elems (reverse (Stack.elems s)) s)
  | OPile p => OPile (Pile.set_elems (reverse (Pile.elems p)) p)
  end.

(** Left button turns a flipped object face up, right button turns an
    unflipped one face down; a group is reversed in either case. *)
Definition press_flip (button : Z) (o : Obj) : Obj :=
  if (button =? 0)%Z then
    (if get_flipped o then put_flipped false (reverse_group o) else o)
  else if (button =? 2)%Z then
    (if negb (get_flipped o) then put_flipped true (reverse_group o) else o)
  else o.

(** [((e.timeStamp - lastDragged.timeStamp) < 500) && (object === lastDragged.object)];
    with [lastDragged = false] the difference is [NaN]. *)
Definition is_doubleClick (last : option Dragging.t) (timeStamp : double) (object : ref) : bool :=
  match last with
  | Some l => fltb (timeStamp - Dragging.timeStamp l) 500
              && bool_decide (object = Dragging.object l)
  | None => false
  end.

(** [object.getSpecCard(x, y)] for a Stack, [undefined] otherwise. *)
Definition press_specCard (h : Heap) (o : Obj) (px py : double) : option ref :=
  match o with
  | OStack s => match Stack_getSpecCard h s px py false true false with
                | SpecCard c => c
                | _ => None
                end
  | _ => None
  end.

(** [object.indexOf(object.getSpecCard(x, y))] for a Stack, [undefined]
    otherwise. *)
Definition press_specCardIndex (h : Heap) (o : Obj) (px py : double) : option Z :=
  match o with
  | OStack s => Some (match press_specCard h o px py with
                      | Some c => js_indexOf c (Stack.elems s)
                      | None => (-1)%Z
                      end)
  | _ => None
  end.

(** [if (allObjects[0] !== object)
      allObjects.unshift(allObjects.splice(allObjects.indexOf(object), 1)[0])] *)
Definition raise (object : ref) (l : list ref) : list ref :=
  if bool_decide (head l = Some object) then l
  else
    let '(removed, l') := js_splice (js_indexOf object l) 1 [] l in
    match removed with r :: _ => r :: l' | [] => l' end.

Definition mousedown (e : Ev.t) (s : State) : option State :=
  match dragging s with
  | Some _ => Some s
  | None =>
      let x := Ev.clientX e in
      let y := Ev.clientY e in
      let index := js_findIndex (isIn_ref (heap s) x y) (allObjects s) in
      match js_get (allObjects s) index with
      | None => Some s
      | Some object =>
          o ← heap s !! object;
          let type := kind_of o in
          let o1 := press_flip (Ev.button e) o in
          let h1 := <[object := o1]> (heap s) in
          let d := Dragging.mk type object x y (Ev.timeStamp e)
                     (is_doubleClick (lastDragged s) (Ev.timeStamp e) object)
                     (press_specCard h1 o1 x y)
                     (press_specCardIndex h1 o1 x y)
                     false index None None in
          tick (mkState h1 (raise object (allObjects s)) (Some d) (lastDragged s))
      end
  end.

(** ** The [mousemove] handler *)

(** The session object written after an extraction. *)
Definition retargeted (e : Ev.t) (object : ref) : Dragging.t :=
  Dragging.mk KCard object (Ev.clientX e) (Ev.clientY e) (Ev.timeStamp e)
    false None None true 0 None None.

(** The degeneration block of the Stack branch:
    [if (allObjects[1].length === 1) { ... allObjects.splice(1, 1, allObjects[1][0]); }]
    Returns the store and the registry. *)
Definition collapse_stack (h : Heap) (all : list ref) : option (Heap * list ref) :=
  r1 ← all !! 1%nat;
  o1 ← h !! r1;
  match get_elems o1 with
  | Some [m] =>
      h ← copy_flipped h m r1;
      h ← copy_direction h m r1;
      o1 ← h !! r1;
      h ← write_x h m (get_x o1);
      o1 ← h !! r1;
      h ← write_y h m (get_y o1);
      Some (h, (js_splice 1 1 [m] all).2)
  | _ => Some (h, all)
  end.

(** The same block of the Pile branch, two pixels up and left. *)
Definition collapse_pile (h : Heap) (all : list ref) : option (Heap * list ref) :=
  r1 ← all !! 1%nat;
  o1 ← h !! r1;
  match get_elems o1 with
  | Some [m] =>
      h ← copy_flipped h m r1;
      h ← copy_direction h m r1;
      o1 ← h !! r1;
      h ← write_x h m (get_x o1 - 2)%dbl;
      o1 ← h !! r1;
      h ← write_y h m (get_y o1 - 2)%dbl;
      Some (h, (js_splice 1 1 [m] all).2)
  | _ => Some (h, all)
  end.

(** The [switch (allObjects[0].direction)] that places the extracted Card. *)
Definition place_extracted (h : Heap) (all : list ref) (specCardIndex : Z) : option Heap :=
  r0 ← all !! 0%nat;
  r1 ← all !! 1%nat;
  o0 ← h !! r0;
  let off := (of_Z specCardIndex * spacing)%dbl in
  match switch_direction (get_direction o0) 0%nat 1%nat 2%nat 3%nat with
  | Some 0%nat =>
      o1 ← h !! r1; h ← write_x h r0 (get_x o1 + off)%dbl;
      o1 ← h !! r1; write_y h r0 (get_y o1)
  | Some 1%nat =>
      o1 ← h !! r1; h ← write_x h r0 (get_x o1);
      o1 ← h !! r1; write_y h r0 (get_y o1 + off)%dbl
  | Some 2%nat =>
      o1 ← h !! r1; h ← write_x h r0 (get_x o1 - off)%dbl;
      o1 ← h !! r1; write_y h r0 (get_y o1)
  | Some _ =>
      o1 ← h !! r1; h ← write_x h r0 (get_x o1);
      o1 ← h !! r1; write_y h r0 (get_y o1 - off)%dbl
  | None => Some h
  end.

(** First move of a single-clicked Stack.  In a session of type ["stack"]
    [specCardIndex] is the number [mousedown] stored. *)
Definition extract_from_stack (e : Ev.t) (s : State) (d : Dragging.t) : option State :=
  specCardIndex ← Dragging.specCardIndex d;
  o ← heap s !! Dragging.object d;
  l ← get_elems o;
  let '(removed, l') := js_splice specCardIndex 1 [] l in
  c ← head removed;
  let h := <[Dragging.object d := put_elems l' o]> (heap s) in
  let all := c :: allObjects s in
  r1 ← all !! 1%nat;
  h ← copy_flipped h c r1;
  h ← copy_direction h c r1;
  '(h, all) ← collapse_stack h all;
  r0 ← all !! 0%nat;
  h ← place_extracted h all specCardIndex;
  r1 ← all !! 1%nat;
  h ← copy_direction h r0 r1;
  Some (mkState h all (Some (retargeted e r0)) (lastDragged s)).

(** First move of a single-clicked Pile: [dragging.object.shift()]. *)
Definition extract_from_pile (e : Ev.t) (s : State) (d : Dragging.t) : option State :=
  o ← heap s !! Dragging.object d;
  l ← get_elems o;
  c ← head l;
  let h := <[Dragging.object d := put_elems (tail l) o]> (heap s) in
  let all := c :: allObjects s in
  r1 ← all !! 1%nat;
  h ← copy_flipped h c r1;
  h ← copy_direction h c r1;
  '(h, all) ← collapse_pile h all;
  r0 ← all !! 0%nat;
  Some (mkState h all (Some (retargeted e r0)) (lastDragged s)).

(** The block under [if (!dragging.draggedYet)], ending with
    [dragging.draggedYet = true].  [s] already carries the session with the
    pointer position updated. *)
Definition first_move (e : Ev.t) (s : State) (d : Dragging.t) : option State :=
  s1 ← match Dragging.type d with
       | KCard => Some s
       | KStack => if Dragging.doubleClick d then Some s else extract_from_stack e s d
       | KPile => if Dragging.doubleClick d then Some s else extract_from_pile e s d
       end;
  Some (mkState (heap s1) (allObjects s1)
          (Dragging.set_draggedYet true <$> dragging s1) (lastDragged s1)).

(** [allObjects[0].x += e.movementX; allObjects[0].y += e.movementY;] *)
Definition move_top (e : Ev.t) (s : State) : option State :=
  r0 ← allObjects s !! 0%nat;
  o ← heap s !! r0;
  h ← write_x (heap s) r0 (get_x o + Ev.movementX e)%dbl;
  o ← h !! r0;
  h ← write_y h r0 (get_y o + Ev.movementY e)%dbl;
  Some (with_heap h s).

(** The movement block: always for a Card, for a group only when it was
    double clicked. *)
Definition apply_movement (e : Ev.t) (s : State) (d : Dragging.t) : option State :=
  match Dragging.type d with
  | KCard => move_top e s
  | KStack | KPile => if Dragging.doubleClick d then move_top e s else Some s
  end.

(** The band test shared by [mousemove] and [mouseup]:
    [yDiff < 0.5 * over.height], then [22.5 <= xDiff && xDiff < 45] or
    [-22.5 <= xDiff && xDiff < 22.5]. *)
Inductive Band := BandStack | BandPile | BandNone.

Definition band (xDiff yDiff overHeight : double) : Band :=
  if fltb yDiff (half * overHeight) then
    if fleb spacing xDiff && fltb xDiff 45 then BandStack
    else if fleb (- spacing) xDiff && fltb xDiff spacing then BandPile
    else BandNone
  else BandNone.

(** [overSpecCardIndex > dragging.over.length]; [undefined > n] is [false]. *)
Definition gt_len (i : option double) (len : nat) : bool :=
  match i with Some i => fltb (num_of_nat len) i | None => false end.

(** [dragging.over.getSpecCard(x, y, true, false)]: the raw index. *)
Definition raw_index (h : Heap) (s : Stack.t) (px py : double) : option double :=
  match Stack_getSpecCard h s px py true false false with
  | SpecIndex i => i
  | _ => None
  end.

(** The preview field written on the hovered object [ov], by its class. *)
Definition mark_preview (h : Heap) (d : Dragging.t) (px py : double) (ov : ref) (o : Obj)
  : option Heap :=
  match o with
  | OPile p => Some (<[ov := OPile (Pile.set_isOutline true p)]> h)
  | OStack st =>
      let i := raw_index h st px py in
      let len := length (Stack.elems st) in
      if gt_len i len then
        Some (<[ov := OStack (Stack.set_outlineIndex (OIIndex (Some (num_of_nat len)))
                                (Stack.set_lastOutline true st))]> h)
      else Some (<[ov := OStack (Stack.set_outlineIndex (OIIndex i) st)]> h)
  | OCard c =>
      od ← h !! Dragging.object d;
      match band (get_x od - Card.x c) (get_y od - Card.y c) (Card.height c) with
      | BandStack => Some (<[ov := OCard (Card.set_outline OutlineStack c)]> h)
      | BandPile => Some (<[ov := OCard (Card.set_outline OutlinePile c)]> h)
      | BandNone => Some h
      end
  end.

(** The block under the second [if (dragging.type === "card")]: the hover
    record and the preview fields. *)
Definition hover (e : Ev.t) (s : State) (d : Dragging.t) : option State :=
  let px := Ev.clientX e in
  let py := Ev.clientY e in
  let h := heap s in
  let overIndex :=
    js_findIndex (fun a => negb (bool_decide (a = Dragging.object d)) && isIn_ref h px py a)
                 (allObjects s) in
  let over := js_get (allObjects s) overIndex in
  let d1 := Dragging.set_over overIndex over d in
  match over with
  | None => Some (mkState h (allObjects s) (Some d1) (lastDragged s))
  | Some ov =>
      o ← h !! ov;
      h1 ← mark_preview h d px py ov o;
      Some (mkState h1 (allObjects s) (Some d1) (lastDragged s))
  end.

(** The handler up to the movement block: the pointer position is stored in
    the session, then the first move of a session runs [first_move]. *)
Definition before_movement (e : Ev.t) (s : State) (d : Dragging.t) : option State :=
  let d := Dragging.set_xy (Ev.clientX e) (Ev.clientY e) d in
  let s := mkState (heap s) (allObjects s) (Some d) (lastDragged s) in
  if Dragging.draggedYet d then Some s else first_move e s d.

Definition mousemove (e : Ev.t) (s : State) : option State :=
  match dragging s with
  | None => Some s
  | Some d =>
      s ← before_movement e s d;
      d ← dragging s;
      s ← apply_movement e s d;
      s ← (match Dragging.type d with KCard => hover e s d | _ => Some s end);
      tick s
  end.

(** ** The [mouseup] handler *)

(** Hover is a Pile:
    [dragging.over.unshift(allObjects[0]); allObjects.splice(0, 1);]
    (an empty registry, where [allObjects[0]] is [undefined], is not
    modelled) *)
Definition drop_on_pile (s : State) (ov : ref) (p : Pile.t) : option State :=
  r0 ← allObjects s !! 0%nat;
  Some (mkState (<[ov := OPile (Pile.set_elems (r0 :: Pile.elems p) p)]> (heap s))
          (js_splice 0 1 [] (allObjects s)).2 (dragging s) (lastDragged s)).

(** Hover is a Stack: insert at the raw index, or at the end when the index
    is beyond the length; this branch redraws before the session is closed. *)
Definition drop_on_stack (s : State) (d : Dragging.t) (ov : ref) (st : Stack.t)
  : option State :=
  r0 ← allObjects s !! 0%nat;
  let i := raw_index (heap s) st (Dragging.x d) (Dragging.y d) in
  let len := length (Stack.elems st) in
  let start := if gt_len i len then Z.of_nat len else splice_start i len in
  let st1 := Stack.set_elems (js_splice start 0 [r0] (Stack.elems st)).2 st in
  let st2 := if Stack.lastOutline st1
             then Stack.set_lastOutline false (Stack.set_outlineIndex OIFalse st1)
             else st1 in
  tick (mkState (<[ov := OStack st2]> (heap s))
          (js_splice 0 1 [] (allObjects s)).2 (dragging s) (lastDragged s)).

(** The reference [new] returns: one the store does not hold yet. *)
Definition new_ref (h : Heap) : ref := fresh (dom h).

(** Hover is a Card, inside a band:
    [allObjects.splice(0, 1, new G(over.x, over.y,
        allObjects.splice(dragging.overIndex, 1)[0], dragging.object));
     allObjects[0].flipped = dragging.over.flipped;
     allObjects[0].direction = dragging.over.direction;] *)
Definition merge_cards (mk_group : double -> double -> list ref -> Obj)
    (s : State) (d : Dragging.t) (ov : ref) (c : Card.t) : option State :=
  let overIndex := default 0%Z (Dragging.overIndex d) in
  let '(removed, all1) := js_splice overIndex 1 [] (allObjects s) in
  m ← head removed;
  let g := new_ref (heap s) in
  let h1 := <[g := mk_group (Card.x c) (Card.y c) [m; Dragging.object d]]> (heap s) in
  let all2 := (js_splice 0 1 [g] all1).2 in
  r0 ← all2 !! 0%nat;
  h2 ← copy_flipped h1 r0 ov;
  h3 ← copy_direction h2 r0 ov;
  Some (mkState h3 all2 (dragging s) (lastDragged s)).

Definition drop_on_card (s : State) (d : Dragging.t) (ov : ref) (c : Card.t)
  : option State :=
  od ← heap s !! Dragging.object d;
  match band (get_x od - Card.x c) (get_y od - Card.y c) (Card.height c) with
  | BandStack => merge_cards (fun x0 y0 l => OStack (new_Stack x0 y0 l)) s d ov c
  | BandPile => merge_cards (fun x0 y0 l => OPile (new_Pile x0 y0 l)) s d ov c
  | BandNone => Some s
  end.

(** The block under [if (dragging.over)]. *)
Definition drop_dragged (s : State) (d : Dragging.t) : option State :=
  match Dragging.over d with
  | None => Some s
  | Some ov =>
      o ← heap s !! ov;
      match o with
      | OPile p => drop_on_pile s ov p
      | OStack st => drop_on_stack s d ov st
      | OCard c => drop_on_card s d ov c
      end
  end.

(** The block under [if (dragging)]: [lastDragged = dragging], the drop,
    [dragging = false]. *)
Definition release (s : State) (d : Dragging.t) : option State :=
  s ← drop_dragged (mkState (heap s) (allObjects s) (dragging s) (Some d)) d;
  Some (mkState (heap s) (allObjects s) None (lastDragged s)).

(** [tick()] is called after the [if], whether or not a session was open. *)
Definition mouseup (s : State) : option State :=
  s1 ← match dragging s with
       | None => Some s
       | Some d => release s d
       end;
  tick s1.

(** ** The tables of the specification

    The four quarter turns, the opposite corner and the inside test as the
    specification words them; the theorems compare the getters with these. *)

Inductive Quarter := Deg0 | Deg90 | Deg180 | Deg270.

Definition radians (q : Quarter) : double :=
  match q with
  | Deg0 => 0
  | Deg90 => Math_PI * half
  | Deg180 => Math_PI
  | Deg270 => Math_PI * three_halves
  end.

Definition spec_corner (q : Quarter) (x y w h : double) : double * double :=
  match q with
  | Deg0 => (x + w, y + h)
  | Deg90 => (x - h, y + w)
  | Deg180 => (x - w, y - h)
  | Deg270 => (x + h, y - w)
  end%dbl.

Definition spec_inside (q : Quarter) (x y w h px py : double) : Prop :=
  let cx := (spec_corner q x y w h).1 in
  let cy := (spec_corner q x y w h).2 in
  match q with
  | Deg0 => x <= px <= cx /\ y <= py <= cy
  | Deg90 => cx <= px <= x /\ y <= py <= cy
  | Deg180 => cx <= px <= x /\ cy <= py <= y
  | Deg270 => x <= px <= cx /\ cy <= py <= y
  end%dbl.

(** The distance from the anchor along the fan axis. *)
Definition axis_distance (q : Quarter) (x y px py : double) : double :=
  match q with
  | Deg0 => px - x
  | Deg90 => py - y
  | Deg180 => x - px
  | Deg270 => y - py
  end%dbl.

(** The case a [switch] over the direction takes. *)
Definition pick {A} (q : Quarter) (c0 c90 c180 c270 : A) : A :=
  match q with Deg0 => c0 | Deg90 => c90 | Deg180 => c180 | Deg270 => c270 end.

(** ** Example scenes

    The scene the script itself builds has a Stack at (600, 200), a Pile at
    (300, 200) and lone Cards at y = 10; the examples below are cut-down
    versions of it, built with the same constructors. *)

Definition img : Image := mkImage 100 140.

Definition card_at (x0 y0 : double) : Obj := OCard (Card.new "as" img x0 y0 half).

(** Two lone Cards, [0] on top of nothing at (10, 10) and [1] at (300, 10). *)
Definition two_cards : State :=
  mkState (<[0%nat := card_at 10 10]> (<[1%nat := card_at 300 10]> ∅))
          [0; 1]%nat None None.

(** Two lone Cards at scale 1, [0] at (10, 10) and [1] at (300, 10). *)
Definition big_cards : State :=
  mkState (<[0%nat := OCard (Card.new "as" img 10 10 1)]>
           (<[1%nat := OCard (Card.new "as" img 300 10 1)]> ∅))
          [0; 1]%nat None None.

Definition press (x0 y0 t : double) : Ev.t := Ev.mk x0 y0 0 0 0 t.
Definition move (x0 y0 dx dy t : double) : Ev.t := Ev.mk x0 y0 0 dx dy t.

(** A Pile at (300, 200) turned by an eighth of a turn, over the two Cards
    [1] and [2], and a lone Card [3]. *)
Definition tilted_store : Heap :=
  <[0%nat := OPile (Pile.set_direction (Math_PI * (1 / 4)) (new_Pile 300 200 [1; 2]%nat))]>
  (<[1%nat := card_at 0 0]> (<[2%nat := card_at 0 0]> (<[3%nat := card_at 10 10]> ∅))).

(** *** The scene of the script

    [allObjects.push(new Stack(600, 200, new Card("as"), ...));
     allObjects.push(new Pile(300, 200, ...fullDeck));
     allObjects.push(new Card("ac", 77.5, 10), ...);]
    Every Card of the Stack and of the Pile is created at (0, 0). *)

Definition alloc (o : Obj) (h : Heap) : ref * Heap :=
  let r := new_ref h in (r, <[r := o]> h).

Fixpoint alloc_cards (names : list string) (h : Heap) : list ref * Heap :=
  match names with
  | [] => ([], h)
  | a :: names' =>
      let '(r, h1) := alloc (OCard (Card.new a img 0 0 half)) h in
      let '(rs, h2) := alloc_cards names' h1 in
      (r :: rs, h2)
  end.

Definition fullDeck : list string :=
  flat_map (fun i => map (fun j => String.app i j) ["h"; "d"; "c"; "s"])
    ["a"; "2"; "3"; "4"; "5"; "6"; "7"; "8"; "9"; "10"; "j"; "q"; "k"].

Definition script_scene : State :=
  let '(cs, h) := alloc_cards ["as"; "ah"; "ac"; "ad"] ∅ in
  let '(stack, h) := alloc (OStack (new_Stack 600 200 cs)) h in
  let '(deck, h) := alloc_cards fullDeck h in
  let '(pile, h) := alloc (OPile (new_Pile 300 200 deck)) h in
  let '(c1, h) := alloc (OCard (Card.new "ac" img (155 / 2) 10 half)) h in
  let '(c2, h) := alloc (OCard (Card.new "ad" img 55 10 half)) h in
  let '(c3, h) := alloc (OCard (Card.new "ah" img (65 / 2) 10 half)) h in
  let '(c4, h) := alloc (OCard (Card.new "as" img 10 10 half)) h in
  mkState h [stack; pile; c1; c2; c3; c4] None None.

(** ** A drawn scene

    What a redraw leaves as it finds: no Card outline pending, no trailing
    outline and no outline index on a member of a Stack, every Pile's top
    Card at the Pile's position and at size 0.5 with no outline pending. *)
Definition drawn_obj (h : Heap) (o : Obj) : Prop :=
  match o with
  | OCard c => Card.outline c = OutlineFalse
  | OStack s =>
      Stack.lastOutline s = false
      /\ forall b, (0 <= b < Z.of_nat (length (Stack.elems s)))%Z ->
                   oi_is b (Stack.outlineIndex s) = false
  | OPile p =>
      match first_card h (Pile.elems p) with
      | Some c => Pile.isOutline p = false /\ Card.x c = Pile.X p
                  /\ Card.y c = Pile.Y p /\ Card.size c = half%dbl
      | None => True
      end
  end.

Definition drawn (s : State) : Prop :=
  forall r, r ∈ allObjects s -> exists o, heap s !! r = Some o /\ drawn_obj (heap s) o.

(** The same for one entry [r] of the registry. *)
Definition settled (h : Heap) (r : ref) : Prop :=
  exists o, h !! r = Some o /\ drawn_obj h o.

(** [two_cards] with a session open on Card [0]. *)
Definition pressed : State :=
  default two_cards (mousedown (press 20 20 1000) two_cards).

(** ** Shapes of the results of an extraction *)

(** The Card [m] a group collapses into: face, direction and position
    written from the group. *)
Definition collapsed (fl : bool) (dir x0 y0 : double) (mc : Card.t) : Card.t :=
  Card.set_y y0 (Card.set_x x0 (Card.set_direction dir (Card.set_flipped fl mc))).

(** Where the [switch] puts the extracted Card, from the anchor [(ax, ay)]
    and the offset [off]. *)
Definition fan_position (q : Quarter) (ax ay off : double) : double * double :=
  (pick q (ax + off, ay) (ax, ay + off) (ax - off, ay) (ax, ay - off))%dbl.

(** The Card extracted from a Stack: face and direction of the Stack, then
    the position, then the direction once more. *)
Definition extracted (fl : bool) (dir : double) (xy : double * double) (cc : Card.t) : Card.t :=
  Card.set_direction dir
    (Card.set_y xy.2 (Card.set_x xy.1 (Card.set_direction dir (Card.set_flipped fl cc)))).


(** A Pile at (300, 200) over the Cards [1] (top) and [2], already drawn. *)
Definition pile_of_two : State :=
  mkState (<[0%nat := OPile (new_Pile 300 200 [1; 2]%nat)]>
           (<[1%nat := card_at 300 200]> (<[2%nat := card_at 0 0]> ∅)))
          [0%nat] None None.

(** The session a press at (310, 210) opens on [pile_of_two]. *)
Definition pile_session : Dragging.t :=
  Dragging.mk KPile 0%nat 310 210 0 false None None false 0 None None.

Definition pile_pressed : State :=
  mkState (heap pile_of_two) [0%nat] (Some pile_session) None.

(** ** What a redraw keeps

    [redrawn o o']: [o'] is [o] up to the fields the [draw] methods write:
    position, size and outline of a Card, the outline fields of a Stack
    (its trailing outline is only ever reset), [isOutline] of a Pile. *)
Definition redrawn (o o' : Obj) : Prop :=
  match o, o' with
  | OCard c, OCard c' =>
      Card.direction c' = Card.direction c /\ Card.flipped c' = Card.flipped c
      /\ Card.num c' = Card.num c /\ Card.suit c' = Card.suit c
      /\ Card.image c' = Card.image c
  | OStack s, OStack s' =>
      Stack.elems s' = Stack.elems s /\ Stack.X s' = Stack.X s /\ Stack.Y s' = Stack.Y s
      /\ Stack.flipped s' = Stack.flipped s /\ Stack.direction s' = Stack.direction s
      /\ (Stack.lastOutline s' = true -> Stack.lastOutline s = true)
  | OPile p, OPile p' =>
      Pile.elems p' = Pile.elems p /\ Pile.X p' = Pile.X p /\ Pile.Y p' = Pile.Y p
      /\ Pile.flipped p' = Pile.flipped p /\ Pile.direction p' = Pile.direction p
  | _, _ => False
  end.

Definition heap_redrawn (h h' : Heap) : Prop :=
  forall r, option_Forall2 redrawn (h !! r) (h' !! r).

(** [o] is a group of class [k] over the Cards [l], at [(x0, y0)], with face
    [fl] and direction [dir]. *)
Definition is_group_of (o : Obj) (k : Kind) (l : list ref) (x0 y0 : double)
    (fl : bool) (dir : double) : Prop :=
  kind_of o = k /\ k <> KCard /\ get_elems o = Some l
  /\ get_x o = x0 /\ get_y o = y0 /\ get_flipped o = fl /\ get_direction o = dir.

(** Two Cards on top of [two_cards]' positions: Card [0] was dragged so that
    it lies 15 pixels right of Card [1]; both have the default scale 0.5. *)
Definition dropped_at_15 : State :=
  mkState (<[0%nat := card_at 315 10]> (<[1%nat := card_at 300 10]> ∅))
          [0; 1]%nat
          (Some (Dragging.mk KCard 0%nat 325 20 1000 false None None true 0
                   (Some 1%Z) (Some 1%nat)))
          None.

(** ** What a move keeps of an object it does not take apart

    Class, position, face, direction and elements: everything but the
    preview fields and what a redraw writes into a Card. *)
Definition same_place (o o' : Obj) : Prop :=
  kind_of o' = kind_of o /\ get_x o' = get_x o /\ get_y o' = get_y o
  /\ get_flipped o' = get_flipped o /\ get_direction o' = get_direction o
  /\ get_elems o' = get_elems o.

(** ** Runs of the handlers *)

Inductive Event :=
| MouseDown (e : Ev.t)
| MouseMove (e : Ev.t)
| MouseUp.

Definition handle (ev : Event) (s : State) : option State :=
  match ev with
  | MouseDown e => mousedown e s
  | MouseMove e => mousemove e s
  | MouseUp => mouseup s
  end.

(** The states the handlers can reach from a scene with no session open. *)
Inductive reachable : State -> Prop :=
| reachable_idle (s : State) : dragging s = None -> reachable s
| reachable_step (s s' : State) (ev : Event) :
    reachable s -> handle ev s = Some s' -> reachable s'.

(** The target of an open session is the entry at registry index 0. *)
Definition target_on_top (s : State) : Prop :=
  forall d, dragging s = Some d -> allObjects s !! 0%nat = Some (Dragging.object d).

(** The first element of the object at [r], when it is a group. *)
Definition first_member (h : Heap) (r : ref) : option ref :=
  o ← h !! r; l ← get_elems o; head l.

(** ** Ownership

    The Cards an entry [r] of the registry stands for: itself when it is a
    Card, its elements when it is a group. *)
Definition owned (h : Heap) (r : ref) : list ref :=
  match h !! r with
  | Some (OCard _) => [r]
  | Some (OStack s) => Stack.elems s
  | Some (OPile p) => Pile.elems p
  | None => []
  end.

Definition cards_in (h : Heap) (l : list ref) : list ref := l ≫= owned h.

Definition cards_of (s : State) : list ref := cards_in (heap s) (allObjects s).

Definition is_card (h : Heap) (r : ref) : Prop := exists c, h !! r = Some (OCard c).

(** Every entity is in the registry once and is a live object; everything a
    registry entry stands for is a Card; every Card is a lone entry or an
    element of one group, once. *)
Record registry_ok (h : Heap) (l : list ref) : Prop := mk_registry_ok {
  reg_nodup : NoDup l;
  reg_live : forall r, r ∈ l -> is_Some (h !! r);
  reg_members : forall r, r ∈ cards_in h l -> is_card h r;
  reg_cards : NoDup (cards_in h l)
}.

(** Class, elements and trailing outline of an object: what the invariant
    reads. *)
Definition trailing (o : Obj) : bool :=
  match o with OStack s => Stack.lastOutline s | _ => false end.

Definition kept (o o' : Obj) : Prop :=
  kind_of o' = kind_of o /\ get_elems o' = get_elems o /\ trailing o' = trailing o.

Definition heap_kept (h h' : Heap) : Prop :=
  forall r, option_Forall2 kept (h !! r) (h' !! r).

(** The same with class and elements only. *)
Definition shaped (o o' : Obj) : Prop :=
  kind_of o' = kind_of o /\ get_elems o' = get_elems o.

Definition heap_shaped (h h' : Heap) : Prop :=
  forall r, option_Forall2 shaped (h !! r) (h' !! r).

(** No Stack has a trailing outline pending. *)
Definition no_trailing (h : Heap) : Prop :=
  forall r o, h !! r = Some o -> trailing o = false.

(** What the first move of a session still needs from [mousedown]: on a
    Stack, a direction the [switch] knows and the index [indexOf] returned,
    an index of the Stack or -1. *)
Definition pending_ok (h : Heap) (d : Dragging.t) : Prop :=
  match Dragging.type d with
  | KCard => True
  | KStack =>
      exists st z, h !! Dragging.object d = Some (OStack st)
        /\ Dragging.specCardIndex d = Some z
        /\ (-1 <= z < Z.of_nat (length (Stack.elems st)))%Z
        /\ Stack.elems st <> []
        /\ supported (Stack.direction st)
  | KPile =>
      exists p, h !! Dragging.object d = Some (OPile p) /\ Pile.elems p <> []
  end.

(** The session, when one is open: its target is on top of the registry and
    has the class the session has stored; before the first move of a single
    click the press-time data are in range; a hover record belongs to a
    session on a Card and points at another entry of the registry. *)
Definition session_ok (s : State) : Prop :=
  forall d, dragging s = Some d ->
    allObjects s !! 0%nat = Some (Dragging.object d)
    /\ (exists o, heap s !! Dragging.object d = Some o /\ kind_of o = Dragging.type d)
    /\ (Dragging.draggedYet d = false -> Dragging.doubleClick d = false ->
        pending_ok (heap s) d)
    /\ (forall ov, Dragging.over d = Some ov ->
          Dragging.type d = KCard /\ ov <> Dragging.object d
          /\ exists i, Dragging.overIndex d = Some (Z.of_nat i)
                       /\ allObjects s !! i = Some ov).

Record inv (s : State) : Prop := mk_inv {
  inv_registry : registry_ok (heap s) (allObjects s);
  inv_session : session_ok s;
  inv_trailing : no_trailing (heap s)
}.

(** A redraw of the entries [l] goes through: each is a live object, and a
    Stack with a trailing outline pending has a first Card to size it. *)
Definition tick_safe (h : Heap) (l : list ref) : Prop :=
  forall r, r ∈ l ->
    is_Some (h !! r)
    /\ forall st, h !! r = Some (OStack st) -> Stack.lastOutline st = true ->
                  is_Some (first_card h (Stack.elems st)).

(** What holds between the steps of [mousemove], started in [s0]: the
    registry is sound and stands for the same Cards, no trailing outline is
    pending, the session is sound and has seen its first move. *)
Definition moving (s0 s1 : State) : Prop :=
  registry_ok (heap s1) (allObjects s1)
  /\ cards_of s1 ≡ₚ cards_of s0
  /\ no_trailing (heap s1)
  /\ session_ok s1
  /\ exists d1, dragging s1 = Some d1 /\ Dragging.draggedYet d1 = true.

(** A check of [registry_ok] and [no_trailing] that computes, for scenes
    given in full. *)
Definition is_card_b (h : Heap) (r : ref) : bool :=
  match h !! r with Some (OCard _) => true | _ => false end.

Definition registry_ok_b (h : Heap) (l : list ref) : bool :=
  bool_decide (NoDup l)
  && forallb (fun r => bool_decide (is_Some (h !! r))) l
  && forallb (is_card_b h) (cards_in h l)
  && bool_decide (NoDup (cards_in h l)).

Definition no_trailing_b (h : Heap) : bool :=
  forallb (fun ro => negb (trailing ro.2)) (map_to_list h).

(* ================================================================= *)
(** * Properties *)

(** ** Comparisons of doubles *)

Lemma SFcompare_antisym (a b : double) : SFcompare b a = CompOpp <$> SFcompare a b.
Proof.
  destruct a as [sa|sa| |sa ma ea], b as [sb|sb| |sb mb eb]; simpl;
    try reflexivity; try (destruct sa; reflexivity); try (destruct sb; reflexivity);
    try (destruct sa, sb; reflexivity).
  rewrite (Z.compare_antisym ea eb).
  change (Pos.compare_cont Eq mb ma) with (Pos.compare mb ma).
  change (Pos.compare_cont Eq ma mb) with (Pos.compare ma mb).
  rewrite (Pos.compare_antisym ma mb).
  destruct sa, sb; simpl; try reflexivity;
    destruct (ea ?= eb)%Z; simpl; try reflexivity;
    destruct (ma ?= mb)%positive; reflexivity.
Qed.

(** [a <= b] excludes [b < a], also when an operand is [NaN]. *)
Lemma fleb_not_fltb (a b : double) : fleb a b = true -> fltb b a = false.
Proof.
  unfold fleb, fltb, SFleb, SFltb. rewrite (SFcompare_antisym a b).
  by destruct (SFcompare a b) as [[]|].
Qed.

Lemma fltb_not_fleb (a b : double) : fltb a b = true -> fleb b a = false.
Proof.
  unfold fleb, fltb, SFleb, SFltb. rewrite (SFcompare_antisym a b).
  by destruct (SFcompare a b) as [[]|].
Qed.

Lemma fltb_fleb (a b : double) : fltb a b = true -> fleb a b = true.
Proof. unfold fleb, fltb, SFleb, SFltb. by destruct (SFcompare a b) as [[]|]. Qed.

(** [===] against a finite constant holds of that constant only, against a
    zero of the two zeros only. *)
Lemma feqb_finite (d : double) (s : bool) (m : positive) (e : Z) :
  feqb d (S754_finite s m e) = true -> d = S754_finite s m e.
Proof.
  unfold feqb, SFeqb. destruct d as [s'|s'| |s' m' e']; simpl; try done;
    try (by destruct s'); try (by destruct s).
  destruct s', s; try done.
  - destruct (e' ?= e)%Z eqn:E; try done. apply Z.compare_eq in E as ->.
    change (Pos.compare_cont Eq m' m) with (Pos.compare m' m).
    destruct (m' ?= m)%positive eqn:E'; try done. by apply Pos.compare_eq in E' as ->.
  - destruct (e' ?= e)%Z eqn:E; try done. apply Z.compare_eq in E as ->.
    change (Pos.compare_cont Eq m' m) with (Pos.compare m' m).
    destruct (m' ?= m)%positive eqn:E'; try done. by apply Pos.compare_eq in E' as ->.
Qed.


Lemma feqb_zero (d : double) (s : bool) :
  feqb d (S754_zero s) = true -> exists s', d = S754_zero s'.
Proof.
  unfold feqb, SFeqb. destruct d as [s'|s'| |s' m' e']; simpl; try done; eauto;
    by destruct s'.
Qed.

(** ** Directions *)

Lemma radians_finite (q : Quarter) :
  q <> Deg0 -> exists m e, radians q = S754_finite false m e.
Proof. destruct q; [done|..]; intros _; eexists _, _; vm_compute; reflexivity. Qed.

Lemma switch_direction_radians {A} (q : Quarter) (d : double) (c0 c90 c180 c270 : A) :
  (d == radians q)%dbl ->
  switch_direction d c0 c90 c180 c270 = Some (pick q c0 c90 c180 c270).
Proof.
  intros Hd. assert (Hq : q = Deg0 \/ q <> Deg0) by (destruct q; auto).
  destruct Hq as [->|Hq].
  - apply feqb_zero in Hd as [s' ->]. by destruct s'.
  - destruct (radians_finite q Hq) as (m & e & Hr). rewrite Hr in Hd.
    apply feqb_finite in Hd. rewrite <- Hr in Hd. subst d.
    destruct q; [done|..]; reflexivity.
Qed.

Lemma switch_direction_supported {A} (d : double) (c0 c90 c180 c270 : A) :
  is_Some (switch_direction d c0 c90 c180 c270) <-> supported d.
Proof.
  unfold supported. split.
  - intros [v Hv]. unfold switch_direction in Hv.
    destruct (feqb d 0) eqn:E0; [by left|].
    destruct (feqb d (Math_PI * half)) eqn:E1; [right; by left|].
    destruct (feqb d Math_PI) eqn:E2; [right; right; by left|].
    destruct (feqb d (Math_PI * three_halves)) eqn:E3; [right; right; by right|].
    discriminate.
  - intros [H|[H|[H|H]]].
    + rewrite (switch_direction_radians Deg0) by exact H. eauto.
    + rewrite (switch_direction_radians Deg90) by exact H. eauto.
    + rewrite (switch_direction_radians Deg180) by exact H. eauto.
    + rewrite (switch_direction_radians Deg270) by exact H. eauto.
Qed.

Lemma supported_quarter (d : double) : supported d <-> exists q, (d == radians q)%dbl.
Proof.
  unfold supported. split.
  - intros [H|[H|[H|H]]]; [by exists Deg0|by exists Deg90|by exists Deg180|by exists Deg270].
  - intros [[] H]; simpl in H; tauto.
Qed.

(** ** Hit test against the corner table *)

Lemma le_u_Some (a b : double) : le_u a (Some b) = true <-> (a <= b)%dbl.
Proof. reflexivity. Qed.

Lemma ge_u_Some (a b : double) : ge_u a (Some b) = true <-> (b <= a)%dbl.
Proof. reflexivity. Qed.

Ltac bool_to_prop := rewrite ?andb_true_iff, ?le_u_Some, ?ge_u_Some.

(** C4.  For each quarter turn and every point, the corner getters of a Card,
    a Stack or a Pile are the corner of the table, and [isIn] returns a
    boolean that is [true] exactly when the point lies between the anchor
    and that corner, with the table's ascending/descending ranges. *)
Theorem isIn_agrees_with_corner_table
    (h : Heap) (o : Obj) (q : Quarter) (w ht px py : double) :
  (get_direction o == radians q)%dbl ->
  obj_width h o = Some w ->
  obj_height h o = Some ht ->
  obj_cornerX h o = Some (spec_corner q (get_x o) (get_y o) w ht).1
  /\ obj_cornerY h o = Some (spec_corner q (get_x o) (get_y o) w ht).2
  /\ exists b, obj_isIn h o px py = Some b
               /\ (b = true <-> spec_inside q (get_x o) (get_y o) w ht px py).
Proof.
  intros Hd Hw Hh.
  destruct o as [c|s|p]; simpl in *.
  - injection Hw as <-. injection Hh as <-.
    unfold Card.isIn, Card.cornerX, Card.cornerY.
    rewrite !(switch_direction_radians q) by exact Hd.
    destruct q; simpl; (split; [reflexivity|split; [reflexivity|]]);
      eexists; (split; [reflexivity|]); unfold spec_inside; simpl;
      bool_to_prop; tauto.
  - unfold Stack_isIn, Stack_cornerX, Stack_cornerY.
    rewrite !(switch_direction_radians q) by exact Hd. rewrite Hw, Hh.
    destruct q; simpl; (split; [reflexivity|split; [reflexivity|]]);
      eexists; (split; [reflexivity|]); unfold spec_inside; simpl;
      bool_to_prop; tauto.
  - unfold Pile_isIn, Pile_cornerX, Pile_cornerY.
    rewrite !(switch_direction_radians q) by exact Hd. rewrite Hw, Hh.
    destruct q; simpl; (split; [reflexivity|split; [reflexivity|]]);
      eexists; (split; [reflexivity|]); unfold spec_inside; simpl;
      bool_to_prop; tauto.
Qed.

(** A Card turned by a quarter, and a Card at x = 0.1 of width 50: the
    point at x = 50.1 is inside, since 0.1 + 50 is 50.1 in double
    arithmetic. *)
Lemma isIn_agrees_with_corner_table_witness :
  let c := Card.set_direction (radians Deg90)
             (Card.new "as" (mkImage 100 140) 50 10 half) in
  let c' := Card.new "as" (mkImage 100 140) (1 / 10) 0 half in
  (get_direction (OCard c) == radians Deg90)%dbl
  /\ Card.cornerX c = Some (50 - Card.height c)%dbl
  /\ (exists b, Card.isIn c 0 20 = Some b
                /\ (b = true <->
                    spec_inside Deg90 50 10 (Card.width c) (Card.height c) 0 20))
  /\ Card.isIn c' (501 / 10) 0 = Some true.
Proof.
  intros c c'.
  destruct (isIn_agrees_with_corner_table ∅ (OCard c) Deg90
              (Card.width c) (Card.height c) 0 20) as (Hx & _ & Hin);
    [reflexivity | reflexivity | reflexivity |].
  destruct (isIn_agrees_with_corner_table ∅ (OCard c') Deg0
              (Card.width c') (Card.height c') (501 / 10) 0) as (_ & _ & b & Hb & Hiff);
    [reflexivity | reflexivity | reflexivity |].
  split; [reflexivity | split; [exact Hx | split; [exact Hin|]]].
  assert (Hb' : b = true) by (apply Hiff; vm_compute; tauto).
  rewrite <- Hb'. exact Hb.
Defined.

(** A group without a first Card has no width: every comparison against its
    corner fails and [isIn] is [false] in each supported direction. *)
Lemma isIn_empty_group (h : Heap) (o : Obj) (q : Quarter) (px py : double) :
  (get_direction o == radians q)%dbl ->
  obj_width h o = None ->
  obj_isIn h o px py = Some false.
Proof.
  intros Hd Hw. destruct o as [c|s|p]; simpl in *; [discriminate| |].
  - unfold Stack_isIn, Stack_cornerX, Stack_cornerY.
    rewrite !(switch_direction_radians q) by exact Hd.
    unfold Stack_width, Stack_height in *.
    destruct (first_card h (Stack.elems s)); [discriminate|].
    destruct q; simpl; rewrite ?andb_false_r; reflexivity.
  - unfold Pile_isIn, Pile_cornerX, Pile_cornerY.
    rewrite !(switch_direction_radians q) by exact Hd.
    unfold Pile_width, Pile_height in *.
    destruct (first_card h (Pile.elems p)); [discriminate|].
    destruct q; simpl; rewrite ?andb_false_r; reflexivity.
Qed.

(** ** [getSpecCard] *)

Lemma Stack_fanIndex_radians (s : Stack.t) (q : Quarter) (px py : double) :
  (Stack.direction s == radians q)%dbl ->
  Stack_fanIndex s px py
  = Some (Math_floor (axis_distance q (Stack.X s) (Stack.Y s) px py / spacing)).
Proof.
  intros Hd. unfold Stack_fanIndex.
  rewrite (switch_direction_radians q) by exact Hd. by destruct q.
Qed.

(** C7.  The fan index is the floor of the axis distance over 22.5, both
    taken in double arithmetic; the scrubbed form returns [length - 1] for
    every index at or beyond the length (and the index itself below it); the
    raw form returns the index unchanged; the default form returns the
    element at the scrubbed index. *)
Theorem getSpecCard_index (h : Heap) (s : Stack.t) (q : Quarter) (px py : double) :
  (Stack.direction s == radians q)%dbl ->
  let i := Math_floor (axis_distance q (Stack.X s) (Stack.Y s) px py / spacing) in
  let n := length (Stack.elems s) in
  Stack_getSpecCard h s px py true false false = SpecIndex (Some i)
  /\ Stack_getSpecCard h s px py true true false
     = SpecIndex (Some (if fltb i (num_of_nat n) then i else num_pred n))
  /\ ((num_of_nat n <= i)%dbl ->
      Stack_getSpecCard h s px py true true false = SpecIndex (Some (num_pred n)))
  /\ Stack_getSpecCard h s px py false true false
     = SpecCard (js_get_num (Stack.elems s)
                   (if fltb i (num_of_nat n) then i else num_pred n)).
Proof.
  intros Hd i n. unfold Stack_getSpecCard. simpl.
  rewrite (Stack_fanIndex_radians s q) by exact Hd. fold i. simpl. fold n.
  repeat split; try reflexivity.
  intros Hge. by rewrite (fleb_not_fltb _ _ Hge).
Qed.

(** On a Stack at (600, 200): the point 100 to the right has raw index 4,
    scrubbed to 2; the point 30 to the right has index 1.  On a Stack at
    x = 0.2 the point x = 22.7 has index 1: the difference is 22.5 in
    double arithmetic. *)
Lemma getSpecCard_index_witness :
  let s := new_Stack 600 200 [1; 2; 3]%nat in
  let s' := new_Stack (2 / 10) 0 [1; 2; 3]%nat in
  Stack_getSpecCard ∅ s 700 210 true false false = SpecIndex (Some 4%dbl)
  /\ Stack_getSpecCard ∅ s 700 210 true true false = SpecIndex (Some 2%dbl)
  /\ Stack_getSpecCard ∅ s 630 210 true true false = SpecIndex (Some 1%dbl)
  /\ Stack_getSpecCard ∅ s' (227 / 10) 0 true false false = SpecIndex (Some 1%dbl)
  /\ Stack_getSpecCard ∅ s 630 210 false true false = SpecCard (Some 2%nat).
Proof.
  intros s s'.
  destruct (getSpecCard_index ∅ s Deg0 700 210) as (H1 & H2 & _); [reflexivity|].
  destruct (getSpecCard_index ∅ s Deg0 630 210) as (_ & H3 & _ & H5); [reflexivity|].
  destruct (getSpecCard_index ∅ s' Deg0 (227 / 10) 0) as (H4 & _); [reflexivity|].
  split; [exact H1 | split; [exact H2 | split; [exact H3 | split; [exact H4 | exact H5]]]].
Defined.

(** ** [tick] keeps the registry and the session *)

Lemma tick_fields (s s' : State) :
  tick s = Some s' ->
  allObjects s' = allObjects s /\ dragging s' = dragging s
  /\ lastDragged s' = lastDragged s.
Proof.
  unfold tick. intros H.
  destruct (draw_all _ _ _) as [h'|]; simpl in H; [|discriminate].
  by injection H as <-.
Qed.

(** ** Double click *)


Global Arguments js_splice : simpl never.
Global Arguments new_ref : simpl never.




(** ** Rotation is a plain field *)

Lemma switch_direction_unsupported {A} (d : double) (c0 c90 c180 c270 : A) :
  ~ supported d -> switch_direction d c0 c90 c180 c270 = None.
Proof.
  intros Hn. destruct (switch_direction d c0 c90 c180 c270) eqn:E; [|reflexivity].
  exfalso. apply Hn. apply (switch_direction_supported d c0 c90 c180 c270). eauto.
Qed.

Lemma get_put_direction (v : double) (o : Obj) : get_direction (put_direction v o) = v.
Proof. by destruct o. Qed.

(** C8, as the code has it.  Writing [direction] checks nothing: the value
    is stored whatever it is.  A direction outside the four quarter turns is
    met by the geometry as a [switch] without a matching case: the corner
    getters, [isIn] and the raw fan index are [undefined], so the object is
    not hit by any hit test. *)
Theorem rotation_unchecked (h : Heap) (o : Obj) (v px py : double) :
  ~ supported v ->
  let o' := put_direction v o in
  get_direction o' = v
  /\ obj_cornerX h o' = None
  /\ obj_cornerY h o' = None
  /\ obj_isIn h o' px py = None
  /\ (forall r, h !! r = Some o' -> isIn_ref h px py r = false)
  /\ (forall s, o' = OStack s ->
        Stack_getSpecCard h s px py true false false = SpecIndex None).
Proof.
  intros Hn o'. assert (Hd : get_direction o' = v) by apply get_put_direction.
  assert (Hin : obj_isIn h o' px py = None).
  { destruct o' as [c|s|p]; simpl in *; subst v;
      unfold Card.isIn, Stack_isIn, Pile_isIn; by rewrite switch_direction_unsupported. }
  repeat split; try done.
  - destruct o' as [c|s|p]; simpl in *; subst v;
      unfold Card.cornerX, Stack_cornerX, Pile_cornerX;
      by rewrite switch_direction_unsupported.
  - destruct o' as [c|s|p]; simpl in *; subst v;
      unfold Card.cornerY, Stack_cornerY, Pile_cornerY;
      by rewrite switch_direction_unsupported.
  - intros r Hr. unfold isIn_ref. by rewrite Hr, Hin.
  - intros s ->. simpl in Hd. subst v. unfold Stack_getSpecCard, Stack_fanIndex. simpl.
    by rewrite switch_direction_unsupported.
Qed.

Lemma eighth_turn_unsupported : ~ supported (Math_PI * (1 / 4)).
Proof. intros [H|[H|[H|H]]]; vm_compute in H; discriminate. Qed.

Lemma rotation_unchecked_witness :
  let o' := put_direction (Math_PI * (1 / 4)) (card_at 10 10) in
  ~ supported (Math_PI * (1 / 4))
  /\ get_direction o' = (Math_PI * (1 / 4))%dbl
  /\ obj_isIn ∅ o' 20 20 = None.
Proof.
  intros o'.
  destruct (rotation_unchecked ∅ (card_at 10 10) (Math_PI * (1 / 4)) 20 20
              eighth_turn_unsupported) as (H1 & _ & _ & H2 & _).
  split; [exact eighth_turn_unsupported | split; [exact H1 | exact H2]].
Defined.

(** Against C8 as the specification words it: the assignment
    [allObjects[0].direction = allObjects[1].direction] of the handlers copies
    an eighth of a turn from the Pile [0] onto the Card [3] without rejecting
    it, and the Card's [isIn] then runs on that direction (and returns
    [undefined]). *)
Lemma rotation_not_rejected :
  exists h' c,
    copy_direction tilted_store 3%nat 0%nat = Some h'
    /\ h' !! 3%nat = Some (OCard c)
    /\ Card.direction c = (Math_PI * (1 / 4))%dbl
    /\ ~ supported (Card.direction c)
    /\ Card.isIn c 20 20 = None.
Proof.
  eexists _, _. split; [reflexivity|]. split; [vm_compute; reflexivity|].
  split; [reflexivity|]. split; [exact eighth_turn_unsupported | reflexivity].
Qed.

(** ** A drawn scene is redrawn as it is *)

Lemma draw_Stack_loop_idle (l : list ref) (b : Z) (oi : OutlineIndex) :
  (forall b', (b <= b' < b + Z.of_nat (length l))%Z -> oi_is b' oi = false) ->
  draw_Stack_loop None l b oi = oi.
Proof.
  revert b. induction l as [|a l IH]; intros b Hoi; [reflexivity|].
  simpl. rewrite orb_false_r.
  rewrite (Hoi b) by (simpl; lia). apply IH. intros b' Hb'. apply Hoi. simpl. lia.
Qed.

Lemma draw_ref_drawn (h : Heap) (r : ref) (o : Obj) :
  h !! r = Some o -> drawn_obj h o -> draw_ref None h r = Some h.
Proof.
  intros Hr Hd. unfold draw_ref. rewrite Hr. simpl.
  destruct o as [c|s|p]; simpl in Hd.
  - unfold draw_Card. by rewrite Hd.
  - destruct Hd as [Hlast Hoi]. unfold draw_Stack. rewrite Hlast.
    rewrite draw_Stack_loop_idle by (intros b Hb; apply Hoi; lia).
    f_equal. apply insert_id. rewrite Hr. by destruct s.
  - unfold draw_Pile. destruct (first_card h (Pile.elems p)) as [c|] eqn:Hc; [|done].
    destruct Hd as (Hout & Hx & Hy & Hsz). rewrite Hout.
    unfold first_card in Hc. unfold alter_first_card.
    destruct (Pile.elems p) as [|r0 l]; [done|].
    destruct (h !! r0) as [[c0| |]|] eqn:Hr0; try done.
    injection Hc as ->. f_equal. apply insert_id. rewrite Hr0.
    destruct c; simpl in *. by subst.
Qed.

Lemma draw_all_drawn (h : Heap) (l : list ref) :
  (forall r, r ∈ l -> exists o, h !! r = Some o /\ drawn_obj h o) ->
  draw_all None l h = Some h.
Proof.
  induction l as [|r l IH]; intros Hl; [reflexivity|]. simpl.
  destruct (Hl r) as (o & Hr & Hd); [by left|].
  rewrite (draw_ref_drawn h r o Hr Hd). simpl.
  apply IH. intros r' Hr'. apply Hl. by right.
Qed.

Lemma tick_drawn (s : State) : dragging s = None -> drawn s -> tick s = Some s.
Proof.
  intros Hidle Hd. unfold tick. rewrite Hidle.
  rewrite draw_all_drawn; [by destruct s|].
  intros r Hr. apply Hd. by apply elem_of_reverse.
Qed.

(** ** Array operations at natural indices *)

Lemma js_splice_nat {A} (i n : nat) (items l : list A) :
  i <= length l ->
  js_splice (Z.of_nat i) n items l
  = (take n (drop i l), take i l ++ items ++ drop (i + n) l).
Proof.
  intros Hi. unfold js_splice.
  destruct (Z.ltb_spec (Z.of_nat i) 0); [lia|].
  replace (Z.to_nat (Z.of_nat i `min` Z.of_nat (length l))) with i by lia.
  reflexivity.
Qed.

Lemma js_splice_delete {A} (i : nat) (l : list A) (a : A) :
  l !! i = Some a ->
  js_splice (Z.of_nat i) 1 [] l = ([a], delete i l).
Proof.
  intros Hi. rewrite js_splice_nat by (apply lookup_lt_Some in Hi; lia).
  simpl. rewrite delete_take_drop. f_equal; [|by rewrite Nat.add_1_r].
  rewrite <- (take_drop_middle l i a Hi) at 1.
  rewrite drop_app_length'; [done|].
  rewrite length_take. apply lookup_lt_Some in Hi. lia.
Qed.

(** With a start from -1 up to the last index, [splice(start, 1)] takes out
    exactly one element: the last one for -1. *)
Lemma js_splice_one {A} (z : Z) (l : list A) :
  (-1 <= z < Z.of_nat (length l))%Z -> l <> [] ->
  exists i a, l !! i = Some a /\ js_splice z 1 [] l = ([a], delete i l).
Proof.
  intros Hz Hne. destruct (Z.ltb_spec z 0) as [Hneg|Hpos].
  - assert (z = (-1)%Z) as -> by lia.
    assert (Hlen : length l <> 0%nat) by (by destruct l).
    destruct (lookup_lt_is_Some_2 l (length l - 1)) as [a Ha]; [lia|].
    exists (length l - 1)%nat, a. split; [done|].
    rewrite <- (js_splice_delete (length l - 1) l a Ha).
    unfold js_splice.
    change (-1 <? 0)%Z with true. cbv iota.
    destruct (Z.ltb_spec (Z.of_nat (length l - 1)) 0) as [H|H]; [lia|].
    replace (Z.to_nat (Z.max (Z.of_nat (length l) + -1) 0)) with (length l - 1)%nat by lia.
    replace (Z.to_nat (Z.min (Z.of_nat (length l - 1)) (Z.of_nat (length l))))
      with (length l - 1)%nat by lia.
    reflexivity.
  - destruct (lookup_lt_is_Some_2 l (Z.to_nat z)) as [a Ha]; [lia|].
    exists (Z.to_nat z), a. split; [done|].
    rewrite <- (js_splice_delete (Z.to_nat z) l a Ha). by rewrite Z2Nat.id.
Qed.

Lemma js_splice_1 {A} (items l : list A) (a b : A) :
  js_splice 1 1 items (a :: b :: l) = ([b], a :: items ++ l).
Proof.
  rewrite (js_splice_nat 1 1) by (simpl; lia). simpl. by rewrite drop_0.
Qed.

Lemma js_splice_0 {A} (items l : list A) (a : A) :
  js_splice 0 1 items (a :: l) = ([a], items ++ l).
Proof.
  rewrite (js_splice_nat 0 1) by (simpl; lia). simpl. by rewrite drop_0.
Qed.

Lemma js_get_nat {A} (l : list A) (i : nat) : js_get l (Z.of_nat i) = l !! i.
Proof.
  unfold js_get. destruct (Z.ltb_spec (Z.of_nat i) 0); [lia|]. by rewrite Nat2Z.id.
Qed.

(** [simpl] that leaves the array operations folded. *)
Ltac ssimpl := with_strategy opaque [js_splice new_ref] simpl.
Tactic Notation "ssimpl" "in" hyp(H) :=
  with_strategy opaque [js_splice new_ref] (simpl in H).

(** ** Field writes on a Card in the store *)

Lemma copy_flipped_card (h : Heap) (dst src : ref) (c : Card.t) (os : Obj) :
  h !! dst = Some (OCard c) -> h !! src = Some os ->
  copy_flipped h dst src
  = Some (<[dst := OCard (Card.set_flipped (get_flipped os) c)]> h).
Proof. intros Hd Hs. unfold copy_flipped. by rewrite Hd, Hs. Qed.

Lemma copy_direction_card (h : Heap) (dst src : ref) (c : Card.t) (os : Obj) :
  h !! dst = Some (OCard c) -> h !! src = Some os ->
  copy_direction h dst src
  = Some (<[dst := OCard (Card.set_direction (get_direction os) c)]> h).
Proof. intros Hd Hs. unfold copy_direction. by rewrite Hd, Hs. Qed.

Lemma write_x_card (h : Heap) (r : ref) (c : Card.t) (v : double) :
  h !! r = Some (OCard c) ->
  write_x h r v = Some (<[r := OCard (Card.set_x v c)]> h).
Proof. intros Hr. unfold write_x. by rewrite Hr. Qed.

Lemma write_y_card (h : Heap) (r : ref) (c : Card.t) (v : double) :
  h !! r = Some (OCard c) ->
  write_y h r v = Some (<[r := OCard (Card.set_y v c)]> h).
Proof. intros Hr. unfold write_y. by rewrite Hr. Qed.

(** ** The steps of an extraction *)

Lemma collapse_stack_one (h : Heap) (r0 r1 m : ref) (rest : list ref)
    (o1 : Obj) (mc : Card.t) :
  h !! r1 = Some o1 -> get_elems o1 = Some [m] -> h !! m = Some (OCard mc) ->
  collapse_stack h (r0 :: r1 :: rest)
  = Some (<[m := OCard (collapsed (get_flipped o1) (get_direction o1)
                          (get_x o1) (get_y o1) mc)]> h,
          r0 :: m :: rest).
Proof.
  intros H1 Hel Hm. unfold collapse_stack.
  change ((r0 :: r1 :: rest) !! 1%nat) with (Some r1).
  cbn [mbind option_bind]. rewrite H1. cbn [mbind option_bind]. rewrite Hel.
  assert (Hne : m <> r1).
  { intros ->. rewrite H1 in Hm. injection Hm as ->. discriminate. }
  erewrite copy_flipped_card by done. ssimpl.
  erewrite copy_direction_card; [|apply lookup_insert_eq|by rewrite lookup_insert_ne]. ssimpl.
  rewrite insert_insert_eq.
  rewrite (lookup_insert_ne _ m r1) by done. rewrite H1. ssimpl.
  erewrite write_x_card by apply lookup_insert_eq. ssimpl.
  rewrite insert_insert_eq.
  rewrite (lookup_insert_ne _ m r1) by done. rewrite H1. ssimpl.
  erewrite write_y_card by apply lookup_insert_eq. ssimpl.
  rewrite insert_insert_eq, js_splice_1. reflexivity.
Qed.

Lemma collapse_pile_one (h : Heap) (r0 r1 m : ref) (rest : list ref)
    (o1 : Obj) (mc : Card.t) :
  h !! r1 = Some o1 -> get_elems o1 = Some [m] -> h !! m = Some (OCard mc) ->
  collapse_pile h (r0 :: r1 :: rest)
  = Some (<[m := OCard (collapsed (get_flipped o1) (get_direction o1)
                          (get_x o1 - 2)%dbl (get_y o1 - 2)%dbl mc)]> h,
          r0 :: m :: rest).
Proof.
  intros H1 Hel Hm. unfold collapse_pile.
  change ((r0 :: r1 :: rest) !! 1%nat) with (Some r1).
  cbn [mbind option_bind]. rewrite H1. cbn [mbind option_bind]. rewrite Hel.
  assert (Hne : m <> r1).
  { intros ->. rewrite H1 in Hm. injection Hm as ->. discriminate. }
  erewrite copy_flipped_card by done. ssimpl.
  erewrite copy_direction_card; [|apply lookup_insert_eq|by rewrite lookup_insert_ne]. ssimpl.
  rewrite insert_insert_eq.
  rewrite (lookup_insert_ne _ m r1) by done. rewrite H1. ssimpl.
  erewrite write_x_card by apply lookup_insert_eq. ssimpl.
  rewrite insert_insert_eq.
  rewrite (lookup_insert_ne _ m r1) by done. rewrite H1. ssimpl.
  erewrite write_y_card by apply lookup_insert_eq. ssimpl.
  rewrite insert_insert_eq, js_splice_1. reflexivity.
Qed.

Lemma collapse_stack_other (h : Heap) (r0 r1 : ref) (rest : list ref) (o1 : Obj) :
  h !! r1 = Some o1 -> (forall m, get_elems o1 <> Some [m]) ->
  collapse_stack h (r0 :: r1 :: rest) = Some (h, r0 :: r1 :: rest).
Proof.
  intros H1 Hel. unfold collapse_stack. simpl. rewrite H1. simpl.
  destruct (get_elems o1) as [[|m [|]]|] eqn:E; try done. by destruct (Hel m).
Qed.

Lemma collapse_pile_other (h : Heap) (r0 r1 : ref) (rest : list ref) (o1 : Obj) :
  h !! r1 = Some o1 -> (forall m, get_elems o1 <> Some [m]) ->
  collapse_pile h (r0 :: r1 :: rest) = Some (h, r0 :: r1 :: rest).
Proof.
  intros H1 Hel. unfold collapse_pile. simpl. rewrite H1. simpl.
  destruct (get_elems o1) as [[|m [|]]|] eqn:E; try done. by destruct (Hel m).
Qed.

Lemma place_extracted_card (h : Heap) (r0 r1 : ref) (rest : list ref)
    (c0 : Card.t) (o1 : Obj) (q : Quarter) (idx : Z) :
  h !! r0 = Some (OCard c0) -> h !! r1 = Some o1 -> r0 <> r1 ->
  (Card.direction c0 == radians q)%dbl ->
  let xy := fan_position q (get_x o1) (get_y o1) (of_Z idx * spacing)%dbl in
  place_extracted h (r0 :: r1 :: rest) idx
  = Some (<[r0 := OCard (Card.set_y xy.2 (Card.set_x xy.1 c0))]> h).
Proof.
  intros H0 H1 Hne Hd xy. unfold place_extracted. simpl. rewrite H0. simpl.
  rewrite (switch_direction_radians q) by exact Hd.
  destruct q; simpl; rewrite H1; simpl;
    (erewrite write_x_card by done); simpl;
    rewrite (lookup_insert_ne _ r0 r1) by done; rewrite H1; simpl;
    (erewrite write_y_card by apply lookup_insert_eq);
    rewrite insert_insert_eq; reflexivity.
Qed.

(** The state after the first move of a single-clicked Stack whose stored
    index [z] makes [splice] take out the Card [c] at index [i]. *)
Lemma extract_from_stack_result (e : Ev.t) (s : State) (d : Dragging.t)
    (st : Stack.t) (rest : list ref) (z : Z) (i : nat) (c : ref) (cc : Card.t)
    (q : Quarter) :
  allObjects s = Dragging.object d :: rest ->
  heap s !! Dragging.object d = Some (OStack st) ->
  Dragging.specCardIndex d = Some z ->
  js_splice z 1 [] (Stack.elems st) = ([c], delete i (Stack.elems st)) ->
  Stack.elems st !! i = Some c ->
  NoDup (Stack.elems st) ->
  (forall m, m ∈ Stack.elems st -> exists mc, heap s !! m = Some (OCard mc)) ->
  heap s !! c = Some (OCard cc) ->
  (Stack.direction st == radians q)%dbl ->
  let xy := fan_position q (Stack.X st) (Stack.Y st) (of_Z z * spacing)%dbl in
  let cc' := extracted (Stack.flipped st) (Stack.direction st) xy cc in
  let st' := Stack.set_elems (delete i (Stack.elems st)) st in
  exists s1,
    extract_from_stack e s d = Some s1
    /\ heap s1 !! c = Some (OCard cc')
    /\ dragging s1 = Some (retargeted e c)
    /\ lastDragged s1 = lastDragged s
    /\ ((forall m, delete i (Stack.elems st) <> [m]) ->
        allObjects s1 = c :: Dragging.object d :: rest
        /\ heap s1 = <[c := OCard cc']> (<[Dragging.object d := OStack st']> (heap s)))
    /\ (forall m mc, delete i (Stack.elems st) = [m] ->
        heap s !! m = Some (OCard mc) ->
        m <> c
        /\ allObjects s1 = c :: m :: rest
        /\ heap s1 = <[c := OCard cc']>
                       (<[m := OCard (collapsed (Stack.flipped st) (Stack.direction st)
                                        (Stack.X st) (Stack.Y st) mc)]>
                          (<[Dragging.object d := OStack st']> (heap s)))).
Proof.
  intros Hall Hst Hidx Hz Hc Hnd Hmem Hcc Hq xy cc' st'.
  unfold extract_from_stack. rewrite Hidx. ssimpl.
  set (g := Dragging.object d) in *.
  assert (Hcg : c <> g) by (intros ->; congruence).
  rewrite Hst. ssimpl.
  rewrite Hz. ssimpl. rewrite Hall. ssimpl.
  fold st'. set (h0 := <[g := OStack st']> (heap s)).
  assert (H0c : h0 !! c = Some (OCard cc)) by (unfold h0; by rewrite lookup_insert_ne).
  assert (H0g : h0 !! g = Some (OStack st')) by apply lookup_insert_eq.
  erewrite copy_flipped_card by done. ssimpl.
  erewrite copy_direction_card;
    [|apply lookup_insert_eq|by rewrite lookup_insert_ne]. ssimpl.
  rewrite insert_insert_eq.
  set (c1 := Card.set_direction (Stack.direction st) (Card.set_flipped (Stack.flipped st) cc)).
  set (h1 := <[c := OCard c1]> h0).
  assert (H1g : h1 !! g = Some (OStack st')) by (unfold h1; by rewrite lookup_insert_ne).
  assert (Hone : forall m, delete i (Stack.elems st) = [m] ->
            m <> c /\ exists mc, heap s !! m = Some (OCard mc)).
  { intros m Hm.
    assert (Hin : m ∈ delete i (Stack.elems st)) by (rewrite Hm; by left).
    split; [|apply Hmem; by apply (list_elem_of_delete_inv m i)].
    intros ->. rewrite delete_take_drop in Hin.
    rewrite <- (take_drop_middle _ i c Hc) in Hnd.
    apply NoDup_app in Hnd as (_ & Hnd1 & Hnd2). apply NoDup_cons in Hnd2 as [Hnd2 _].
    apply elem_of_app in Hin as [Hin|Hin]; [|done].
    apply (Hnd1 c Hin). by left. }
  destruct (delete i (Stack.elems st)) as [|m [|m' l']] eqn:Hdel.
  - rewrite (collapse_stack_other h1 c g rest (OStack st')); [|done|by (unfold st'; simpl; rewrite ?Hdel)].
    ssimpl.
    rewrite (place_extracted_card h1 c g rest c1 (OStack st') q);
      [|apply lookup_insert_eq|done|done|done].
    ssimpl. erewrite copy_direction_card;
      [|apply lookup_insert_eq|by rewrite lookup_insert_ne]. ssimpl.
    unfold h1. rewrite !insert_insert_eq.
    eexists. split; [reflexivity|]. ssimpl.
    split; [apply lookup_insert_eq|]. split; [done|]. split; [done|].
    split; [done|]. intros; discriminate.
  - destruct (Hone m eq_refl) as [Hmc [mc Hm]].
    assert (Hmg : m <> g) by (intros ->; congruence).
    rewrite (collapse_stack_one h1 c g m rest (OStack st') mc);
      [|done|by (unfold st'; simpl; rewrite ?Hdel)|].
    2:{ unfold h1, h0. by rewrite !lookup_insert_ne. }
    ssimpl.
    set (m2 := collapsed _ _ _ _ mc). set (h2 := <[m := OCard m2]> h1).
    rewrite (place_extracted_card h2 c m rest c1 (OCard m2) q);
      [|unfold h2, h1; rewrite lookup_insert_ne by done; apply lookup_insert_eq
       |apply lookup_insert_eq|done|done].
    ssimpl. erewrite copy_direction_card;
      [|apply lookup_insert_eq|rewrite lookup_insert_ne by done; apply lookup_insert_eq].
    ssimpl. rewrite insert_insert_eq.
    eexists. split; [reflexivity|]. ssimpl.
    split; [apply lookup_insert_eq|]. split; [done|]. split; [done|].
    split; [intros Hn; by destruct (Hn m)|].
    intros m0 mc0 [= <-] Hm0. rewrite Hm in Hm0. injection Hm0 as <-.
    split; [done|]. split; [done|].
    unfold h2, h1. rewrite (insert_insert_ne _ m c) by done.
    rewrite insert_insert_eq. reflexivity.
  - rewrite (collapse_stack_other h1 c g rest (OStack st')); [|done|by (unfold st'; simpl; rewrite ?Hdel)].
    ssimpl.
    rewrite (place_extracted_card h1 c g rest c1 (OStack st') q);
      [|apply lookup_insert_eq|done|done|done].
    ssimpl. erewrite copy_direction_card;
      [|apply lookup_insert_eq|by rewrite lookup_insert_ne]. ssimpl.
    unfold h1. rewrite !insert_insert_eq.
    eexists. split; [reflexivity|]. ssimpl.
    split; [apply lookup_insert_eq|]. split; [done|]. split; [done|].
    split; [done|]. intros; discriminate.
Qed.


(** The state after the first move of a single-clicked Pile whose top Card
    is [c]. *)
Lemma extract_from_pile_result (e : Ev.t) (s : State) (d : Dragging.t)
    (p : Pile.t) (rest l : list ref) (c : ref) (cc : Card.t) :
  allObjects s = Dragging.object d :: rest ->
  heap s !! Dragging.object d = Some (OPile p) ->
  Pile.elems p = c :: l ->
  heap s !! c = Some (OCard cc) ->
  let c1 := Card.set_direction (Pile.direction p) (Card.set_flipped (Pile.flipped p) cc) in
  let p' := Pile.set_elems l p in
  (forall m, l = [m] -> m <> c /\ exists mc, heap s !! m = Some (OCard mc)) ->
  exists s1,
    extract_from_pile e s d = Some s1
    /\ dragging s1 = Some (retargeted e c)
    /\ lastDragged s1 = lastDragged s
    /\ ((forall m, l <> [m]) ->
        allObjects s1 = c :: Dragging.object d :: rest
        /\ heap s1 = <[c := OCard c1]> (<[Dragging.object d := OPile p']> (heap s)))
    /\ (forall m mc, l = [m] -> heap s !! m = Some (OCard mc) ->
        allObjects s1 = c :: m :: rest
        /\ heap s1 = <[m := OCard (collapsed (Pile.flipped p) (Pile.direction p)
                                     (Pile.X p - 2)%dbl (Pile.Y p - 2)%dbl mc)]>
                       (<[c := OCard c1]> (<[Dragging.object d := OPile p']> (heap s)))).
Proof.
  intros Hall Hp Hel Hcc c1 p' Hone.
  unfold extract_from_pile.
  set (g := Dragging.object d) in *.
  assert (Hcg : c <> g) by (intros ->; congruence).
  rewrite Hp. ssimpl. rewrite Hel. ssimpl. rewrite Hall. ssimpl.
  fold p'. set (h0 := <[g := OPile p']> (heap s)).
  assert (H0c : h0 !! c = Some (OCard cc)) by (unfold h0; by rewrite lookup_insert_ne).
  assert (H0g : h0 !! g = Some (OPile p')) by apply lookup_insert_eq.
  erewrite copy_flipped_card by done. ssimpl.
  erewrite copy_direction_card;
    [|apply lookup_insert_eq|by rewrite lookup_insert_ne]. ssimpl.
  rewrite insert_insert_eq. fold c1.
  set (h1 := <[c := OCard c1]> h0).
  assert (H1g : h1 !! g = Some (OPile p')) by (unfold h1; by rewrite lookup_insert_ne).
  destruct l as [|m [|m' l']].
  - rewrite (collapse_pile_other h1 c g rest (OPile p')); [|done|done].
    ssimpl. eexists. split; [reflexivity|]. ssimpl.
    split; [done|]. split; [done|]. split; [done|]. intros; discriminate.
  - destruct (Hone m eq_refl) as [Hmc [mc Hm]].
    assert (Hmg : m <> g) by (intros ->; congruence).
    rewrite (collapse_pile_one h1 c g m rest (OPile p') mc); [|done|done|].
    2:{ unfold h1, h0. by rewrite !lookup_insert_ne. }
    ssimpl. eexists. split; [reflexivity|]. ssimpl.
    split; [done|]. split; [done|].
    split; [intros Hn; by destruct (Hn m)|].
    intros m0 mc0 [= <-] Hm0. rewrite Hm in Hm0. by injection Hm0 as <-.
  - rewrite (collapse_pile_other h1 c g rest (OPile p')); [|done|done].
    ssimpl. eexists. split; [reflexivity|]. ssimpl.
    split; [done|]. split; [done|]. split; [done|]. intros; discriminate.
Qed.

Lemma before_movement_first (e : Ev.t) (s : State) (d : Dragging.t) :
  Dragging.draggedYet d = false ->
  before_movement e s d
  = first_move e (mkState (heap s) (allObjects s)
                    (Some (Dragging.set_xy (Ev.clientX e) (Ev.clientY e) d))
                    (lastDragged s))
      (Dragging.set_xy (Ev.clientX e) (Ev.clientY e) d).
Proof. intros H. unfold before_movement. simpl. by rewrite H. Qed.

Lemma pile_pressed_by_mousedown :
  mousedown (press 310 210 0) pile_of_two = Some pile_pressed.
Proof. vm_compute. reflexivity. Qed.

(** C3, as the code has it.  When the extraction leaves one member [m], the
    group is no longer in the registry: its slot holds the Card [m], which
    carries the group's direction and face.  Out of a Stack the Card is at
    the Stack's position; out of a Pile it is two pixels up and left of the
    Pile's position. *)
Theorem group_collapse (e : Ev.t) (s : State) (d : Dragging.t)
    (rest : list ref) (c m : ref) (cc mc : Card.t) :
  dragging s = Some d ->
  Dragging.doubleClick d = false ->
  Dragging.draggedYet d = false ->
  allObjects s = Dragging.object d :: rest ->
  Dragging.object d ∉ rest ->
  heap s !! c = Some (OCard cc) ->
  heap s !! m = Some (OCard mc) ->
  c <> m ->
  (forall st i q,
      Dragging.type d = KStack ->
      heap s !! Dragging.object d = Some (OStack st) ->
      Dragging.specCardIndex d = Some (Z.of_nat i) ->
      Stack.elems st !! i = Some c ->
      delete i (Stack.elems st) = [m] ->
      (Stack.direction st == radians q)%dbl ->
      exists s1 mc',
        before_movement e s d = Some s1
        /\ allObjects s1 = c :: m :: rest
        /\ (Dragging.object d ∉ allObjects s1)
        /\ heap s1 !! m = Some (OCard mc')
        /\ (Card.x mc', Card.y mc') = (Stack.X st, Stack.Y st)
        /\ Card.direction mc' = Stack.direction st
        /\ Card.flipped mc' = Stack.flipped st)
  /\ (forall p,
      Dragging.type d = KPile ->
      heap s !! Dragging.object d = Some (OPile p) ->
      Pile.elems p = [c; m] ->
      exists s1 mc',
        before_movement e s d = Some s1
        /\ allObjects s1 = c :: m :: rest
        /\ (Dragging.object d ∉ allObjects s1)
        /\ heap s1 !! m = Some (OCard mc')
        /\ (Card.x mc', Card.y mc') = (Pile.X p - 2, Pile.Y p - 2)%dbl
        /\ Card.direction mc' = Pile.direction p
        /\ Card.flipped mc' = Pile.flipped p).
Proof.
  intros Hd Hdc Hdy Hall Hrest Hcc Hmc Hcm.
  assert (Hgone : forall g, g = Dragging.object d ->
            (exists o, heap s !! g = Some o /\ kind_of o <> KCard) ->
            g ∉ c :: m :: rest).
  { intros g -> (o & Ho & Hk) Hin.
    apply elem_of_cons in Hin as [Heq|Hin]; [rewrite Heq, Hcc in Ho; by simplify_eq|].
    apply elem_of_cons in Hin as [Heq|Hin]; [rewrite Heq, Hmc in Ho; by simplify_eq|done]. }
  rewrite before_movement_first by done.
  set (d' := Dragging.set_xy _ _ d). set (s' := mkState _ _ _ _).
  split.
  - intros st i q Hty Hst Hidx Hc Hdel Hq.
    assert (Hperm : Stack.elems st ≡ₚ [c; m]).
    { rewrite (delete_Permutation _ i c Hc). by rewrite Hdel. }
    destruct (extract_from_stack_result e s' d' st rest (Z.of_nat i) i c cc q)
      as (s1 & Hs1 & _ & Hd1 & _ & _ & Hone); try done.
    { by apply js_splice_delete. }
    { rewrite Hperm. apply NoDup_cons. split; [|apply NoDup_singleton].
      intros Hx. by apply list_elem_of_singleton in Hx. }
    { intros x Hx. rewrite Hperm in Hx.
      apply elem_of_cons in Hx as [->|Hx]; [eauto|].
      apply list_elem_of_singleton in Hx as ->. eauto. }
    destruct (Hone m mc Hdel Hmc) as (_ & Hall1 & Hh1).
    unfold first_move. change (Dragging.type d') with (Dragging.type d).
    change (Dragging.doubleClick d') with (Dragging.doubleClick d).
    rewrite Hty, Hdc, Hs1. ssimpl.
    eexists _, _. split; [reflexivity|]. ssimpl.
    split; [exact Hall1|]. split; [rewrite Hall1; apply Hgone; eauto|].
    rewrite Hh1. rewrite lookup_insert_ne by done.
    split; [apply lookup_insert_eq|]. done.
  - intros p Hty Hp Hel.
    destruct (extract_from_pile_result e s' d' p rest [m] c cc)
      as (s1 & Hs1 & Hd1 & _ & _ & Hone); try done.
    { intros x [= <-]. split; [done|eauto]. }
    destruct (Hone m mc eq_refl Hmc) as (Hall1 & Hh1).
    unfold first_move. change (Dragging.type d') with (Dragging.type d).
    change (Dragging.doubleClick d') with (Dragging.doubleClick d).
    rewrite Hty, Hdc, Hs1. ssimpl.
    eexists _, _. split; [reflexivity|]. ssimpl.
    split; [exact Hall1|]. split; [rewrite Hall1; apply Hgone; eauto|].
    rewrite Hh1. split; [apply lookup_insert_eq|]. done.
Qed.

Lemma group_collapse_witness :
  exists s1 mc',
    before_movement (move 311 211 1 1 5) pile_pressed pile_session = Some s1
    /\ allObjects s1 = [1; 2]%nat
    /\ heap s1 !! 2%nat = Some (OCard mc')
    /\ (Card.x mc', Card.y mc') = (300 - 2, 200 - 2)%dbl.
Proof.
  destruct (group_collapse (move 311 211 1 1 5) pile_pressed pile_session [] 1%nat 2%nat
              (Card.new "as" img 300 200 half) (Card.new "as" img 0 0 half))
    as [_ Hpile]; try reflexivity; try done.
  { apply not_elem_of_nil. }
  destruct (Hpile (new_Pile 300 200 [1; 2]%nat)) as (s1 & mc' & H1 & H2 & _ & H3 & H4 & _);
    try reflexivity.
  exists s1, mc'. split; [exact H1|]. split; [exact H2|]. split; [exact H3|exact H4].
Defined.

(** Against C3 as the specification words it, for a Pile: in
    [pile_of_two], a Pile at (300, 200), a press on the Pile and a first move
    leave the remaining Card [2] in the registry at (298, 198), not at the
    Pile's position. *)
Lemma pile_collapse_is_offset :
  exists s0 s1 p mc',
    mousedown (press 310 210 0) pile_of_two = Some s0
    /\ heap s0 !! 0%nat = Some (OPile p)
    /\ (Pile.X p, Pile.Y p) = (300, 200)%dbl
    /\ mousemove (move 310 210 0 0 5) s0 = Some s1
    /\ allObjects s1 = [1; 2]%nat
    /\ heap s1 !! 2%nat = Some (OCard mc')
    /\ (Card.x mc', Card.y mc') = (298, 198)%dbl
    /\ ~ (Card.x mc' == Pile.X p)%dbl.
Proof.
  exists pile_pressed.
  destruct (mousemove (move 310 210 0 0 5) pile_pressed) as [s1|] eqn:E;
    [|vm_compute in E; discriminate].
  assert (Hs : Some s1 = mousemove (move 310 210 0 0 5) pile_pressed) by done.
  exists s1. eexists _, _.
  split; [apply pile_pressed_by_mousedown|].
  split; [vm_compute; reflexivity|]. split; [reflexivity|]. split; [reflexivity|].
  split.
  { change (allObjects s1) with (default [] (allObjects <$> Some s1)).
    rewrite Hs. vm_compute. reflexivity. }
  split.
  { change (heap s1 !! ?t) with (default ∅ (heap <$> Some s1) !! t).
    rewrite Hs. vm_compute. reflexivity. }
  split; [reflexivity|]. vm_compute. discriminate.
Qed.


(** ** Redrawing *)

Lemma redrawn_refl (o : Obj) : redrawn o o.
Proof. destruct o; simpl; auto 10. Qed.

Lemma redrawn_trans (o1 o2 o3 : Obj) : redrawn o1 o2 -> redrawn o2 o3 -> redrawn o1 o3.
Proof.
  destruct o1, o2, o3; simpl; try done.
  - intros (-> & -> & -> & -> & ->) (-> & -> & -> & -> & ->). done.
  - intros (-> & -> & -> & -> & -> & H1) (-> & -> & -> & -> & -> & H2). auto 10.
  - intros (-> & -> & -> & -> & ->) (-> & -> & -> & -> & ->). done.
Qed.

Lemma heap_redrawn_refl (h : Heap) : heap_redrawn h h.
Proof.
  intros r. destruct (h !! r); constructor. apply redrawn_refl.
Qed.

Lemma heap_redrawn_trans (h1 h2 h3 : Heap) :
  heap_redrawn h1 h2 -> heap_redrawn h2 h3 -> heap_redrawn h1 h3.
Proof.
  intros H12 H23 r. specialize (H12 r). specialize (H23 r).
  destruct H12 as [o1 o2 Ho|]; inversion H23; subst; constructor.
  by eapply redrawn_trans.
Qed.

Lemma heap_redrawn_insert (h : Heap) (r : ref) (o o' : Obj) :
  h !! r = Some o -> redrawn o o' -> heap_redrawn h (<[r := o']> h).
Proof.
  intros Hr Ho r'. destruct (decide (r = r')) as [<-|Hne].
  - rewrite lookup_insert_eq, Hr. by constructor.
  - rewrite lookup_insert_ne by done. apply heap_redrawn_refl.
Qed.

Lemma heap_redrawn_alter_first (f : Card.t -> Card.t) (h : Heap) (l : list ref) :
  (forall c, redrawn (OCard c) (OCard (f c))) ->
  heap_redrawn h (alter_first_card f h l).
Proof.
  intros Hf. unfold alter_first_card.
  destruct l as [|r0 l]; [apply heap_redrawn_refl|].
  destruct (h !! r0) as [[c0| |]|] eqn:E; try apply heap_redrawn_refl.
  by apply (heap_redrawn_insert h r0 (OCard c0)).
Qed.

Lemma heap_redrawn_lookup (h h' : Heap) (r : ref) (o : Obj) :
  heap_redrawn h h' -> h !! r = Some o -> exists o', h' !! r = Some o' /\ redrawn o o'.
Proof.
  intros H Hr. specialize (H r). rewrite Hr in H. inversion H; subst. eauto.
Qed.

Lemma heap_redrawn_lookup_inv (h h' : Heap) (r : ref) (o' : Obj) :
  heap_redrawn h h' -> h' !! r = Some o' -> exists o, h !! r = Some o /\ redrawn o o'.
Proof.
  intros H Hr. specialize (H r). rewrite Hr in H. inversion H; subst. eauto.
Qed.

Lemma draw_ref_redrawn (d : option Dragging.t) (h h' : Heap) (r : ref) :
  draw_ref d h r = Some h' -> heap_redrawn h h'.
Proof.
  unfold draw_ref. destruct (h !! r) as [[c|s|p]|] eqn:Hr; simpl; [| | |done].
  - intros [= <-]. unfold draw_Card.
    destruct (Card.outline c); [apply heap_redrawn_refl| |];
      by apply (heap_redrawn_insert h r (OCard c)).
  - unfold draw_Stack. destruct (Stack.lastOutline s) eqn:Hl.
    + destruct (first_card h (Stack.elems s)); [|done]. intros [= <-].
      apply (heap_redrawn_insert h r (OStack s)); [done|]. simpl. auto 10.
    + intros [= <-]. apply (heap_redrawn_insert h r (OStack s)); [done|].
      simpl. rewrite Hl. auto 10.
  - intros [= <-]. unfold draw_Pile.
    destruct (first_card h (Pile.elems p)); [|apply heap_redrawn_refl].
    set (f := fun c => Card.set_size _ (Card.set_y _ (Card.set_x _ c))).
    assert (H1 : heap_redrawn h (alter_first_card f h (Pile.elems p))).
    { by apply heap_redrawn_alter_first. }
    destruct (Pile.isOutline p); [|done].
    eapply heap_redrawn_trans; [exact H1|].
    destruct (heap_redrawn_lookup _ _ r _ H1 Hr) as (o' & Ho' & Hred).
    apply (heap_redrawn_insert _ r o'); [done|].
    destruct o'; simpl in *; try done.
    destruct Hred as (? & ? & ? & ? & ?). repeat split; congruence.
Qed.

Lemma draw_all_redrawn (d : option Dragging.t) (l : list ref) (h h' : Heap) :
  draw_all d l h = Some h' -> heap_redrawn h h'.
Proof.
  revert h. induction l as [|r l IH]; simpl; intros h.
  - intros [= <-]. apply heap_redrawn_refl.
  - destruct (draw_ref d h r) as [h1|] eqn:E; simpl; [|done].
    intros H. eapply heap_redrawn_trans; [by eapply draw_ref_redrawn|by apply IH].
Qed.

Lemma tick_redrawn (s s' : State) : tick s = Some s' -> heap_redrawn (heap s) (heap s').
Proof.
  unfold tick. destruct (draw_all _ _ _) as [h'|] eqn:E; simpl; [|done].
  intros [= <-]. by apply draw_all_redrawn in E.
Qed.


(** ** Dropping a Card on a Card *)

Lemma new_ref_fresh (h : Heap) : h !! new_ref h = None.
Proof. apply not_elem_of_dom. unfold new_ref. apply is_fresh. Qed.

(** The band test in words.  The two bands exclude each other; outside
    both, a [NaN] among the operands included, nothing is merged. *)
Lemma band_spec (dx dy ht : double) :
  (band dx dy ht = BandStack <-> (dy < half * ht /\ spacing <= dx /\ dx < 45)%dbl)
  /\ (band dx dy ht = BandPile
      <-> (dy < half * ht /\ - spacing <= dx /\ dx < spacing)%dbl)
  /\ (band dx dy ht = BandNone
      <-> ~ (dy < half * ht /\ spacing <= dx /\ dx < 45)%dbl
          /\ ~ (dy < half * ht /\ - spacing <= dx /\ dx < spacing)%dbl).
Proof.
  unfold band.
  destruct (fltb dy (half * ht)) eqn:Ey; [|by intuition congruence].
  destruct (fleb spacing dx) eqn:E1; simpl.
  - assert (Hhi : fltb dx spacing = false) by (by apply fleb_not_fltb).
    destruct (fltb dx 45) eqn:E2; [by intuition congruence|].
    rewrite Hhi, andb_false_r. by intuition congruence.
  - destruct (fleb (- spacing) dx) eqn:E3, (fltb dx spacing) eqn:E4; simpl;
      by intuition congruence.
Qed.

Lemma is_group_of_redrawn (o o' : Obj) k l x0 y0 fl dir :
  redrawn o o' -> is_group_of o k l x0 y0 fl dir -> is_group_of o' k l x0 y0 fl dir.
Proof.
  unfold is_group_of. intros Hr (Hk & Hnc & Hl & Hx & Hy & Hf & Hd).
  destruct o as [c|s|p], o' as [c'|s'|p']; simpl in *; try done.
  - destruct Hr as (-> & -> & -> & -> & -> & _). done.
  - destruct Hr as (-> & -> & -> & -> & ->). done.
Qed.

(** The state [merge_cards] leaves: the new group [g] replaces the dragged
    Card at index 0 and the hovered Card is gone from its index. *)
Lemma merge_cards_result (mk_group : double -> double -> list ref -> Obj)
    (s : State) (d : Dragging.t) (rest : list ref) (j : nat) (ov : ref) (oc : Card.t) :
  allObjects s = Dragging.object d :: rest ->
  Dragging.overIndex d = Some (Z.of_nat (S j)) ->
  rest !! j = Some ov ->
  heap s !! ov = Some (OCard oc) ->
  let g := new_ref (heap s) in
  merge_cards mk_group s d ov oc
  = Some (mkState
            (<[g := put_direction (Card.direction oc)
                      (put_flipped (Card.flipped oc)
                         (mk_group (Card.x oc) (Card.y oc) [ov; Dragging.object d]))]>
               (heap s))
            (g :: delete j rest) (dragging s) (lastDragged s)).
Proof.
  intros Hall Hoi Hj Hov g. unfold merge_cards. rewrite Hoi, Hall. ssimpl.
  rewrite (js_splice_delete (S j) (Dragging.object d :: rest) ov) by done.
  ssimpl. rewrite js_splice_0. ssimpl. fold g.
  assert (Hg : heap s !! g = None) by apply new_ref_fresh.
  assert (Hne : g <> ov) by (intros Heq; rewrite Heq in Hg; congruence).
  unfold copy_flipped. rewrite lookup_insert_eq. ssimpl.
  rewrite lookup_insert_ne by done. rewrite Hov. ssimpl.
  unfold copy_direction. rewrite lookup_insert_eq. ssimpl.
  rewrite lookup_insert_ne by done. rewrite lookup_insert_ne by done.
  rewrite Hov. ssimpl. by rewrite !insert_insert_eq.
Qed.

(** [dropped_at_15] is where a press on Card [0] of [two_cards] and a move by
    305 pixels to the right lead. *)
Lemma dropped_at_15_reached :
  mousedown (press 20 20 1000) two_cards ≫= mousemove (move 325 20 305 0 1001)
  = Some dropped_at_15.
Proof. vm_compute. reflexivity. Qed.


(** ** Searching the registry *)

Lemma js_findIndex_spec {A} (p : A -> bool) (l : list A) :
  (js_findIndex p l = (-1)%Z /\ forall a, a ∈ l -> p a = false)
  \/ exists i a, js_findIndex p l = Z.of_nat i /\ l !! i = Some a /\ p a = true
       /\ forall j b, j < i -> l !! j = Some b -> p b = false.
Proof.
  induction l as [|x l IH]; simpl.
  - left. split; [done|]. intros a Ha. by apply elem_of_nil in Ha.
  - destruct (p x) eqn:Hx.
    + right. exists 0, x. repeat split; try done. intros j b Hj. lia.
    + destruct IH as [[Hi Hall]|(i & a & Hi & Ha & Hp & Hlt)]; rewrite Hi.
      * left. split; [done|]. intros a Ha.
        apply elem_of_cons in Ha as [->|Ha]; auto.
      * right. exists (S i), a.
        destruct (Z.ltb_spec (Z.of_nat i) 0); [lia|].
        split; [lia|]. split; [done|]. split; [done|].
        intros [|j] b Hj Hb; simpl in Hb; [by simplify_eq|].
        apply (Hlt j b); [lia|done].
Qed.

Lemma js_get_findIndex {A} (p : A -> bool) (l : list A) (a : A) :
  js_get l (js_findIndex p l) = Some a ->
  exists i, js_findIndex p l = Z.of_nat i /\ l !! i = Some a /\ p a = true.
Proof.
  destruct (js_findIndex_spec p l) as [[Hi _]|(i & b & Hi & Hb & Hp & _)]; rewrite Hi.
  - done.
  - rewrite js_get_nat, Hb. intros [= <-]. eauto.
Qed.

Lemma js_indexOf_elem (r : ref) (l : list ref) :
  r ∈ l -> exists i, js_indexOf r l = Z.of_nat i /\ l !! i = Some r.
Proof.
  intros Hr. unfold js_indexOf.
  destruct (js_findIndex_spec (fun a => bool_decide (a = r)) l)
    as [[_ Hall]|(i & b & Hi & Hb & Hp & _)].
  - specialize (Hall r Hr). by rewrite bool_decide_eq_false in Hall.
  - apply bool_decide_eq_true in Hp as ->. eauto.
Qed.

Lemma raise_head (r : ref) (l : list ref) : r ∈ l -> exists l', raise r l = r :: l'.
Proof.
  intros Hr. unfold raise. case_bool_decide as Hh.
  - destruct l as [|x l]; [done|]. simpl in Hh. injection Hh as ->. eauto.
  - destruct (js_indexOf_elem r l Hr) as (i & -> & Hi).
    rewrite (js_splice_delete i l r Hi). eauto.
Qed.

(** ** The target of a session is on top *)

Lemma extract_from_stack_top (e : Ev.t) (s s1 : State) (d : Dragging.t) :
  extract_from_stack e s d = Some s1 ->
  exists r0, dragging s1 = Some (retargeted e r0) /\ allObjects s1 !! 0%nat = Some r0.
Proof.
  unfold extract_from_stack. intros H.
  destruct (Dragging.specCardIndex d) as [i|]; ssimpl in H; [|done].
  destruct (heap s !! Dragging.object d) as [o|]; ssimpl in H; [|done].
  destruct (get_elems o) as [l|]; ssimpl in H; [|done].
  destruct (js_splice i 1 [] l) as [removed l'].
  destruct (head removed) as [c|]; ssimpl in H; [|done].
  destruct (allObjects s !! 0%nat) as [r1|]; ssimpl in H; [|done].
  destruct (copy_flipped _ _ _) as [h1|]; ssimpl in H; [|done].
  destruct (copy_direction _ _ _) as [h2|]; ssimpl in H; [|done].
  destruct (collapse_stack _ _) as [[h3 all]|]; ssimpl in H; [|done].
  destruct (all !! 0%nat) as [r0|] eqn:E0; ssimpl in H; [|done].
  destruct (place_extracted _ _ _) as [h4|]; ssimpl in H; [|done].
  destruct (all !! 1%nat) as [r1'|]; ssimpl in H; [|done].
  destruct (copy_direction _ _ _) as [h5|]; ssimpl in H; [|done].
  injection H as <-. eauto.
Qed.

Lemma extract_from_pile_top (e : Ev.t) (s s1 : State) (d : Dragging.t) :
  extract_from_pile e s d = Some s1 ->
  exists r0, dragging s1 = Some (retargeted e r0) /\ allObjects s1 !! 0%nat = Some r0.
Proof.
  unfold extract_from_pile. intros H.
  destruct (heap s !! Dragging.object d) as [o|]; ssimpl in H; [|done].
  destruct (get_elems o) as [l|]; ssimpl in H; [|done].
  destruct (head l) as [c|]; ssimpl in H; [|done].
  destruct (allObjects s !! 0%nat) as [r1|]; ssimpl in H; [|done].
  destruct (copy_flipped _ _ _) as [h1|]; ssimpl in H; [|done].
  destruct (copy_direction _ _ _) as [h2|]; ssimpl in H; [|done].
  destruct (collapse_pile _ _) as [[h3 all]|]; ssimpl in H; [|done].
  destruct (all !! 0%nat) as [r0|] eqn:E0; ssimpl in H; [|done].
  injection H as <-. eauto.
Qed.

Lemma before_movement_top (e : Ev.t) (s s1 : State) (d : Dragging.t) :
  allObjects s !! 0%nat = Some (Dragging.object d) ->
  before_movement e s d = Some s1 ->
  exists d1, dragging s1 = Some d1
             /\ allObjects s1 !! 0%nat = Some (Dragging.object d1).
Proof.
  intros Htop. unfold before_movement. simpl.
  destruct (Dragging.draggedYet d).
  { intros [= <-]. eexists. split; [reflexivity|]. done. }
  unfold first_move. simpl.
  assert (Hsame : forall s0, Some (mkState (heap s) (allObjects s)
              (Some (Dragging.set_xy (Ev.clientX e) (Ev.clientY e) d)) (lastDragged s))
            ≫= (fun s1 => Some (mkState (heap s1) (allObjects s1)
                  (Dragging.set_draggedYet true <$> dragging s1) (lastDragged s1)))
            = Some s0 ->
            exists d1, dragging s0 = Some d1
                       /\ allObjects s0 !! 0%nat = Some (Dragging.object d1)).
  { intros s0 [= <-]. eexists. split; [reflexivity|]. done. }
  destruct (Dragging.type d).
  - apply Hsame.
  - destruct (Dragging.doubleClick d); [apply Hsame|].
    destruct (extract_from_stack _ _ _) as [s2|] eqn:E; simpl; [|done].
    apply extract_from_stack_top in E as (r0 & Hd & H0).
    intros [= <-]. simpl. rewrite Hd. eexists. split; [reflexivity|]. done.
  - destruct (Dragging.doubleClick d); [apply Hsame|].
    destruct (extract_from_pile _ _ _) as [s2|] eqn:E; simpl; [|done].
    apply extract_from_pile_top in E as (r0 & Hd & H0).
    intros [= <-]. simpl. rewrite Hd. eexists. split; [reflexivity|]. done.
Qed.

(** ** What a position write touches *)

Lemma alter_first_card_ne (f : Card.t -> Card.t) (h : Heap) (l : list ref) (r' : ref) :
  head l <> Some r' -> alter_first_card f h l !! r' = h !! r'.
Proof.
  intros Hne. unfold alter_first_card. destruct l as [|r0 l]; [done|].
  destruct (h !! r0) as [[c0| |]|]; try done.
  apply lookup_insert_ne. intros ->. by apply Hne.
Qed.

Lemma write_x_spec (h h' : Heap) (r : ref) (v : double) :
  write_x h r v = Some h' ->
  (exists o o', h !! r = Some o /\ h' !! r = Some o' /\ get_x o' = v
                /\ get_y o' = get_y o /\ get_elems o' = get_elems o)
  /\ (forall r', r' <> r -> first_member h r <> Some r' -> h' !! r' = h !! r').
Proof.
  unfold write_x, first_member. destruct (h !! r) as [[c|s|p]|] eqn:Hr; simpl; [| | |done].
  - intros [= <-]. split.
    + eexists _, _. split; [done|]. split; [apply lookup_insert_eq|]. done.
    + intros r' Hne _. by apply lookup_insert_ne.
  - intros [= <-]. split.
    + eexists _, _. split; [done|]. split; [apply lookup_insert_eq|]. done.
    + intros r' Hne Hfm. rewrite lookup_insert_ne by done.
      by apply alter_first_card_ne.
  - intros [= <-]. split.
    + eexists _, _. split; [done|]. split; [apply lookup_insert_eq|]. done.
    + intros r' Hne Hfm. rewrite lookup_insert_ne by done.
      by apply alter_first_card_ne.
Qed.

Lemma write_y_spec (h h' : Heap) (r : ref) (v : double) :
  write_y h r v = Some h' ->
  (exists o o', h !! r = Some o /\ h' !! r = Some o' /\ get_y o' = v
                /\ get_x o' = get_x o /\ get_elems o' = get_elems o)
  /\ (forall r', r' <> r -> first_member h r <> Some r' -> h' !! r' = h !! r').
Proof.
  unfold write_y, first_member. destruct (h !! r) as [[c|s|p]|] eqn:Hr; simpl; [| | |done].
  - intros [= <-]. split.
    + eexists _, _. split; [done|]. split; [apply lookup_insert_eq|]. done.
    + intros r' Hne _. by apply lookup_insert_ne.
  - intros [= <-]. split.
    + eexists _, _. split; [done|]. split; [apply lookup_insert_eq|]. done.
    + intros r' Hne Hfm. rewrite lookup_insert_ne by done.
      by apply alter_first_card_ne.
  - intros [= <-]. split.
    + eexists _, _. split; [done|]. split; [apply lookup_insert_eq|]. done.
    + intros r' Hne Hfm. rewrite lookup_insert_ne by done.
      by apply alter_first_card_ne.
Qed.

(** [move_top] adds the movement to the position of the entry at index 0 and
    leaves every other object alone, but for the first Card of a group that
    is moved (its setters write the first Card too). *)
Lemma move_top_spec (e : Ev.t) (s s2 : State) (r0 : ref) :
  allObjects s !! 0%nat = Some r0 ->
  move_top e s = Some s2 ->
  allObjects s2 = allObjects s /\ dragging s2 = dragging s
  /\ lastDragged s2 = lastDragged s
  /\ (exists o o', heap s !! r0 = Some o /\ heap s2 !! r0 = Some o'
        /\ get_x o' = (get_x o + Ev.movementX e)%dbl
        /\ get_y o' = (get_y o + Ev.movementY e)%dbl)
  /\ (forall r', r' <> r0 -> first_member (heap s) r0 <> Some r' ->
        heap s2 !! r' = heap s !! r').
Proof.
  intros H0. unfold move_top. rewrite H0. simpl.
  destruct (heap s !! r0) as [o|] eqn:Ho; simpl; [|done].
  destruct (write_x _ _ _) as [h1|] eqn:Ex; simpl; [|done].
  apply write_x_spec in Ex as ((o0 & o1 & Ho0 & Ho1 & Hx1 & Hy1 & Hel1) & Hfr1).
  rewrite Ho in Ho0. injection Ho0 as <-.
  rewrite Ho1. simpl.
  destruct (write_y _ _ _) as [h2|] eqn:Ey; simpl; [|done].
  apply write_y_spec in Ey as ((o1' & o2 & Ho1' & Ho2 & Hy2 & Hx2 & Hel2) & Hfr2).
  rewrite Ho1 in Ho1'. injection Ho1' as <-.
  intros [= <-]. simpl. repeat split.
  - exists o, o2. split; [done|]. split; [done|].
    split; [by rewrite Hx2, Hx1|by rewrite Hy2, Hy1].
  - intros r' Hne Hfm. rewrite Hfr2, Hfr1; try done.
    unfold first_member in *. rewrite Ho1. simpl. rewrite Hel1.
    by rewrite Ho in Hfm.
Qed.

Lemma hover_fields (e : Ev.t) (s s' : State) (d : Dragging.t) :
  hover e s d = Some s' ->
  allObjects s' = allObjects s /\ lastDragged s' = lastDragged s
  /\ exists i o, dragging s' = Some (Dragging.set_over i o d).
Proof.
  unfold hover. intros H.
  destruct (js_get _ _) as [ov|]; [|injection H as <-; simpl; eauto].
  destruct (heap s !! ov) as [o|]; simpl in H; [|done].
  destruct (mark_preview _ _ _ _ _ _) as [h1|]; simpl in H; [|done].
  injection H as <-. simpl. eauto.
Qed.

Lemma apply_movement_fields (e : Ev.t) (s s2 : State) (d : Dragging.t) :
  apply_movement e s d = Some s2 ->
  allObjects s2 = allObjects s /\ dragging s2 = dragging s
  /\ lastDragged s2 = lastDragged s.
Proof.
  assert (Hm : move_top e s = Some s2 ->
               allObjects s2 = allObjects s /\ dragging s2 = dragging s
               /\ lastDragged s2 = lastDragged s).
  { intros H. destruct (allObjects s !! 0%nat) as [r0|] eqn:E0.
    - destruct (move_top_spec e s s2 r0 E0 H) as (? & ? & ? & _). done.
    - unfold move_top in H. by rewrite E0 in H. }
  unfold apply_movement.
  destruct (Dragging.type d); [done| |];
    (destruct (Dragging.doubleClick d); [done|by intros [= <-]]).
Qed.

Lemma mousedown_target_on_top (e : Ev.t) (s s' : State) :
  target_on_top s -> mousedown e s = Some s' -> target_on_top s'.
Proof.
  intros Hinv. unfold mousedown.
  destruct (dragging s) as [d0|] eqn:Hd; [by intros [= <-]|].
  destruct (js_get _ _) as [object|] eqn:Hhit; [|by intros [= <-]].
  apply js_get_findIndex in Hhit as (i & _ & Hi & _).
  destruct (heap s !! object) as [o|]; simpl; [|done].
  intros H. apply tick_fields in H as (Hall & Hdr & _). simpl in *.
  intros d Hd'. rewrite Hdr in Hd'. injection Hd' as <-. simpl.
  rewrite Hall. destruct (raise_head object (allObjects s)) as [l' ->]; [|done].
  by apply list_elem_of_lookup_2 in Hi.
Qed.

Lemma mousemove_target_on_top (e : Ev.t) (s s' : State) :
  target_on_top s -> mousemove e s = Some s' -> target_on_top s'.
Proof.
  intros Hinv. unfold mousemove.
  destruct (dragging s) as [d0|] eqn:Hd; [|by intros [= <-]].
  destruct (before_movement e s d0) as [s1|] eqn:E1; simpl; [|done].
  apply before_movement_top in E1 as (d1 & Hd1 & Htop1); [|by apply Hinv].
  rewrite Hd1. simpl.
  destruct (apply_movement e s1 d1) as [s2|] eqn:E2; simpl; [|done].
  apply apply_movement_fields in E2 as (Hall2 & Hd2 & _).
  assert (Hh : forall s3, (match Dragging.type d1 with
                           | KCard => hover e s2 d1 | _ => Some s2 end) = Some s3 ->
               allObjects s3 = allObjects s2
               /\ exists d3, dragging s3 = Some d3
                             /\ Dragging.object d3 = Dragging.object d1).
  { intros s3 H3. destruct (Dragging.type d1).
    - apply hover_fields in H3 as (? & _ & i & o & ->). eauto.
    - injection H3 as <-. rewrite Hd2, Hd1. eauto.
    - injection H3 as <-. rewrite Hd2, Hd1. eauto. }
  destruct (match Dragging.type d1 with KCard => _ | _ => _ end) as [s3|]; simpl; [|done].
  destruct (Hh s3 eq_refl) as (Hall3 & d3 & Hd3 & Ho3).
  intros H. apply tick_fields in H as (Hall & Hdr & _).
  intros d Hd'. rewrite Hdr, Hd3 in Hd'. injection Hd' as <-.
  by rewrite Hall, Hall3, Hall2, Ho3.
Qed.

Lemma mouseup_idle (s s' : State) : mouseup s = Some s' -> dragging s' = None.
Proof.
  unfold mouseup. destruct (dragging s) as [d|] eqn:Hd.
  - unfold release.
    destruct (drop_dragged _ d) as [s1|]; simpl; [|done].
    intros H. by apply tick_fields in H as (_ & -> & _).
  - simpl. intros H. apply tick_fields in H as (_ & -> & _). done.
Qed.

Lemma reachable_target_on_top (s : State) : reachable s -> target_on_top s.
Proof.
  induction 1 as [s Hidle|s s' ev _ IH Hstep].
  - intros d Hd. congruence.
  - destruct ev as [e|e|]; simpl in Hstep.
    + by eapply mousedown_target_on_top.
    + by eapply mousemove_target_on_top.
    + apply mouseup_idle in Hstep. intros d Hd. congruence.
Qed.

(** ** Ownership *)

Lemma heap_kept_shaped (h h' : Heap) : heap_kept h h' -> heap_shaped h h'.
Proof.
  intros H r. specialize (H r). destruct H as [o o' (? & ? & _)|]; by constructor.
Qed.

Lemma heap_redrawn_shaped (h h' : Heap) : heap_redrawn h h' -> heap_shaped h h'.
Proof.
  intros H r. specialize (H r). destruct H as [o o' Hr|]; constructor.
  destruct o, o'; simpl in Hr; try done; unfold shaped; simpl.
  - by destruct Hr as (-> & _).
  - by destruct Hr as (-> & _).
Qed.

Lemma heap_shaped_refl (h : Heap) : heap_shaped h h.
Proof. intros r. destruct (h !! r); by constructor. Qed.

Lemma heap_shaped_trans (h1 h2 h3 : Heap) :
  heap_shaped h1 h2 -> heap_shaped h2 h3 -> heap_shaped h1 h3.
Proof.
  intros H12 H23 r. specialize (H12 r). specialize (H23 r).
  destruct H12 as [o1 o2 (? & ?)|]; inversion H23 as [? o3 (? & ?)|];
    subst; constructor.
  split; congruence.
Qed.

Lemma heap_shaped_lookup (h h' : Heap) (r : ref) (o : Obj) :
  heap_shaped h h' -> h !! r = Some o -> exists o', h' !! r = Some o' /\ shaped o o'.
Proof. intros H Ho. specialize (H r). rewrite Ho in H. inversion H; subst. eauto. Qed.

Lemma heap_shaped_lookup_inv (h h' : Heap) (r : ref) (o' : Obj) :
  heap_shaped h h' -> h' !! r = Some o' -> exists o, h !! r = Some o /\ shaped o o'.
Proof. intros H Ho. specialize (H r). rewrite Ho in H. inversion H; subst. eauto. Qed.

Lemma owned_shaped (h h' : Heap) (r : ref) : heap_shaped h h' -> owned h' r = owned h r.
Proof.
  intros H. specialize (H r). unfold owned.
  destruct H as [o o' (Hk & He)|]; [|done].
  destruct o, o'; simpl in *; by simplify_eq.
Qed.

Lemma cards_in_shaped (h h' : Heap) (l : list ref) :
  heap_shaped h h' -> cards_in h' l = cards_in h l.
Proof.
  intros H. unfold cards_in. induction l as [|r l IH]; [done|].
  by rewrite !bind_cons, IH, (owned_shaped h h').
Qed.

Lemma cards_in_ext (h h' : Heap) (l : list ref) :
  (forall r, r ∈ l -> h' !! r = h !! r) -> cards_in h' l = cards_in h l.
Proof.
  unfold cards_in. induction l as [|r l IH]; intros H; [done|].
  rewrite !bind_cons, IH by (intros r' Hr'; apply H; by right).
  unfold owned. rewrite H by by left. done.
Qed.

Lemma is_card_shaped (h h' : Heap) (r : ref) :
  heap_shaped h h' -> is_card h r -> is_card h' r.
Proof.
  intros H [c Hc]. destruct (heap_shaped_lookup h h' r _ H Hc) as (o' & Ho' & Hk & _).
  destruct o'; simpl in *; try done. by eexists.
Qed.

Lemma heap_kept_refl (h : Heap) : heap_kept h h.
Proof. intros r. destruct (h !! r); by constructor. Qed.

Lemma heap_kept_trans (h1 h2 h3 : Heap) :
  heap_kept h1 h2 -> heap_kept h2 h3 -> heap_kept h1 h3.
Proof.
  intros H12 H23 r. specialize (H12 r). specialize (H23 r).
  destruct H12 as [o1 o2 (? & ? & ?)|]; inversion H23 as [? o3 (? & ? & ?)|];
    subst; constructor.
  repeat split; congruence.
Qed.

Lemma heap_kept_insert (h : Heap) (r : ref) (o o' : Obj) :
  h !! r = Some o -> kept o o' -> heap_kept h (<[r := o']> h).
Proof.
  intros Hr Ho r'. destruct (decide (r = r')) as [<-|Hne].
  - rewrite lookup_insert_eq, Hr. by constructor.
  - rewrite lookup_insert_ne by done. apply heap_kept_refl.
Qed.

Lemma heap_kept_lookup (h h' : Heap) (r : ref) (o : Obj) :
  heap_kept h h' -> h !! r = Some o -> exists o', h' !! r = Some o' /\ kept o o'.
Proof. intros H Ho. specialize (H r). rewrite Ho in H. inversion H; subst. eauto. Qed.

Lemma registry_ok_shaped (h h' : Heap) (l : list ref) :
  heap_shaped h h' -> registry_ok h l -> registry_ok h' l.
Proof.
  intros H [Hnd Hlive Hmem Hcards]. split; [done| | |].
  - intros r Hr. destruct (Hlive r Hr) as [o Ho].
    destruct (heap_shaped_lookup h h' r o H Ho) as (o' & -> & _). eauto.
  - intros r Hr. rewrite (cards_in_shaped h h') in Hr by done.
    by eapply is_card_shaped, Hmem.
  - by rewrite (cards_in_shaped h h').
Qed.

Lemma no_trailing_kept (h h' : Heap) : heap_kept h h' -> no_trailing h -> no_trailing h'.
Proof.
  intros H Hn r o' Ho'. specialize (H r). rewrite Ho' in H.
  inversion H as [o ? (_ & _ & Ht) Ho|]; subst. rewrite Ht. by eapply Hn.
Qed.

Lemma lone_card_in_cards (h : Heap) (l : list ref) (r : ref) :
  r ∈ l -> is_card h r -> r ∈ cards_in h l.
Proof.
  intros Hr [c Hc]. apply list_elem_of_bind. exists r. split; [|done].
  unfold owned. rewrite Hc. by left.
Qed.

Lemma member_in_cards (h : Heap) (l : list ref) (g m : ref) :
  g ∈ l -> m ∈ owned h g -> m ∈ cards_in h l.
Proof. intros Hg Hm. apply list_elem_of_bind. eauto. Qed.

(** ** Field writes keep class, elements and trailing outline *)

Lemma kept_refl (o : Obj) : kept o o.
Proof. done. Qed.

Lemma kept_put_flipped (v : bool) (o : Obj) : kept o (put_flipped v o).
Proof. by destruct o. Qed.

Lemma kept_put_direction (v : double) (o : Obj) : kept o (put_direction v o).
Proof. by destruct o. Qed.

Lemma copy_flipped_kept (h h' : Heap) (dst src : ref) :
  copy_flipped h dst src = Some h' -> heap_kept h h'.
Proof.
  unfold copy_flipped. destruct (h !! dst) as [od|] eqn:Hd; simpl; [|done].
  destruct (h !! src) as [os|]; simpl; [|done]. intros [= <-].
  apply (heap_kept_insert h dst od); [done|apply kept_put_flipped].
Qed.

Lemma copy_direction_kept (h h' : Heap) (dst src : ref) :
  copy_direction h dst src = Some h' -> heap_kept h h'.
Proof.
  unfold copy_direction. destruct (h !! dst) as [od|] eqn:Hd; simpl; [|done].
  destruct (h !! src) as [os|]; simpl; [|done]. intros [= <-].
  apply (heap_kept_insert h dst od); [done|apply kept_put_direction].
Qed.

Lemma copy_flipped_total (h : Heap) (dst src : ref) :
  is_Some (h !! dst) -> is_Some (h !! src) -> is_Some (copy_flipped h dst src).
Proof. intros [od Hd] [os Hs]. unfold copy_flipped. rewrite Hd, Hs. simpl. eauto. Qed.

Lemma copy_direction_total (h : Heap) (dst src : ref) :
  is_Some (h !! dst) -> is_Some (h !! src) -> is_Some (copy_direction h dst src).
Proof. intros [od Hd] [os Hs]. unfold copy_direction. rewrite Hd, Hs. simpl. eauto. Qed.

Lemma alter_first_card_kept (f : Card.t -> Card.t) (h : Heap) (l : list ref) :
  heap_kept h (alter_first_card f h l).
Proof.
  unfold alter_first_card. destruct l as [|r0 l]; [apply heap_kept_refl|].
  destruct (h !! r0) as [[c0| |]|] eqn:E; try apply heap_kept_refl.
  by apply (heap_kept_insert h r0 (OCard c0)).
Qed.

Lemma write_x_kept (h h' : Heap) (r : ref) (v : double) :
  write_x h r v = Some h' -> heap_kept h h'.
Proof.
  unfold write_x. destruct (h !! r) as [[c|s|p]|] eqn:Hr; simpl; [| | |done];
    intros [= <-].
  - by apply (heap_kept_insert h r (OCard c)).
  - eapply heap_kept_trans; [apply alter_first_card_kept|].
    destruct (heap_kept_lookup _ _ r _ (alter_first_card_kept (Card.set_x v) h (Stack.elems s)) Hr)
      as (o' & Ho' & Hk).
    apply (heap_kept_insert _ r o'); [done|].
    destruct Hk as (Hk1 & Hk2 & Hk3). simpl in *. repeat split; simpl; congruence.
  - eapply heap_kept_trans; [apply alter_first_card_kept|].
    destruct (heap_kept_lookup _ _ r _ (alter_first_card_kept (Card.set_x v) h (Pile.elems p)) Hr)
      as (o' & Ho' & Hk).
    apply (heap_kept_insert _ r o'); [done|].
    destruct Hk as (Hk1 & Hk2 & Hk3). simpl in *. repeat split; simpl; congruence.
Qed.

Lemma write_y_kept (h h' : Heap) (r : ref) (v : double) :
  write_y h r v = Some h' -> heap_kept h h'.
Proof.
  unfold write_y. destruct (h !! r) as [[c|s|p]|] eqn:Hr; simpl; [| | |done];
    intros [= <-].
  - by apply (heap_kept_insert h r (OCard c)).
  - eapply heap_kept_trans; [apply alter_first_card_kept|].
    destruct (heap_kept_lookup _ _ r _ (alter_first_card_kept (Card.set_y v) h (Stack.elems s)) Hr)
      as (o' & Ho' & Hk).
    apply (heap_kept_insert _ r o'); [done|].
    destruct Hk as (Hk1 & Hk2 & Hk3). simpl in *. repeat split; simpl; congruence.
  - eapply heap_kept_trans; [apply alter_first_card_kept|].
    destruct (heap_kept_lookup _ _ r _ (alter_first_card_kept (Card.set_y v) h (Pile.elems p)) Hr)
      as (o' & Ho' & Hk).
    apply (heap_kept_insert _ r o'); [done|].
    destruct Hk as (Hk1 & Hk2 & Hk3). simpl in *. repeat split; simpl; congruence.
Qed.

Lemma write_x_total (h : Heap) (r : ref) (v : double) :
  is_Some (h !! r) -> is_Some (write_x h r v).
Proof. intros [o Ho]. unfold write_x. rewrite Ho. destruct o; simpl; eauto. Qed.

Lemma write_y_total (h : Heap) (r : ref) (v : double) :
  is_Some (h !! r) -> is_Some (write_y h r v).
Proof. intros [o Ho]. unfold write_y. rewrite Ho. destruct o; simpl; eauto. Qed.


(** ** A redraw goes through and restores the invariant *)

Lemma first_card_redrawn (h h' : Heap) (l : list ref) :
  heap_redrawn h h' -> is_Some (first_card h l) -> is_Some (first_card h' l).
Proof.
  intros H. unfold first_card. destruct l as [|r0 l]; [done|].
  destruct (h !! r0) as [[c| |]|] eqn:E; try by intros [? ?].
  destruct (heap_redrawn_lookup h h' r0 _ H E) as (o' & -> & Hr).
  destruct o'; simpl in Hr; try done; eauto.
Qed.

Lemma tick_safe_redrawn (h h' : Heap) (l : list ref) :
  heap_redrawn h h' -> tick_safe h l -> tick_safe h' l.
Proof.
  intros H Hs r Hr. destruct (Hs r Hr) as [[o Ho] Hst].
  destruct (heap_redrawn_lookup h h' r o H Ho) as (o' & Ho' & Hoo').
  split; [eauto|]. intros st' Hst' Hl. rewrite Ho' in Hst'. injection Hst' as ->.
  destruct o as [|st|]; simpl in Hoo'; try done.
  destruct Hoo' as (-> & _ & _ & _ & _ & Hmono).
  apply (first_card_redrawn h h'); [done|]. apply Hst; [done|auto].
Qed.

Lemma draw_ref_total (d : option Dragging.t) (h : Heap) (r : ref) :
  is_Some (h !! r) ->
  (forall st, h !! r = Some (OStack st) -> Stack.lastOutline st = true ->
              is_Some (first_card h (Stack.elems st))) ->
  is_Some (draw_ref d h r).
Proof.
  intros [o Ho] Hst. unfold draw_ref. rewrite Ho. simpl.
  destruct o as [c|st|p]; [eauto| |eauto].
  unfold draw_Stack. destruct (Stack.lastOutline st) eqn:Hl; [|eauto].
  destruct (Hst st Ho Hl) as [c ->]. eauto.
Qed.

Lemma draw_all_total (d : option Dragging.t) (l : list ref) (h : Heap) :
  tick_safe h l -> is_Some (draw_all d l h).
Proof.
  revert h. induction l as [|r l IH]; intros h Hs; simpl; [eauto|].
  destruct (Hs r) as [Hlive Hst]; [by left|].
  destruct (draw_ref_total d h r Hlive Hst) as [h1 E]. rewrite E. simpl.
  apply IH. apply (tick_safe_redrawn h h1); [by eapply draw_ref_redrawn|].
  intros r' Hr'. apply Hs. by right.
Qed.

Lemma trailing_redrawn (h h' : Heap) (r : ref) (o' : Obj) :
  heap_redrawn h h' -> h' !! r = Some o' -> trailing o' = true ->
  exists o, h !! r = Some o /\ trailing o = true.
Proof.
  intros H Ho' Ht. destruct (heap_redrawn_lookup_inv h h' r o' H Ho') as (o & Ho & Hr).
  exists o. split; [done|].
  destruct o, o'; simpl in *; try done. by apply Hr.
Qed.

Lemma draw_ref_untrail (d : option Dragging.t) (h h1 : Heap) (r : ref) (o1 : Obj) :
  draw_ref d h r = Some h1 -> h1 !! r = Some o1 -> trailing o1 = false.
Proof.
  intros Hdraw H1. pose proof (draw_ref_redrawn d h h1 r Hdraw) as Hred.
  unfold draw_ref in Hdraw. destruct (h !! r) as [[c|st|p]|] eqn:Hr; simpl in Hdraw; [| | |done].
  - destruct (heap_redrawn_lookup h h1 r _ Hred Hr) as (o' & Ho' & Hoo').
    rewrite H1 in Ho'. injection Ho' as <-. by destruct o1.
  - unfold draw_Stack in Hdraw. destruct (Stack.lastOutline st) eqn:Hl.
    + destruct (first_card h (Stack.elems st)); [|done]. injection Hdraw as <-.
      rewrite lookup_insert_eq in H1. by injection H1 as <-.
    + injection Hdraw as <-. rewrite lookup_insert_eq in H1. by injection H1 as <-.
  - destruct (heap_redrawn_lookup h h1 r _ Hred Hr) as (o' & Ho' & Hoo').
    rewrite H1 in Ho'. injection Ho' as <-. by destruct o1.
Qed.

Lemma draw_all_untrail (d : option Dragging.t) (l : list ref) (h h' : Heap)
    (r : ref) (o' : Obj) :
  draw_all d l h = Some h' -> r ∈ l -> h' !! r = Some o' -> trailing o' = false.
Proof.
  revert h. induction l as [|x l IH]; intros h Hdraw Hr Ho'; [by apply elem_of_nil in Hr|].
  simpl in Hdraw. destruct (draw_ref d h x) as [h1|] eqn:E; simpl in Hdraw; [|done].
  destruct (decide (r ∈ l)) as [Hin|Hnin]; [by eapply IH|].
  apply elem_of_cons in Hr as [->|Hr]; [|done].
  destruct (trailing o') eqn:Ht; [|done].
  destruct (trailing_redrawn h1 h' x o' (draw_all_redrawn d l h1 h' Hdraw) Ho' Ht)
    as (o1 & Ho1 & Ht1).
  by rewrite (draw_ref_untrail d h h1 x o1 E Ho1) in Ht1.
Qed.

Lemma pending_ok_redrawn (h h' : Heap) (d : Dragging.t) :
  heap_redrawn h h' -> pending_ok h d -> pending_ok h' d.
Proof.
  intros H. unfold pending_ok. destruct (Dragging.type d); [done| |].
  - intros (st & i & Hst & Hi & Hlen & Hsup).
    destruct (heap_redrawn_lookup h h' _ _ H Hst) as (o' & Ho' & Hr).
    destruct o' as [|st'|]; simpl in Hr; try done.
    destruct Hr as (He & _ & _ & _ & Hd & _).
    exists st', i. rewrite He, Hd. done.
  - intros (p & Hp & Hne).
    destruct (heap_redrawn_lookup h h' _ _ H Hp) as (o' & Ho' & Hr).
    destruct o' as [| |p']; simpl in Hr; try done.
    destruct Hr as (He & _). exists p'. by rewrite He.
Qed.

Lemma session_ok_redrawn (s s' : State) :
  heap_redrawn (heap s) (heap s') -> allObjects s' = allObjects s ->
  dragging s' = dragging s -> session_ok s -> session_ok s'.
Proof.
  intros H Hall Hdr Hs d Hd. rewrite Hdr in Hd.
  destruct (Hs d Hd) as (Htop & (o & Ho & Hk) & Hpend & Hover).
  rewrite Hall. split; [done|]. split; [|split; [|done]].
  - destruct (heap_shaped_lookup _ _ _ _ (heap_redrawn_shaped _ _ H) Ho) as (o' & Ho' & Hk' & _).
    exists o'. split; [done|congruence].
  - intros Hdy Hdc. by eapply pending_ok_redrawn, Hpend.
Qed.

(** [tick] after the writes of a handler: it goes through when the redraw is
    safe, keeps class and elements of every object, and leaves no trailing
    outline behind when every pending one was in the registry. *)
Lemma tick_registry (s : State) :
  registry_ok (heap s) (allObjects s) ->
  (forall r o, heap s !! r = Some o -> trailing o = true ->
     r ∈ allObjects s
     /\ forall st, o = OStack st -> is_Some (first_card (heap s) (Stack.elems st))) ->
  exists s', tick s = Some s'
    /\ registry_ok (heap s') (allObjects s') /\ no_trailing (heap s')
    /\ heap_redrawn (heap s) (heap s')
    /\ allObjects s' = allObjects s /\ dragging s' = dragging s
    /\ lastDragged s' = lastDragged s.
Proof.
  intros Hreg Htr.
  assert (Hsafe : tick_safe (heap s) (reverse (allObjects s))).
  { intros r Hr. rewrite elem_of_reverse in Hr. split; [by apply (reg_live _ _ Hreg)|].
    intros st Hst Hl. by apply (Htr r (OStack st) Hst Hl). }
  destruct (draw_all_total (dragging s) _ _ Hsafe) as [h' Hdraw].
  pose proof (draw_all_redrawn _ _ _ _ Hdraw) as Hred.
  exists (with_heap h' s). unfold tick. rewrite Hdraw. simpl.
  split; [done|]. split; [|split; [|done]].
  - by apply (registry_ok_shaped (heap s)); [apply heap_redrawn_shaped|].
  - intros r o' Ho'. destruct (trailing o') eqn:Ht; [|done].
    destruct (trailing_redrawn _ _ r o' Hred Ho' Ht) as (o & Ho & Hto).
    destruct (Htr r o Ho Hto) as [Hin _].
    rewrite <- Ht. eapply (draw_all_untrail _ _ _ _ r o' Hdraw); [|done].
    by apply elem_of_reverse.
Qed.

Lemma tick_inv (s : State) :
  registry_ok (heap s) (allObjects s) ->
  session_ok s ->
  (forall r o, heap s !! r = Some o -> trailing o = true ->
     r ∈ allObjects s
     /\ forall st, o = OStack st -> is_Some (first_card (heap s) (Stack.elems st))) ->
  exists s', tick s = Some s' /\ inv s'
    /\ heap_redrawn (heap s) (heap s')
    /\ allObjects s' = allObjects s /\ dragging s' = dragging s
    /\ lastDragged s' = lastDragged s.
Proof.
  intros Hreg Hses Htr.
  destruct (tick_registry s Hreg Htr) as (s' & Ht & Hreg' & Htr' & Hred & Hall & Hdr & Hl).
  exists s'. split; [done|]. split; [|done].
  split; [done| |done]. by apply (session_ok_redrawn s).
Qed.

Lemma tick_inv_quiet (s : State) :
  registry_ok (heap s) (allObjects s) -> session_ok s -> no_trailing (heap s) ->
  exists s', tick s = Some s' /\ inv s' /\ cards_of s' = cards_of s.
Proof.
  intros Hreg Hses Htr.
  destruct (tick_inv s Hreg Hses) as (s' & Ht & Hinv & Hred & Hall & _).
  { intros r o Hr Ht. by rewrite (Htr r o Hr) in Ht. }
  exists s'. split; [done|]. split; [done|].
  unfold cards_of. rewrite Hall. by apply cards_in_shaped, heap_redrawn_shaped.
Qed.

(** ** The registry under permutations *)

Lemma cards_in_perm (h : Heap) (l l' : list ref) :
  l ≡ₚ l' -> cards_in h l ≡ₚ cards_in h l'.
Proof. intros H. unfold cards_in. by rewrite H. Qed.

Lemma registry_ok_perm (h : Heap) (l l' : list ref) :
  l ≡ₚ l' -> registry_ok h l -> registry_ok h l'.
Proof.
  intros H [Hnd Hlive Hmem Hcards]. split.
  - by rewrite <- H.
  - intros r Hr. apply Hlive. by rewrite H.
  - intros r Hr. apply Hmem. by rewrite (cards_in_perm h l l').
  - by rewrite <- (cards_in_perm h l l').
Qed.

Lemma cards_in_owned_perm (h h' : Heap) (l : list ref) :
  (forall x, x ∈ l -> owned h' x ≡ₚ owned h x) -> cards_in h' l ≡ₚ cards_in h l.
Proof.
  unfold cards_in. induction l as [|x l IH]; intros H; [done|].
  rewrite !bind_cons. rewrite (H x) by by left.
  rewrite IH; [done|]. intros y Hy. apply H. by right.
Qed.

Lemma raise_perm (r : ref) (l : list ref) : r ∈ l -> raise r l ≡ₚ l.
Proof.
  intros Hr. unfold raise. case_bool_decide; [done|].
  destruct (js_indexOf_elem r l Hr) as (i & -> & Hi).
  rewrite (js_splice_delete i l r Hi). by rewrite <- delete_Permutation.
Qed.

(** ** A redraw leaves the scene drawn *)

Lemma draw_Stack_loop_false (d : option Dragging.t) (l : list ref) (b : Z) :
  draw_Stack_loop d l b OIFalse = OIFalse.
Proof.
  revert b. induction l as [|a l IH]; intros b; [reflexivity|].
  simpl. destruct (spec_hit d a); apply IH.
Qed.

Lemma draw_Stack_loop_cases (d : option Dragging.t) (l : list ref) (b : Z)
    (oi : OutlineIndex) :
  draw_Stack_loop d l b oi = oi \/ draw_Stack_loop d l b oi = OIFalse.
Proof.
  revert b oi. induction l as [|a l IH]; intros b oi; [by left|].
  simpl. destruct (oi_is b oi || spec_hit d a).
  - right. apply draw_Stack_loop_false.
  - apply IH.
Qed.

(** After the loop no member of the Stack is left with the outline index. *)
Lemma draw_Stack_loop_range (d : option Dragging.t) (l : list ref) (b : Z)
    (oi : OutlineIndex) (b' : Z) :
  (b <= b' < b + Z.of_nat (length l))%Z ->
  oi_is b' (draw_Stack_loop d l b oi) = false.
Proof.
  revert b oi. induction l as [|a l IH]; intros b oi Hb'; simpl in *; [lia|].
  destruct (oi_is b oi || spec_hit d a) eqn:E.
  - by rewrite draw_Stack_loop_false.
  - apply orb_false_iff in E as [E _].
    destruct (Z.eq_dec b' b) as [->|Hne]; [|apply IH; lia].
    by destruct (draw_Stack_loop_cases d l (b + 1) oi) as [Hc|Hc]; rewrite Hc.
Qed.

Lemma draw_ref_settles (d : option Dragging.t) (h h1 : Heap) (r : ref) :
  draw_ref d h r = Some h1 -> settled h1 r.
Proof.
  unfold draw_ref, settled. destruct (h !! r) as [[c|s|p]|] eqn:Hr; simpl; [| | |done].
  - intros [= <-]. unfold draw_Card. destruct (Card.outline c) eqn:Ho.
    + by exists (OCard c).
    + eexists. split; [apply lookup_insert_eq|]. reflexivity.
    + eexists. split; [apply lookup_insert_eq|]. reflexivity.
  - unfold draw_Stack. destruct (Stack.lastOutline s) eqn:Hl.
    + destruct (first_card h (Stack.elems s)); [|done]. intros [= <-].
      eexists. split; [apply lookup_insert_eq|]. simpl. split; [done|].
      intros b Hb. apply draw_Stack_loop_range. lia.
    + intros [= <-]. eexists. split; [apply lookup_insert_eq|]. simpl.
      split; [done|]. intros b Hb. apply draw_Stack_loop_range. lia.
  - intros [= <-]. unfold draw_Pile.
    destruct (first_card h (Pile.elems p)) as [c|] eqn:Hc.
    + unfold first_card in Hc. unfold alter_first_card.
      destruct (Pile.elems p) as [|r0 l] eqn:He; [done|].
      destruct (h !! r0) as [[c0| |]|] eqn:Hr0; try done.
      assert (Hne : r0 <> r) by congruence.
      destruct (Pile.isOutline p) eqn:Hout.
      * eexists. split; [apply lookup_insert_eq|]. simpl. rewrite He. simpl.
        rewrite lookup_insert_ne by done. by rewrite lookup_insert_eq.
      * exists (OPile p). split; [by rewrite lookup_insert_ne|]. simpl.
        rewrite He. simpl. by rewrite lookup_insert_eq.
    + exists (OPile p). split; [done|]. simpl. by rewrite Hc.
Qed.

(** A redraw of [y] writes [y] and, for a Pile, the Card on its top. *)
Lemma draw_ref_other (d : option Dragging.t) (h h1 : Heap) (y t : ref) :
  draw_ref d h y = Some h1 -> t <> y ->
  (t ∉ owned h y) \/ ~ is_card h t ->
  h1 !! t = h !! t.
Proof.
  unfold draw_ref, owned. destruct (h !! y) as [[c|s|p]|] eqn:Hy; simpl; [| | |done].
  - intros [= <-] Hne _. unfold draw_Card.
    destruct (Card.outline c); [done| |]; by rewrite lookup_insert_ne.
  - unfold draw_Stack. intros H Hne _.
    destruct (Stack.lastOutline s);
      [destruct (first_card h (Stack.elems s)); [|done]|];
      injection H as <-; by rewrite lookup_insert_ne.
  - intros [= <-] Hne Ht. unfold draw_Pile.
    destruct (first_card h (Pile.elems p)) as [c|] eqn:Hc; [|done].
    unfold first_card in Hc. unfold alter_first_card.
    destruct (Pile.elems p) as [|r0 l] eqn:He; [done|].
    destruct (h !! r0) as [[c0| |]|] eqn:Hr0; try done.
    assert (Hne0 : r0 <> t).
    { intros ->. destruct Ht as [Ht|Ht]; [apply Ht; by left|].
      apply Ht. by exists c0. }
    destruct (Pile.isOutline p); rewrite ?(lookup_insert_ne _ y) by done;
      by rewrite lookup_insert_ne.
Qed.

Lemma draw_ref_frame (d : option Dragging.t) (h h1 : Heap) (y r : ref) :
  draw_ref d h y = Some h1 -> r <> y -> y ∉ owned h r ->
  (forall t, t ∈ owned h r -> t ∉ owned h y) ->
  settled h r -> settled h1 r.
Proof.
  intros Hdraw Hne Hy Hdisj (o & Hr & Hd).
  assert (Hr1 : h1 !! r = h !! r).
  { apply (draw_ref_other d h h1 y r Hdraw Hne).
    destruct o as [c|s|p].
    - left. apply Hdisj. unfold owned. rewrite Hr. by left.
    - right. intros [c Hc]. congruence.
    - right. intros [c Hc]. congruence. }
  exists o. split; [congruence|].
  destruct o as [c|s|p]; simpl in *; try done.
  assert (Hfc : first_card h1 (Pile.elems p) = first_card h (Pile.elems p)).
  { unfold first_card. destruct (Pile.elems p) as [|t l] eqn:He; [done|].
    rewrite (draw_ref_other d h h1 y t Hdraw); [done| |].
    - intros ->. apply Hy. unfold owned. rewrite Hr, He. by left.
    - left. apply Hdisj. unfold owned. rewrite Hr, He. by left. }
  by rewrite Hfc.
Qed.

Lemma draw_all_frame (d : option Dragging.t) (l : list ref) (h h' : Heap) (r : ref) :
  draw_all d l h = Some h' -> r ∉ l ->
  (forall y, y ∈ l -> (y ∉ owned h r) /\ forall t, t ∈ owned h r -> t ∉ owned h y) ->
  settled h r -> settled h' r.
Proof.
  revert h. induction l as [|y l IH]; simpl; intros h.
  - by intros [= <-].
  - destruct (draw_ref d h y) as [h1|] eqn:E; simpl; [|done].
    intros Hd Hnin Hown Hs. apply not_elem_of_cons in Hnin as [Hne Hnin].
    pose proof (heap_redrawn_shaped _ _ (draw_ref_redrawn _ _ _ _ E)) as Hsh.
    apply (IH h1 Hd Hnin).
    + intros y' Hy'. rewrite !(owned_shaped h h1) by done. apply Hown. by right.
    + destruct (Hown y) as [Hy Hdisj]; [by left|].
      by apply (draw_ref_frame d h h1 y r).
Qed.

Lemma draw_all_settles (d : option Dragging.t) (l : list ref) (h h' : Heap) :
  draw_all d l h = Some h' -> NoDup l ->
  (forall r y, r ∈ l -> y ∈ l -> r <> y ->
     (y ∉ owned h r) /\ forall t, t ∈ owned h r -> t ∉ owned h y) ->
  forall r, r ∈ l -> settled h' r.
Proof.
  revert h. induction l as [|y l IH]; simpl; intros h.
  - intros _ _ _ r Hr. by apply elem_of_nil in Hr.
  - destruct (draw_ref d h y) as [h1|] eqn:E; simpl; [|done].
    intros Hd Hnd Hown r Hr. apply NoDup_cons in Hnd as [Hy Hnd].
    pose proof (heap_redrawn_shaped _ _ (draw_ref_redrawn _ _ _ _ E)) as Hsh.
    apply elem_of_cons in Hr as [->|Hr].
    + apply (draw_all_frame d l h1 h' y Hd Hy).
      * intros y' Hy'. rewrite !(owned_shaped h h1) by done.
        apply Hown; [by left|by right|]. intros ->. done.
      * by apply (draw_ref_settles d h).
    + apply (IH h1 Hd Hnd); [|done].
      intros r' y' Hr' Hy' Hne. rewrite !(owned_shaped h h1) by done.
      apply Hown; [by right|by right|done].
Qed.

(** Two entries of a sound registry stand for different Cards, and neither
    is a Card of the other. *)
Lemma registry_apart (h : Heap) (l : list ref) (r y : ref) :
  registry_ok h l -> r ∈ l -> y ∈ l -> r <> y ->
  (y ∉ owned h r) /\ forall t, t ∈ owned h r -> t ∉ owned h y.
Proof.
  intros [Hnd Hlive Hmem Hcards] Hr Hy Hne.
  assert (Hdisj : forall t, t ∈ owned h r -> t ∉ owned h y).
  { clear Hnd Hlive Hmem. unfold cards_in in Hcards.
    induction l as [|a l IH]; [by apply elem_of_nil in Hr|].
    rewrite bind_cons in Hcards. apply NoDup_app in Hcards as (_ & Hd & Hrest).
    apply elem_of_cons in Hr as [->|Hr]; apply elem_of_cons in Hy as [->|Hy].
    - done.
    - intros t Ht Hty. apply (Hd t Ht). by apply (member_in_cards h l y).
    - intros t Ht Hty. apply (Hd t Hty). by apply (member_in_cards h l r).
    - by apply IH. }
  split; [|exact Hdisj].
  intros Hin. destruct (Hmem y) as [c Hc]; [by apply (member_in_cards h l r)|].
  apply (Hdisj y Hin). unfold owned. rewrite Hc. by left.
Qed.

Lemma tick_leaves_drawn (s s' : State) :
  registry_ok (heap s) (allObjects s) -> tick s = Some s' -> drawn s'.
Proof.
  intros Hreg. unfold tick.
  destruct (draw_all _ _ _) as [h'|] eqn:E; simpl; [|done].
  intros [= <-] r Hr. simpl in *.
  apply (draw_all_settles _ _ _ _ E).
  - rewrite reverse_Permutation. apply Hreg.
  - intros r' y' Hr' Hy'. rewrite elem_of_reverse in Hr', Hy'.
    by apply (registry_apart (heap s) (allObjects s)).
  - by apply elem_of_reverse.
Qed.

(** ** The redraw of one entry does not depend on the others *)

Lemma first_card_agree (h1 h2 : Heap) (l : list ref) :
  (forall t, t ∈ l -> h2 !! t = h1 !! t) -> first_card h2 l = first_card h1 l.
Proof.
  intros H. destruct l as [|t l]; [done|]. simpl. rewrite H; [done|by left].
Qed.

(** [draw] of [r] reads and writes [r] and the Cards of [r] only. *)
Lemma draw_ref_local (d : option Dragging.t) (h1 h2 h1' : Heap) (r : ref) :
  h2 !! r = h1 !! r -> (forall t, t ∈ owned h1 r -> h2 !! t = h1 !! t) ->
  draw_ref d h1 r = Some h1' ->
  exists h2', draw_ref d h2 r = Some h2'
    /\ h2' !! r = h1' !! r /\ forall t, t ∈ owned h1 r -> h2' !! t = h1' !! t.
Proof.
  intros Hr Hown. unfold draw_ref, owned in *. rewrite Hr.
  destruct (h1 !! r) as [[c|s|p]|] eqn:E; simpl; [| | |done].
  - intros [= <-]. eexists. split; [reflexivity|]. unfold draw_Card.
    destruct (Card.outline c).
    + split; [congruence|]. intros t Ht. by apply Hown.
    + rewrite !lookup_insert_eq. split; [done|]. intros t Ht.
      apply list_elem_of_singleton in Ht as ->. by rewrite !lookup_insert_eq.
    + rewrite !lookup_insert_eq. split; [done|]. intros t Ht.
      apply list_elem_of_singleton in Ht as ->. by rewrite !lookup_insert_eq.
  - unfold draw_Stack. rewrite (first_card_agree h1 h2 _ Hown).
    intros H.
    assert (Hgen : forall o, exists h2', Some (<[r := o]> h2) = Some h2'
              /\ h2' !! r = <[r := o]> h1 !! r
              /\ forall t, t ∈ Stack.elems s -> h2' !! t = <[r := o]> h1 !! t).
    { intros o. eexists. split; [reflexivity|]. rewrite !lookup_insert_eq.
      split; [done|]. intros t Ht. rewrite !lookup_insert.
      case_decide; [done|by apply Hown]. }
    destruct (Stack.lastOutline s);
      [destruct (first_card h1 (Stack.elems s)); [|done]|];
      injection H as <-; apply Hgen.
  - intros [= <-]. eexists. split; [reflexivity|]. unfold draw_Pile.
    rewrite (first_card_agree h1 h2 _ Hown).
    destruct (first_card h1 (Pile.elems p)) as [c|] eqn:Hc.
    + unfold first_card in Hc. unfold alter_first_card.
      destruct (Pile.elems p) as [|r0 l] eqn:He; [done|].
      rewrite (Hown r0) by (by left).
      destruct (h1 !! r0) as [[c0| |]|] eqn:Hr0; try done.
      destruct (Pile.isOutline p).
      * rewrite !lookup_insert_eq. split; [done|]. intros t Ht.
        rewrite !lookup_insert. repeat case_decide; try done. by apply Hown.
      * rewrite !lookup_insert. split.
        { case_decide; [done|congruence]. }
        intros t Ht. rewrite !lookup_insert. case_decide; [done|by apply Hown].
    + split; [congruence|]. intros t Ht. by apply Hown.
Qed.

Lemma draw_all_independent (d : option Dragging.t) (l : list ref) (h h' : Heap) :
  draw_all d l h = Some h' -> NoDup l ->
  (forall r y, r ∈ l -> y ∈ l -> r <> y ->
     (y ∉ owned h r) /\ forall t, t ∈ owned h r -> t ∉ owned h y) ->
  (forall r, r ∈ l ->
     exists hr, draw_ref d h r = Some hr /\ h' !! r = hr !! r
       /\ forall t, t ∈ owned h r -> h' !! t = hr !! t)
  /\ (forall t, t ∉ l -> (forall y, y ∈ l -> t ∉ owned h y) -> h' !! t = h !! t).
Proof.
  revert h. induction l as [|y l IH]; simpl; intros h.
  - intros [= <-] _ _. split; [|done]. intros r Hr. by apply elem_of_nil in Hr.
  - destruct (draw_ref d h y) as [h1|] eqn:E; simpl; [|done].
    intros Hd Hnd Hap. apply NoDup_cons in Hnd as [Hy Hnd].
    pose proof (heap_redrawn_shaped _ _ (draw_ref_redrawn _ _ _ _ E)) as Hsh.
    assert (Hap1 : forall r y0, r ∈ l -> y0 ∈ l -> r <> y0 ->
              (y0 ∉ owned h1 r) /\ forall t, t ∈ owned h1 r -> t ∉ owned h1 y0).
    { intros r y0 Hr Hy0 Hne. rewrite !(owned_shaped h h1) by done.
      apply Hap; [by right|by right|done]. }
    destruct (IH h1 Hd Hnd Hap1) as [IH1 IH2].
    assert (Hne : forall r, r ∈ l -> r <> y) by (intros r Hr ->; done).
    split.
    + intros r Hr. apply elem_of_cons in Hr as [->|Hr].
      * exists h1. split; [done|].
        assert (Hoff : forall t, t ∈ owned h y -> t ∉ l).
        { intros t Ht Htl.
          destruct (Hap y t) as [Hc _]; [by left|by right|by intros <-|]. done. }
        split.
        { apply IH2; [done|]. intros y0 Hy0. rewrite (owned_shaped h h1) by done.
          apply (Hap y0 y); [by right|by left|by apply Hne]. }
        intros t Ht. apply IH2; [by apply Hoff|].
        intros y0 Hy0. rewrite (owned_shaped h h1) by done.
        apply (Hap y y0); [by left|by right| |done]. intros ->. done.
      * destruct (IH1 r Hr) as (hr1 & Hdr & Hr1 & Hown1).
        rewrite (owned_shaped h h1) in Hown1 by done.
        destruct (Hap y r) as [Hry Hdis]; [by left|by right|by intros <-|].
        destruct (Hap r y) as [Hyr Hdis']; [by right|by left|by apply Hne|].
        destruct (draw_ref_local d h1 h hr1 r) as (hr & Hdr' & Hr' & Hown');
          [| |done|].
        { symmetry. apply (draw_ref_other d h h1 y r E); [by apply Hne|by left]. }
        { intros t Ht. rewrite (owned_shaped h h1) in Ht by done. symmetry.
          apply (draw_ref_other d h h1 y t E); [|left; by apply Hdis'].
          intros ->. done. }
        rewrite (owned_shaped h h1) in Hown' by done.
        exists hr. split; [done|]. split; [congruence|].
        intros t Ht. rewrite Hown1, Hown'; done.
    + intros t Ht Hoff. apply not_elem_of_cons in Ht as [Hty Ht].
      rewrite IH2; [|done|].
      * apply (draw_ref_other d h h1 y t E); [done|]. left. apply Hoff. by left.
      * intros y0 Hy0. rewrite (owned_shaped h h1) by done. apply Hoff. by right.
Qed.

(** After [tick] every entry of the registry, with its Cards, is as if it
    alone had been drawn; whatever no entry stands for is untouched. *)
Lemma tick_footprints (s s' : State) :
  registry_ok (heap s) (allObjects s) -> tick s = Some s' ->
  (forall r, r ∈ allObjects s ->
     exists hr, draw_ref (dragging s) (heap s) r = Some hr
       /\ heap s' !! r = hr !! r
       /\ forall t, t ∈ owned (heap s) r -> heap s' !! t = hr !! t)
  /\ (forall t, t ∉ allObjects s -> t ∉ cards_of s -> heap s' !! t = heap s !! t).
Proof.
  intros Hreg. unfold tick.
  destruct (draw_all _ _ _) as [h'|] eqn:E; simpl; [|done]. intros [= <-]. simpl.
  destruct (draw_all_independent _ _ _ _ E) as [H1 H2].
  - rewrite reverse_Permutation. apply Hreg.
  - intros r y Hr Hy. rewrite elem_of_reverse in Hr, Hy.
    by apply (registry_apart (heap s) (allObjects s)).
  - split.
    + intros r Hr. apply H1. by apply elem_of_reverse.
    + intros t Ht Hc. apply H2; [by rewrite elem_of_reverse|].
      intros y Hy Hty. rewrite elem_of_reverse in Hy. apply Hc.
      by apply (member_in_cards _ _ y).
Qed.

Lemma set_outline_false_id (c : Card.t) :
  Card.outline c = OutlineFalse -> Card.set_outline OutlineFalse c = c.
Proof. destruct c; simpl. by intros ->. Qed.

(** What a redraw does to the Cards, in a registry that is sound: a lone
    Card of the registry only loses a pending outline; the Card on top of a
    Pile of the registry is put at the Pile's position at size 0.5 and is
    otherwise as before; every other Card - a member of a Stack, a Card
    below the top of a Pile, a Card the registry does not reach - is exactly
    as before. *)
Lemma tick_cards (s s' : State) (t : ref) (c : Card.t) :
  registry_ok (heap s) (allObjects s) -> tick s = Some s' ->
  heap s !! t = Some (OCard c) ->
  (t ∈ allObjects s ->
     heap s' !! t = Some (OCard (Card.set_outline OutlineFalse c)))
  /\ (forall g p, g ∈ allObjects s -> heap s !! g = Some (OPile p) ->
        head (Pile.elems p) = Some t ->
        heap s' !! t
        = Some (OCard (Card.set_size half
                         (Card.set_y (Pile.Y p) (Card.set_x (Pile.X p) c)))))
  /\ ((t ∉ allObjects s) ->
      (forall g p, g ∈ allObjects s -> heap s !! g = Some (OPile p) ->
         head (Pile.elems p) <> Some t) ->
      heap s' !! t = Some (OCard c)).
Proof.
  intros Hreg Ht Hc. destruct (tick_footprints s s' Hreg Ht) as [H1 H2].
  split; [|split].
  - intros Hin. destruct (H1 t Hin) as (hr & Hd & Hr & _). rewrite Hr.
    unfold draw_ref in Hd. rewrite Hc in Hd. simpl in Hd. injection Hd as <-.
    unfold draw_Card. destruct (Card.outline c) eqn:Ho.
    + by rewrite set_outline_false_id.
    + by rewrite lookup_insert_eq.
    + by rewrite lookup_insert_eq.
  - intros g p Hg Hp Hhd. destruct (H1 g Hg) as (hr & Hd & _ & Hown).
    rewrite (Hown t).
    2:{ unfold owned. rewrite Hp. by apply head_Some_elem_of. }
    unfold draw_ref in Hd. rewrite Hp in Hd. simpl in Hd. injection Hd as <-.
    unfold draw_Pile, first_card, alter_first_card.
    destruct (Pile.elems p) as [|r0 l]; [done|]. injection Hhd as ->.
    rewrite Hc. assert (Hne : g <> t) by congruence.
    destruct (Pile.isOutline p); rewrite ?(lookup_insert_ne _ g) by done;
      by rewrite lookup_insert_eq.
  - intros Hnin Htop. destruct (decide (t ∈ cards_of s)) as [Hin|Hout].
    2:{ by rewrite H2. }
    apply list_elem_of_bind in Hin as (g & Hown & Hg).
    destruct (H1 g Hg) as (hr & Hd & _ & Hagree). rewrite (Hagree t Hown).
    assert (Hne : g <> t) by (intros ->; done).
    unfold owned in Hown. unfold draw_ref in Hd.
    destruct (heap s !! g) as [[c0|st|p]|] eqn:Eg; simpl in Hd;
      [by apply list_elem_of_singleton in Hown| | |done].
    + unfold draw_Stack in Hd.
      destruct (Stack.lastOutline st);
        [destruct (first_card (heap s) (Stack.elems st)); [|done]|];
        injection Hd as <-; by rewrite lookup_insert_ne.
    + injection Hd as <-. unfold draw_Pile.
      destruct (first_card (heap s) (Pile.elems p)) as [c0|] eqn:Hfc; [|done].
      specialize (Htop g p Hg Eg). unfold alter_first_card.
      destruct (Pile.elems p) as [|r0 l]; [done|]. simpl in Hfc.
      destruct (heap s !! r0) as [[c1| |]|] eqn:Er0; try done.
      assert (Hne0 : r0 <> t) by (intros ->; by apply Htop).
      destruct (Pile.isOutline p); rewrite ?(lookup_insert_ne _ g) by done;
        by rewrite lookup_insert_ne.
Qed.

(** ** What a press picks *)

Lemma js_indexOf_first (r : ref) (l : list ref) (i : nat) :
  l !! i = Some r -> (forall j, j < i -> l !! j <> Some r) ->
  js_indexOf r l = Z.of_nat i.
Proof.
  intros Hi Hmin. unfold js_indexOf.
  destruct (js_findIndex_spec (fun a => bool_decide (a = r)) l)
    as [[_ Hnone]|(k & a & Hk & Hlk & Hp & Hfirst)].
  - assert (Hin : r ∈ l) by (by eapply list_elem_of_lookup_2).
    apply Hnone in Hin. by rewrite bool_decide_eq_false in Hin.
  - rewrite Hk. apply bool_decide_eq_true in Hp as ->.
    destruct (lt_eq_lt_dec k i) as [[Hlt | ->] | Hgt]; [|done|].
    + by destruct (Hmin k Hlt).
    + specialize (Hfirst i r Hgt Hi). by rewrite bool_decide_eq_false in Hfirst.
Qed.

Lemma js_indexOf_NoDup (r : ref) (l : list ref) (i : nat) :
  NoDup l -> l !! i = Some r -> js_indexOf r l = Z.of_nat i.
Proof.
  intros Hnd Hi. apply js_indexOf_first; [done|].
  intros j Hj Hjr. pose proof (NoDup_lookup _ _ _ _ Hnd Hi Hjr). lia.
Qed.

Lemma raise_first (r : ref) (l : list ref) (i : nat) :
  l !! i = Some r -> (forall j, j < i -> l !! j <> Some r) ->
  raise r l = r :: delete i l.
Proof.
  intros Hi Hmin. unfold raise. case_bool_decide as Hhd.
  - destruct l as [|a l]; [done|]. injection Hhd as ->.
    destruct i as [|i]; [done|]. destruct (Hmin 0%nat); [lia|done].
  - rewrite (js_indexOf_first r l i Hi Hmin).
    by rewrite (js_splice_delete i l r Hi).
Qed.

(** The session a press opens, and the state handed to the redraw. *)
Lemma mousedown_session (e : Ev.t) (s s' : State) (d : Dragging.t) :
  dragging s = None -> mousedown e s = Some s' -> dragging s' = Some d ->
  exists o,
    heap s !! Dragging.object d = Some o
    /\ isIn_ref (heap s) (Ev.clientX e) (Ev.clientY e) (Dragging.object d) = true
    /\ Dragging.object d ∈ allObjects s
    /\ let o1 := press_flip (Ev.button e) o in
       let h1 := <[Dragging.object d := o1]> (heap s) in
       d = Dragging.mk (kind_of o) (Dragging.object d) (Ev.clientX e) (Ev.clientY e)
             (Ev.timeStamp e)
             (is_doubleClick (lastDragged s) (Ev.timeStamp e) (Dragging.object d))
             (press_specCard h1 o1 (Ev.clientX e) (Ev.clientY e))
             (press_specCardIndex h1 o1 (Ev.clientX e) (Ev.clientY e))
             false (Dragging.index d) None None
       /\ tick (mkState h1 (raise (Dragging.object d) (allObjects s)) (Some d)
                  (lastDragged s)) = Some s'.
Proof.
  intros Hidle Hdown Hd. unfold mousedown in Hdown. rewrite Hidle in Hdown.
  destruct (js_get _ _) as [object|] eqn:Hget.
  2:{ injection Hdown as <-. congruence. }
  destruct (heap s !! object) as [o|] eqn:Ho; simpl in Hdown; [|done].
  pose proof (tick_fields _ _ Hdown) as (_ & Hd' & _). simpl in Hd'.
  rewrite Hd in Hd'. injection Hd' as Hd'.
  apply js_get_findIndex in Hget as (i & _ & Hi & Hin).
  assert (Hobj : Dragging.object d = object) by (by rewrite Hd').
  rewrite Hobj. exists o. split; [done|]. split; [done|].
  split; [by eapply list_elem_of_lookup_2|]. simpl.
  split; [by rewrite Hd' at 1; rewrite Hd'|]. by rewrite <- Hd' in Hdown.
Qed.

(** ** Press, release, press *)

Lemma mouseup_no_hover (s : State) (d : Dragging.t) :
  dragging s = Some d -> Dragging.over d = None ->
  mouseup s = tick (mkState (heap s) (allObjects s) None (Some d)).
Proof.
  intros Hd Ho. unfold mouseup, release, drop_dragged. by rewrite Hd, Ho.
Qed.

Lemma redrawn_generic (o o' : Obj) :
  redrawn o o' ->
  kind_of o' = kind_of o /\ get_flipped o' = get_flipped o
  /\ get_elems o' = get_elems o /\ get_direction o' = get_direction o.
Proof.
  destruct o, o'; simpl; try done.
  - intros (-> & -> & _). done.
  - intros (-> & _ & _ & -> & -> & _). done.
  - intros (-> & _ & _ & -> & ->). done.
Qed.

(** ** What a hit says about the object *)

Lemma Stack_isIn_true (h : Heap) (st : Stack.t) (px py : double) :
  Stack_isIn h st px py = Some true ->
  supported (Stack.direction st) /\ is_Some (first_card h (Stack.elems st)).
Proof.
  intros Hin.
  assert (Hsup : supported (Stack.direction st)).
  { apply (switch_direction_supported _ true true true true).
    unfold Stack_isIn in Hin.
    destruct (switch_direction_supported (Stack.direction st) true true true true) as [_ H].
    unfold switch_direction in *.
    repeat (destruct (feqb _ _); [eauto|]). done. }
  split; [done|].
  apply supported_quarter in Hsup as [q Hq].
  unfold Stack_isIn, Stack_cornerX, Stack_cornerY in Hin.
  rewrite !(switch_direction_radians q) in Hin by done.
  unfold Stack_width, Stack_height in Hin.
  destruct (first_card h (Stack.elems st)); [eauto|].
  destruct q; simpl in Hin; rewrite ?andb_false_r in Hin; simpl in Hin; congruence.
Qed.

Lemma Pile_isIn_true (h : Heap) (p : Pile.t) (px py : double) :
  Pile_isIn h p px py = Some true -> is_Some (first_card h (Pile.elems p)).
Proof.
  intros Hin. unfold Pile_isIn, Pile_cornerX, Pile_cornerY, Pile_width, Pile_height in Hin.
  destruct (first_card h (Pile.elems p)); [eauto|].
  unfold switch_direction in Hin.
  repeat (destruct (feqb _ _);
          [simpl in Hin; rewrite ?andb_false_r in Hin; simpl in Hin; congruence|]).
  done.
Qed.

Lemma first_card_nonempty (h : Heap) (l : list ref) : is_Some (first_card h l) -> l <> [].
Proof. intros [c Hc] ->. done. Qed.

(** ** [mousedown] keeps the invariant *)

Lemma registry_ok_owned_perm (h h' : Heap) (l : list ref) :
  (forall x, owned h' x ≡ₚ owned h x) ->
  (forall x, is_Some (h !! x) -> is_Some (h' !! x)) ->
  (forall x, is_card h x -> is_card h' x) ->
  registry_ok h l -> registry_ok h' l.
Proof.
  intros Hown Hlive' Hcard [Hnd Hlive Hmem Hcards].
  assert (Hp : cards_in h' l ≡ₚ cards_in h l) by (apply cards_in_owned_perm; auto).
  split; [done|auto| |by rewrite Hp].
  intros r Hr. apply Hcard, Hmem. by rewrite <- Hp.
Qed.

Lemma press_flip_kind (b : Z) (o : Obj) : kind_of (press_flip b o) = kind_of o.
Proof.
  unfold press_flip. destruct (b =? 0)%Z; [|destruct (b =? 2)%Z];
    destruct (get_flipped o); try done; by destruct o.
Qed.

Lemma press_flip_trailing (b : Z) (o : Obj) : trailing (press_flip b o) = trailing o.
Proof.
  unfold press_flip. destruct (b =? 0)%Z; [|destruct (b =? 2)%Z];
    destruct (get_flipped o); try done; by destruct o.
Qed.

Lemma press_flip_stack (b : Z) (st : Stack.t) :
  exists st1, press_flip b (OStack st) = OStack st1
    /\ Stack.elems st1 ≡ₚ Stack.elems st
    /\ Stack.direction st1 = Stack.direction st
    /\ Stack.X st1 = Stack.X st /\ Stack.Y st1 = Stack.Y st.
Proof.
  unfold press_flip. destruct (b =? 0)%Z; [|destruct (b =? 2)%Z];
    simpl; destruct (Stack.flipped st); simpl; eexists; (split; [done|]); simpl;
    rewrite ?reverse_Permutation; done.
Qed.

Lemma press_flip_pile (b : Z) (p : Pile.t) :
  exists p1, press_flip b (OPile p) = OPile p1 /\ Pile.elems p1 ≡ₚ Pile.elems p.
Proof.
  unfold press_flip. destruct (b =? 0)%Z; [|destruct (b =? 2)%Z];
    simpl; destruct (Pile.flipped p); simpl; eexists; (split; [done|]); simpl;
    rewrite ?reverse_Permutation; done.
Qed.

Lemma press_flip_owned (b : Z) (h : Heap) (g : ref) (o : Obj) (x : ref) :
  h !! g = Some o -> owned (<[g := press_flip b o]> h) x ≡ₚ owned h x.
Proof.
  intros Hg. unfold owned. destruct (decide (g = x)) as [<-|Hne].
  - rewrite lookup_insert_eq, Hg. destruct o as [c|st|p].
    + pose proof (press_flip_kind b (OCard c)) as Hk.
      destruct (press_flip b (OCard c)); simpl in Hk; done.
    + by destruct (press_flip_stack b st) as (st1 & -> & Hp & _).
    + by destruct (press_flip_pile b p) as (p1 & -> & Hp).
  - by rewrite lookup_insert_ne.
Qed.

Lemma Permutation_nonempty {A} (l l' : list A) : l ≡ₚ l' -> l <> [] -> l' <> [].
Proof. intros H Hne ->. apply Hne. by apply Permutation_nil_r. Qed.

(** [indexOf] returns -1 or an index of the array. *)
Lemma js_indexOf_range (r : ref) (l : list ref) :
  (-1 <= js_indexOf r l < Z.of_nat (length l))%Z.
Proof.
  unfold js_indexOf.
  destruct (js_findIndex_spec (fun a => bool_decide (a = r)) l)
    as [[-> _]|(i & a & -> & Hi & _)]; [lia|].
  apply lookup_lt_Some in Hi. lia.
Qed.

Lemma press_pending (h : Heap) (o : Obj) (object : ref) (b : Z) (px py : double)
    (d : Dragging.t) :
  h !! object = Some o ->
  isIn_ref h px py object = true ->
  let o1 := press_flip b o in
  let h1 := <[object := o1]> h in
  Dragging.type d = kind_of o ->
  Dragging.object d = object ->
  Dragging.specCardIndex d = press_specCardIndex h1 o1 px py ->
  pending_ok h1 d.
Proof.
  intros Ho Hin o1 h1 Hty Hobj Hidx. unfold pending_ok. rewrite Hty, Hobj.
  unfold isIn_ref in Hin. rewrite Ho in Hin.
  destruct o as [c|st|p]; simpl; [done| |].
  - simpl in Hin. destruct (Stack_isIn h st px py) as [[]|] eqn:E; try done.
    apply Stack_isIn_true in E as (Hsup & Hfc).
    destruct (press_flip_stack b st) as (st1 & Hst1 & Hperm & Hdir & HX & HY).
    assert (Hne : Stack.elems st1 <> []).
    { apply first_card_nonempty in Hfc.
      apply (Permutation_nonempty (Stack.elems st)); [by symmetry|done]. }
    subst h1 o1. rewrite Hst1 in *.
    eexists st1, _. split; [apply lookup_insert_eq|].
    split; [exact Hidx|]. split; [|split; [done|by rewrite Hdir]].
    unfold press_specCardIndex.
    destruct (press_specCard _ _ _ _) as [c|]; [apply js_indexOf_range|].
    destruct (Stack.elems st1); [done|]. simpl. lia.
  - simpl in Hin. destruct (Pile_isIn h p px py) as [[]|] eqn:E; try done.
    apply Pile_isIn_true, first_card_nonempty in E.
    destruct (press_flip_pile b p) as (p1 & Hp1 & Hperm).
    subst h1 o1. rewrite Hp1. exists p1. split; [apply lookup_insert_eq|].
    apply (Permutation_nonempty (Pile.elems p)); [by symmetry|done].
Qed.

Lemma mousedown_inv (e : Ev.t) (s : State) :
  inv s -> exists s', mousedown e s = Some s' /\ inv s' /\ cards_of s' ≡ₚ cards_of s.
Proof.
  intros Hinv. pose proof Hinv as [Hreg Hses Htr]. unfold mousedown.
  destruct (dragging s) as [d0|] eqn:Hd; [by exists s|].
  destruct (js_get _ _) as [object|] eqn:Hhit; [|by exists s].
  apply js_get_findIndex in Hhit as (i & _ & Hi & Hin).
  assert (Hmem : object ∈ allObjects s) by by eapply list_elem_of_lookup_2.
  destruct (reg_live _ _ Hreg object Hmem) as [o Ho]. rewrite Ho. simpl.
  set (o1 := press_flip (Ev.button e) o).
  set (h1 := <[object := o1]> (heap s)).
  set (d := Dragging.mk _ _ _ _ _ _ _ _ _ _ _ _).
  set (s1 := mkState h1 (raise object (allObjects s)) (Some d) (lastDragged s)).
  assert (Hreg1 : registry_ok h1 (raise object (allObjects s))).
  { apply (registry_ok_perm h1 (allObjects s)); [by rewrite raise_perm|].
    apply (registry_ok_owned_perm (heap s)); [|..|done].
    - intros x. by apply press_flip_owned.
    - intros x [ox Hx]. unfold h1. destruct (decide (object = x)) as [<-|];
        [rewrite lookup_insert_eq|rewrite lookup_insert_ne by done]; eauto.
    - intros x [c Hx]. unfold h1. destruct (decide (object = x)) as [<-|Hne].
      + rewrite Ho in Hx. injection Hx as ->. unfold is_card. rewrite lookup_insert_eq.
        pose proof (press_flip_kind (Ev.button e) (OCard c)) as Hk. fold o1 in Hk.
        destruct o1; simpl in Hk; try done. eauto.
      + unfold is_card. rewrite lookup_insert_ne by done. eauto. }
  assert (Htr1 : no_trailing h1).
  { intros r o' Hr. unfold h1 in Hr. destruct (decide (object = r)) as [<-|Hne].
    - rewrite lookup_insert_eq in Hr. injection Hr as <-.
      unfold o1. rewrite press_flip_trailing. by apply (Htr object).
    - rewrite lookup_insert_ne in Hr by done. by apply (Htr r). }
  assert (Hses1 : session_ok s1).
  { intros d' [= <-]. simpl.
    destruct (raise_head object (allObjects s) Hmem) as [l' ->].
    split; [done|]. split; [|split; [|done]].
    - exists o1. split; [apply lookup_insert_eq|]. unfold o1. by rewrite press_flip_kind.
    - intros _ _.
      by apply (press_pending (heap s) o object (Ev.button e) (Ev.clientX e) (Ev.clientY e)). }
  destruct (tick_inv s1 Hreg1 Hses1) as (s' & Ht & Hinv' & Hred & Hall & _).
  { intros r o' Hr Ht. by rewrite (Htr1 r o' Hr) in Ht. }
  exists s'. split; [done|]. split; [done|].
  unfold cards_of. rewrite Hall. simpl.
  rewrite (cards_in_shaped h1 (heap s')) by by apply heap_redrawn_shaped.
  rewrite (cards_in_perm h1 _ (allObjects s)) by by apply raise_perm.
  apply cards_in_owned_perm. intros x _. by apply press_flip_owned.
Qed.

(** ** Moving Cards between the registry and the groups *)

Lemma owned_card (h : Heap) (r : ref) : is_card h r -> owned h r = [r].
Proof. intros [c Hc]. unfold owned. by rewrite Hc. Qed.

Lemma owned_group (h : Heap) (g : ref) (o : Obj) (l : list ref) :
  h !! g = Some o -> get_elems o = Some l -> owned h g = l.
Proof. intros Hg Hl. unfold owned. rewrite Hg. destruct o; simpl in *; by simplify_eq. Qed.

Lemma no_trailing_insert (h : Heap) (r : ref) (o : Obj) :
  no_trailing h -> trailing o = false -> no_trailing (<[r := o]> h).
Proof.
  intros Hn Ho r' o' Hr'. destruct (decide (r = r')) as [<-|Hne].
  - rewrite lookup_insert_eq in Hr'. by injection Hr' as <-.
  - rewrite lookup_insert_ne in Hr' by done. by eapply Hn.
Qed.

Lemma is_card_insert_ne (h : Heap) (g r : ref) (o : Obj) :
  g <> r -> is_card h r -> is_card (<[g := o]> h) r.
Proof. intros Hne [c Hc]. exists c. by rewrite lookup_insert_ne. Qed.

Lemma cards_in_insert_notin (h : Heap) (g : ref) (o : Obj) (l : list ref) :
  g ∉ l -> cards_in (<[g := o]> h) l = cards_in h l.
Proof.
  intros Hg. apply cards_in_ext. intros r Hr. apply lookup_insert_ne. by intros ->.
Qed.

Lemma group_not_card (h : Heap) (g : ref) (o : Obj) :
  h !! g = Some o -> kind_of o <> KCard -> ~ is_card h g.
Proof. intros Hg Hk [c Hc]. rewrite Hg in Hc. by injection Hc as ->. Qed.

(** A Card at the head of the registry moves into the group [ov]. *)
Lemma registry_absorb (h : Heap) (r0 ov : ref) (rest : list ref) (o o' : Obj)
    (l l' : list ref) :
  registry_ok h (r0 :: rest) -> is_card h r0 -> ov ∈ rest ->
  h !! ov = Some o -> kind_of o <> KCard -> kind_of o' = kind_of o ->
  get_elems o = Some l -> get_elems o' = Some l' -> l' ≡ₚ r0 :: l ->
  registry_ok (<[ov := o']> h) rest
  /\ cards_in (<[ov := o']> h) rest ≡ₚ cards_in h (r0 :: rest).
Proof.
  intros [Hnd Hlive Hmem Hcards] Hr0 Hov Ho Hk Hk' Hl Hl' Hperm.
  apply NoDup_cons in Hnd as [Hr0n Hnd].
  apply list_elem_of_lookup in Hov as [j Hj].
  pose proof (delete_Permutation rest j ov Hj) as Hrest.
  assert (Hovn : ov ∉ delete j rest).
  { rewrite Hrest in Hnd. by apply NoDup_cons in Hnd as [? _]. }
  set (h' := <[ov := o']> h).
  assert (Hc : cards_in h' rest ≡ₚ cards_in h (r0 :: rest)).
  { rewrite (cards_in_perm h' rest _ Hrest).
    rewrite (cards_in_perm h (r0 :: rest) (r0 :: ov :: delete j rest))
      by by rewrite <- Hrest.
    unfold cards_in at 1 2. rewrite !bind_cons.
    fold (cards_in h' (delete j rest)). fold (cards_in h (delete j rest)).
    unfold h'. rewrite cards_in_insert_notin by done.
    rewrite (owned_group _ ov o' l') by (apply lookup_insert_eq || done).
    rewrite (owned_group h ov o l) by done. rewrite (owned_card h r0) by done.
    rewrite Hperm. done. }
  split; [|done]. split; [done| | |].
  - intros r Hr. unfold h'. destruct (decide (ov = r)) as [<-|Hne];
      [rewrite lookup_insert_eq; eauto|rewrite lookup_insert_ne by done].
    apply Hlive. by right.
  - intros r Hr. rewrite Hc in Hr. apply Hmem in Hr.
    apply is_card_insert_ne; [|done]. intros <-. by apply (group_not_card h ov o).
  - by rewrite Hc.
Qed.

(** The Card at the head of the registry and the Card at index [j] of the
    rest become the elements of a new group [g]. *)
Lemma registry_merge (h : Heap) (r0 ov g : ref) (rest : list ref) (j : nat) (o' : Obj) :
  registry_ok h (r0 :: rest) -> is_card h r0 -> is_card h ov ->
  rest !! j = Some ov -> h !! g = None ->
  get_elems o' = Some [ov; r0] ->
  registry_ok (<[g := o']> h) (g :: delete j rest)
  /\ cards_in (<[g := o']> h) (g :: delete j rest) ≡ₚ cards_in h (r0 :: rest).
Proof.
  intros [Hnd Hlive Hmem Hcards] Hr0 Hov Hj Hg Hl'.
  apply NoDup_cons in Hnd as [Hr0n Hnd].
  pose proof (delete_Permutation rest j ov Hj) as Hrest.
  assert (Hgn : g ∉ r0 :: rest).
  { intros Hin. apply Hlive in Hin as [? ?]. congruence. }
  assert (Hgd : g ∉ delete j rest).
  { intros Hin. apply Hgn. right. by eapply list_elem_of_delete_inv. }
  set (h' := <[g := o']> h).
  assert (Hc : cards_in h' (g :: delete j rest) ≡ₚ cards_in h (r0 :: rest)).
  { rewrite (cards_in_perm h (r0 :: rest) (r0 :: ov :: delete j rest))
      by by rewrite <- Hrest.
    unfold cards_in at 1 2. rewrite !bind_cons.
    fold (cards_in h' (delete j rest)). fold (cards_in h (delete j rest)).
    unfold h'. rewrite cards_in_insert_notin by done.
    rewrite (owned_group _ g o' [ov; r0]) by (apply lookup_insert_eq || done).
    rewrite !owned_card by done. simpl. apply perm_swap. }
  split; [|done]. split.
  - apply NoDup_cons. split; [done|]. rewrite Hrest in Hnd.
    by apply NoDup_cons in Hnd as [_ ?].
  - intros r Hr. unfold h'. destruct (decide (g = r)) as [<-|Hne];
      [rewrite lookup_insert_eq; eauto|rewrite lookup_insert_ne by done].
    apply elem_of_cons in Hr as [->|Hr]; [done|].
    apply Hlive. right. by eapply list_elem_of_delete_inv.
  - intros r Hr. rewrite Hc in Hr. apply Hmem in Hr.
    apply is_card_insert_ne; [|done]. intros <-. destruct Hr as [c Hc']. congruence.
  - by rewrite Hc.
Qed.

(** ** [mouseup] keeps the invariant *)

Lemma js_splice_insert_perm {A} (start : Z) (x : A) (l : list A) :
  (js_splice start 0 [x] l).2 ≡ₚ x :: l.
Proof.
  unfold js_splice. simpl. rewrite Nat.add_0_r.
  rewrite <- Permutation_middle. by rewrite take_drop.
Qed.

Lemma session_ok_idle (s : State) : dragging s = None -> session_ok s.
Proof. intros H d Hd. congruence. Qed.

Lemma session_split (s : State) (d : Dragging.t) :
  inv s -> dragging s = Some d ->
  exists rest o,
    allObjects s = Dragging.object d :: rest
    /\ heap s !! Dragging.object d = Some o /\ kind_of o = Dragging.type d
    /\ Dragging.object d ∉ rest.
Proof.
  intros [Hreg Hses _] Hd. destruct (Hses d Hd) as (Htop & (o & Ho & Hk) & _).
  destruct (allObjects s) as [|r0 rest] eqn:Hall; [done|].
  injection Htop as ->. exists rest, o. repeat split; try done.
  pose proof (reg_nodup _ _ Hreg) as Hnd.
  by apply NoDup_cons in Hnd as [? _].
Qed.

Lemma hover_split (s : State) (d : Dragging.t) (rest : list ref) (ov : ref) :
  inv s -> dragging s = Some d -> allObjects s = Dragging.object d :: rest ->
  Dragging.over d = Some ov ->
  Dragging.type d = KCard /\ is_card (heap s) (Dragging.object d)
  /\ ov <> Dragging.object d
  /\ exists j, Dragging.overIndex d = Some (Z.of_nat (S j)) /\ rest !! j = Some ov.
Proof.
  intros [Hreg Hses _] Hd Hall Hov.
  destruct (Hses d Hd) as (Htop & (o & Ho & Hk) & _ & Hover).
  destruct (Hover ov Hov) as (Hty & Hne & i & Hoi & Hi).
  split; [done|]. split.
  { rewrite Hty in Hk. destruct o; try done. by eexists. }
  split; [done|]. rewrite Hall in Hi. destruct i as [|j]; [simpl in Hi; congruence|].
  exists j. done.
Qed.

Lemma mouseup_inv (s : State) :
  inv s -> exists s', mouseup s = Some s' /\ inv s' /\ cards_of s' ≡ₚ cards_of s.
Proof.
  intros Hinv. pose proof Hinv as [Hreg Hses Htr]. unfold mouseup.
  destruct (dragging s) as [d|] eqn:Hd.
  2:{ simpl. destruct (tick_inv_quiet s) as (s' & Ht & Hinv' & Hc); try done.
      exists s'. by rewrite Hc. }
  destruct (session_split s d Hinv Hd) as (rest & o0 & Hall & Ho0 & Hk0 & Hnotin).
  (* every branch ends in a state with a sound registry and no session *)
  assert (Hfinish : forall h l,
            registry_ok h l -> no_trailing h -> cards_in h l ≡ₚ cards_of s ->
            exists s', tick (mkState h l None (Some d)) = Some s' /\ inv s'
                       /\ cards_of s' ≡ₚ cards_of s).
  { intros h l Hr Hn Hc.
    destruct (tick_inv_quiet (mkState h l None (Some d))) as (s' & Ht & Hinv' & Hc');
      [done|by apply session_ok_idle|done|].
    exists s'. split; [done|]. split; [done|]. by rewrite Hc'. }
  unfold release, drop_dragged. ssimpl. rewrite Hd.
  destruct (Dragging.over d) as [ov|] eqn:Hov; [|by apply Hfinish].
  destruct (hover_split s d rest ov Hinv Hd Hall Hov) as (Hty & Hcard0 & Hne & j & Hoi & Hj).
  assert (Hovin : ov ∈ rest) by by eapply list_elem_of_lookup_2.
  destruct (reg_live _ _ Hreg ov) as [o Ho]; [rewrite Hall; by right|].
  rewrite Ho. ssimpl. rewrite Hall in Hreg.
  destruct o as [oc|st|p].
  - (* on a Card *)
    unfold drop_on_card. ssimpl. rewrite Ho0. ssimpl.
    assert (Hm : forall mk_group : double -> double -> list ref -> Obj,
              (forall x0 y0 l, get_elems (mk_group x0 y0 l) = Some l
                               /\ trailing (put_direction (Card.direction oc)
                                    (put_flipped (Card.flipped oc) (mk_group x0 y0 l))) = false
                               /\ get_elems (put_direction (Card.direction oc)
                                    (put_flipped (Card.flipped oc) (mk_group x0 y0 l)))
                                  = Some l) ->
              exists s',
                (merge_cards mk_group
                   (mkState (heap s) (allObjects s) (Some d) (Some d)) d ov oc
                 ≫= (fun s1 : State =>
                       Some (mkState (heap s1) (allObjects s1) None (lastDragged s1))))
                ≫= tick = Some s'
                /\ inv s' /\ cards_of s' ≡ₚ cards_of s).
    { intros mk_group Hmk.
      rewrite (merge_cards_result mk_group _ d rest j ov oc) by done. ssimpl.
      destruct (Hmk (Card.x oc) (Card.y oc) [ov; Dragging.object d]) as (_ & Ht & He).
      destruct (registry_merge (heap s) (Dragging.object d) ov (new_ref (heap s)) rest j
                  (put_direction (Card.direction oc)
                     (put_flipped (Card.flipped oc)
                        (mk_group (Card.x oc) (Card.y oc) [ov; Dragging.object d]))))
        as [Hreg' Hc']; try done.
      { by eexists. } { apply new_ref_fresh. }
      apply Hfinish; [done|by apply no_trailing_insert|].
      unfold cards_of. by rewrite Hc', Hall. }
    destruct (band _ _ _).
    + apply Hm. intros x0 y0 l. done.
    + apply Hm. intros x0 y0 l. done.
    + simpl. apply Hfinish; [by rewrite Hall|done|done].
  - (* on a Stack *)
    unfold drop_on_stack. ssimpl. rewrite Hall. ssimpl. rewrite js_splice_0. ssimpl.
    assert (Hlf : Stack.lastOutline st = false) by apply (Htr ov (OStack st) Ho).
    rewrite Hlf.
    set (start := if gt_len _ _ then _ else _).
    set (st2 := Stack.set_elems _ st).
    destruct (registry_absorb (heap s) (Dragging.object d) ov rest (OStack st) (OStack st2)
                (Stack.elems st) (Stack.elems st2)) as [Hreg' Hc']; try done.
    { apply js_splice_insert_perm. }
    set (s1 := mkState _ rest (Some d) (Some d)).
    destruct (tick_registry s1) as (s2 & Ht2 & Hreg2 & Htr2 & Hred2 & Hall2 & _ & Hl2');
      [done| |].
    { intros r o' Hr Ht. exfalso.
      assert (Hn : no_trailing (heap s1)) by by apply no_trailing_insert.
      by rewrite (Hn r o' Hr) in Ht. }
    rewrite Ht2. simpl. rewrite Hl2'. simpl.
    apply Hfinish; [done|done|].
    rewrite Hall2. simpl.
    rewrite (cards_in_shaped (heap s1) (heap s2)) by by apply heap_redrawn_shaped.
    unfold s1, cards_of. simpl. by rewrite Hc', Hall.
  - (* on a Pile *)
    unfold drop_on_pile. ssimpl. rewrite Hall. ssimpl. rewrite js_splice_0. ssimpl.
    destruct (registry_absorb (heap s) (Dragging.object d) ov rest (OPile p)
                (OPile (Pile.set_elems (Dragging.object d :: Pile.elems p) p))
                (Pile.elems p) (Dragging.object d :: Pile.elems p))
      as [Hreg' Hc']; try done.
    apply Hfinish; [done|by apply no_trailing_insert|].
    unfold cards_of. by rewrite Hc', Hall.
Qed.

(** ** Taking a Card out of the group on top *)

Lemma registry_group_facts (h : Heap) (g : ref) (rest : list ref) (o : Obj) (l : list ref) :
  registry_ok h (g :: rest) -> h !! g = Some o -> kind_of o <> KCard ->
  get_elems o = Some l ->
  NoDup l /\ (g ∉ rest)
  /\ forall m, m ∈ l -> is_card h m /\ m <> g /\ (m ∉ rest).
Proof.
  intros [Hnd Hlive Hmem Hcards] Hg Hk Hl.
  apply NoDup_cons in Hnd as [Hgn Hnd].
  unfold cards_in in Hcards, Hmem. rewrite bind_cons in Hcards, Hmem.
  rewrite (owned_group h g o l) in Hcards, Hmem by done.
  apply NoDup_app in Hcards as (Hndl & Hdisj & _).
  split; [done|]. split; [done|]. intros m Hm.
  assert (Hcm : is_card h m) by (apply Hmem, elem_of_app; by left).
  split; [done|]. split.
  - intros ->. by apply (group_not_card h g o).
  - intros Hin. apply (Hdisj m Hm). by apply lone_card_in_cards.
Qed.

Lemma registry_extract (h : Heap) (g c : ref) (rest : list ref) (o o' : Obj)
    (l : list ref) (i : nat) :
  registry_ok h (g :: rest) -> h !! g = Some o -> kind_of o <> KCard ->
  kind_of o' = kind_of o -> get_elems o = Some l -> l !! i = Some c ->
  get_elems o' = Some (delete i l) ->
  registry_ok (<[g := o']> h) (c :: g :: rest)
  /\ cards_in (<[g := o']> h) (c :: g :: rest) ≡ₚ cards_in h (g :: rest).
Proof.
  intros Hreg Hg Hk Hk' Hl Hc Hl'.
  destruct (registry_group_facts h g rest o l Hreg Hg Hk Hl) as (Hndl & Hgn & Hfacts).
  destruct (Hfacts c) as (Hcc & Hcg & Hcr); [by eapply list_elem_of_lookup_2|].
  destruct Hreg as [Hnd Hlive Hmem Hcards].
  set (h' := <[g := o']> h).
  assert (Hcc' : is_card h' c) by by apply is_card_insert_ne.
  assert (Hp : cards_in h' (c :: g :: rest) ≡ₚ cards_in h (g :: rest)).
  { unfold cards_in. rewrite !bind_cons.
    fold (cards_in h' rest). fold (cards_in h rest).
    unfold h' at 3. rewrite cards_in_insert_notin by done.
    rewrite (owned_card h' c) by done.
    rewrite (owned_group h' g o' (delete i l)) by (apply lookup_insert_eq || done).
    rewrite (owned_group h g o l) by done.
    change ((c :: delete i l) ++ cards_in h rest ≡ₚ l ++ cards_in h rest).
    apply Permutation_app_tail. symmetry. by apply delete_Permutation. }
  split; [|done]. split.
  - apply NoDup_cons. split; [|done].
    intros Hin. apply elem_of_cons in Hin as [?|?]; done.
  - intros r Hr. unfold h'. destruct (decide (g = r)) as [<-|Hne];
      [rewrite lookup_insert_eq; eauto|rewrite lookup_insert_ne by done].
    apply elem_of_cons in Hr as [->|Hr]; [by destruct Hcc as [? ->]|by apply Hlive].
  - intros r Hr. rewrite Hp in Hr. apply Hmem in Hr.
    apply is_card_insert_ne; [|done]. intros <-. by apply (group_not_card h g o).
  - by rewrite Hp.
Qed.

(** A group on the second place that is down to one Card gives its place to
    that Card. *)
Lemma registry_collapse (h : Heap) (c g m : ref) (rest : list ref) (o : Obj) :
  registry_ok h (c :: g :: rest) -> is_card h c ->
  h !! g = Some o -> kind_of o <> KCard -> get_elems o = Some [m] ->
  registry_ok h (c :: m :: rest)
  /\ cards_in h (c :: m :: rest) = cards_in h (c :: g :: rest).
Proof.
  intros [Hnd Hlive Hmem Hcards] Hcc Hg Hk Hl.
  assert (Hm : is_card h m).
  { apply Hmem. apply (member_in_cards h _ g m); [by right; left|].
    rewrite (owned_group h g o [m]) by done. by left. }
  assert (Hp : cards_in h (c :: m :: rest) = cards_in h (c :: g :: rest)).
  { unfold cards_in. rewrite !bind_cons.
    by rewrite (owned_group h g o [m]), (owned_card h m). }
  split; [|done]. pose proof Hcards as Hcards0.
  unfold cards_in in Hcards. rewrite !bind_cons in Hcards.
  rewrite (owned_group h g o [m]), (owned_card h c) in Hcards by done.
  simpl in Hcards. apply NoDup_cons in Hcards as [Hc1 Hcards].
  apply NoDup_cons in Hcards as [Hm1 _].
  apply NoDup_cons in Hnd as [Hc2 Hnd]. apply NoDup_cons in Hnd as [_ Hnd].
  split.
  - apply NoDup_cons. split.
    + intros Hin. apply elem_of_cons in Hin as [->|Hin].
      * apply Hc1. by left.
      * apply Hc2. by right.
    + apply NoDup_cons. split; [|done].
      intros Hin. apply Hm1. by apply lone_card_in_cards.
  - intros r Hr. apply elem_of_cons in Hr as [->|Hr]; [by destruct Hcc as [? ->]|].
    apply elem_of_cons in Hr as [->|Hr]; [by destruct Hm as [? ->]|].
    apply Hlive. by do 2 right.
  - intros r Hr. rewrite Hp in Hr. by apply Hmem.
  - by rewrite Hp.
Qed.


(** ** [mousemove] keeps the invariant *)

Lemma session_ok_retitle (s : State) (d d' : Dragging.t) (ld : option Dragging.t) :
  session_ok s -> dragging s = Some d ->
  Dragging.object d' = Dragging.object d -> Dragging.type d' = Dragging.type d ->
  Dragging.over d' = Dragging.over d -> Dragging.overIndex d' = Dragging.overIndex d ->
  Dragging.draggedYet d' = true ->
  session_ok (mkState (heap s) (allObjects s) (Some d') ld).
Proof.
  intros Hs Hd Ho Ht Hov Hoi Hdy d0 [= <-]. simpl.
  destruct (Hs d Hd) as (Htop & Hk & _ & Hover).
  rewrite Ho, Ht, Hov, Hoi. split; [done|]. split; [done|]. split; [|done].
  intros H. congruence.
Qed.

Lemma heap_kept_insert_card (h : Heap) (r : ref) (c : Card.t) :
  is_card h r -> heap_kept h (<[r := OCard c]> h).
Proof. intros [c0 Hc0]. by apply (heap_kept_insert h r (OCard c0)). Qed.

Lemma session_ok_retargeted (e : Ev.t) (h : Heap) (c : ref) (cc : Card.t)
    (l : list ref) (ld : option Dragging.t) :
  h !! c = Some (OCard cc) ->
  session_ok (mkState h (c :: l)
                (Dragging.set_draggedYet true <$> Some (retargeted e c)) ld).
Proof.
  intros Hc d [= <-]. simpl. split; [done|]. split; [by exists (OCard cc)|].
  split; [done|]. intros ov. done.
Qed.

Lemma extraction_moving (e : Ev.t) (s s1 : State) (h2 : Heap) (c : ref)
    (cc' : Card.t) (l : list ref) :
  allObjects s1 = c :: l -> dragging s1 = Some (retargeted e c) ->
  heap_kept h2 (heap s1) -> heap s1 !! c = Some (OCard cc') ->
  registry_ok h2 (c :: l) -> cards_in h2 (c :: l) ≡ₚ cards_of s -> no_trailing h2 ->
  moving s (mkState (heap s1) (allObjects s1)
              (Dragging.set_draggedYet true <$> dragging s1) (lastDragged s1)).
Proof.
  intros Hl Hd Hk Hc Hr Hcs Htr. rewrite Hl, Hd. split; simpl.
  { by apply (registry_ok_shaped h2); [apply heap_kept_shaped|]. }
  split.
  { change (cards_in (heap s1) (c :: l) ≡ₚ cards_of s).
    by rewrite (cards_in_shaped h2 (heap s1)) by by apply heap_kept_shaped. }
  split; [by apply (no_trailing_kept h2)|].
  split; [by apply (session_ok_retargeted e _ c cc')|].
  eexists. split; reflexivity.
Qed.

Lemma before_movement_inv (e : Ev.t) (s : State) (d : Dragging.t) :
  inv s -> dragging s = Some d ->
  exists s1, before_movement e s d = Some s1 /\ moving s s1.
Proof.
  intros Hinv Hd. pose proof Hinv as [Hreg Hses Htr].
  destruct (session_split s d Hinv Hd) as (rest & o0 & Hall & Ho0 & Hk0 & Hnotin).
  set (d' := Dragging.set_xy (Ev.clientX e) (Ev.clientY e) d).
  (* the paths without an extraction *)
  assert (Hplain : forall d1,
            Dragging.object d1 = Dragging.object d -> Dragging.type d1 = Dragging.type d ->
            Dragging.over d1 = Dragging.over d ->
            Dragging.overIndex d1 = Dragging.overIndex d ->
            Dragging.draggedYet d1 = true ->
            moving s (mkState (heap s) (allObjects s) (Some d1) (lastDragged s))).
  { intros d1 H1 H2 H3 H4 H5. split; [done|]. split; [done|]. split; [done|].
    split; [by apply (session_ok_retitle s d)|]. by exists d1. }
  unfold before_movement. simpl.
  destruct (Dragging.draggedYet d) eqn:Hdy.
  { eexists. split; [done|]. by apply Hplain. }
  unfold first_move. fold d'.
  change (Dragging.type d') with (Dragging.type d).
  change (Dragging.doubleClick d') with (Dragging.doubleClick d).
  set (s0 := mkState (heap s) (allObjects s) (Some d') (lastDragged s)).
  assert (Hsame : exists s1,
            Some s0 ≫= (fun s1 : State => Some (mkState (heap s1) (allObjects s1)
                          (Dragging.set_draggedYet true <$> dragging s1) (lastDragged s1)))
            = Some s1 /\ moving s s1).
  { eexists. split; [done|]. by apply Hplain. }
  destruct (Hses d Hd) as (_ & _ & Hpend & _).
  assert (Hcs : cards_in (heap s) (Dragging.object d :: rest) = cards_of s).
  { unfold cards_of. by rewrite Hall. }
  rewrite Hall in Hreg.
  unfold pending_ok in Hpend.
  destruct (Dragging.type d) eqn:Hty; [done| |].
  - (* a Stack *)
    destruct (Dragging.doubleClick d) eqn:Hdc; [done|].
    destruct (Hpend Hdy eq_refl) as (st & z & Hst & Hidx & Hz & Hne & Hsup).
    apply supported_quarter in Hsup as [q Hq].
    destruct (js_splice_one z (Stack.elems st) Hz Hne) as (i & c & Hc & Hsp).
    destruct (registry_group_facts (heap s) _ rest (OStack st) (Stack.elems st) Hreg Hst)
      as (Hnd & _ & Hfacts); [done|done|].
    destruct (Hfacts c) as ([cc Hcc] & Hcg & Hcr); [by eapply list_elem_of_lookup_2|].
    destruct (extract_from_stack_result e s0 d' st rest z i c cc q)
      as (s1 & Hs1 & Hc1 & Hd1 & Hld & Hmany & Hone); try done.
    { intros m Hm. by apply Hfacts. }
    rewrite Hs1. simpl. eexists. split; [done|].
    set (st' := Stack.set_elems (delete i (Stack.elems st)) st) in *.
    change (heap s0) with (heap s) in *. change (Dragging.object d') with (Dragging.object d) in *.
    set (h2 := <[Dragging.object d := OStack st']> (heap s)) in *.
    destruct (registry_extract (heap s) (Dragging.object d) c rest (OStack st) (OStack st')
                (Stack.elems st) i) as [Hreg2 Hc2]; try done.
    fold h2 in Hreg2, Hc2.
    assert (Htr2 : no_trailing h2).
    { apply no_trailing_insert; [done|]. by apply (Htr _ (OStack st) Hst). }
    assert (Hcc2 : is_card h2 c) by (apply is_card_insert_ne; [done|by eexists]).
    destruct (delete i (Stack.elems st)) as [|m [|m' l']] eqn:Hdel.
    + destruct Hmany as [Hl1 Hh1]; [done|].
      eapply (extraction_moving e s s1 h2 c);
        [exact Hl1|exact Hd1| |exact Hc1|done|by rewrite Hc2, Hcs|done].
      rewrite Hh1. by apply heap_kept_insert_card.
    + destruct (Hfacts m) as ([mc Hmc] & Hmg & Hmr).
      { apply (list_elem_of_delete_inv m i). rewrite Hdel. by left. }
      destruct (Hone m mc eq_refl Hmc) as (Hmc' & Hl1 & Hh1).
      destruct (registry_collapse h2 c (Dragging.object d) m rest (OStack st'))
        as [Hreg3 Hc3]; try done.
      { apply lookup_insert_eq. }
      assert (Hm2 : is_card h2 m) by (apply is_card_insert_ne; [done|by eexists]).
      eapply (extraction_moving e s s1 h2 c);
        [exact Hl1|exact Hd1| |exact Hc1|done|by rewrite Hc3, Hc2, Hcs|done].
      rewrite Hh1. eapply heap_kept_trans; [by apply heap_kept_insert_card|].
      apply heap_kept_insert_card. by apply is_card_insert_ne.
    + destruct Hmany as [Hl1 Hh1]; [done|].
      eapply (extraction_moving e s s1 h2 c);
        [exact Hl1|exact Hd1| |exact Hc1|done|by rewrite Hc2, Hcs|done].
      rewrite Hh1. by apply heap_kept_insert_card.
  - (* a Pile *)
    destruct (Dragging.doubleClick d) eqn:Hdc; [done|].
    destruct (Hpend Hdy eq_refl) as (p & Hp & Hne).
    destruct (Pile.elems p) as [|c l] eqn:Hel; [done|].
    destruct (registry_group_facts (heap s) _ rest (OPile p) (c :: l) Hreg Hp)
      as (Hnd & _ & Hfacts); [done|by (simpl; rewrite Hel)|].
    destruct (Hfacts c) as ([cc Hcc] & Hcg & Hcr); [by left|].
    destruct (extract_from_pile_result e s0 d' p rest l c cc)
      as (s1 & Hs1 & Hd1 & Hld & Hmany & Hone); try done.
    { intros m ->. apply NoDup_cons in Hnd as [Hcm _].
      split; [intros ->; apply Hcm; by left|].
      destruct (Hfacts m) as ([mc Hmc] & _); [by right; left|eauto]. }
    rewrite Hs1. simpl. eexists. split; [done|].
    change (heap s0) with (heap s) in *. change (Dragging.object d') with (Dragging.object d) in *.
    set (p' := Pile.set_elems l p) in *.
    set (h2 := <[Dragging.object d := OPile p']> (heap s)) in *.
    destruct (registry_extract (heap s) (Dragging.object d) c rest (OPile p) (OPile p')
                (c :: l) 0) as [Hreg2 Hc2]; try done.
    { simpl. by rewrite Hel. }
    fold h2 in Hreg2, Hc2.
    assert (Htr2 : no_trailing h2) by by apply no_trailing_insert.
    assert (Hcc2 : h2 !! c = Some (OCard cc)) by by (unfold h2; rewrite lookup_insert_ne).
    set (c1 := Card.set_direction _ _) in *.
    assert (Hk1 : heap_kept h2 (<[c := OCard c1]> h2)).
    { apply heap_kept_insert_card. by eexists. }
    destruct l as [|m [|m' l']].
    + destruct Hmany as [Hl1 Hh1]; [done|].
      eapply (extraction_moving e s s1 h2 c c1);
        [exact Hl1|exact Hd1|by rewrite Hh1| |done|by rewrite Hc2, Hcs|done].
      rewrite Hh1. apply lookup_insert_eq.
    + destruct (Hfacts m) as ([mc Hmc] & Hmg & Hmr); [by right; left|].
      destruct (Hone m mc eq_refl Hmc) as (Hl1 & Hh1).
      assert (Hmc' : m <> c).
      { apply NoDup_cons in Hnd as [Hcm _]. intros ->. apply Hcm. by left. }
      destruct (registry_collapse h2 c (Dragging.object d) m rest (OPile p'))
        as [Hreg3 Hc3]; try done.
      { by eexists. } { apply lookup_insert_eq. }
      eapply (extraction_moving e s s1 h2 c c1);
        [exact Hl1|exact Hd1| | |done|by rewrite Hc3, Hc2, Hcs|done].
      * rewrite Hh1. eapply heap_kept_trans; [exact Hk1|].
        apply heap_kept_insert_card. apply is_card_insert_ne; [done|].
        apply is_card_insert_ne; [done|by eexists].
      * rewrite Hh1. rewrite lookup_insert_ne by done. apply lookup_insert_eq.
    + destruct Hmany as [Hl1 Hh1]; [done|].
      eapply (extraction_moving e s s1 h2 c c1);
        [exact Hl1|exact Hd1|by rewrite Hh1| |done|by rewrite Hc2, Hcs|done].
      rewrite Hh1. apply lookup_insert_eq.
Qed.

Lemma session_ok_moved (s s' : State) (d : Dragging.t) :
  heap_shaped (heap s) (heap s') -> allObjects s' = allObjects s ->
  dragging s' = dragging s -> dragging s = Some d -> Dragging.draggedYet d = true ->
  session_ok s -> session_ok s'.
Proof.
  intros Hsh Hall Hdr Hd Hdy Hs d' Hd'. rewrite Hdr, Hd in Hd'. injection Hd' as <-.
  destruct (Hs d Hd) as (Htop & (o & Ho & Hk) & _ & Hover). rewrite Hall.
  split; [done|]. split; [|split; [congruence|done]].
  destruct (heap_shaped_lookup _ _ _ _ Hsh Ho) as (o' & Ho' & Hk' & _).
  exists o'. split; [done|congruence].
Qed.

Lemma move_top_inv (e : Ev.t) (s0 s1 : State) (d1 : Dragging.t) :
  moving s0 s1 -> dragging s1 = Some d1 ->
  exists s2, move_top e s1 = Some s2 /\ moving s0 s2
             /\ dragging s2 = Some d1 /\ allObjects s2 = allObjects s1.
Proof.
  intros (Hreg & Hc & Htr & Hses & d & Hd & Hdy) Hd1. rewrite Hd1 in Hd. injection Hd as <-.
  destruct (Hses d1 Hd1) as (Htop & (o & Ho & Hk) & _).
  unfold move_top. rewrite Htop. simpl. rewrite Ho. simpl.
  destruct (write_x_total (heap s1) (Dragging.object d1) (get_x o + Ev.movementX e)%dbl)
    as [h1 Hx]; [eauto|].
  rewrite Hx. simpl. pose proof (write_x_kept _ _ _ _ Hx) as Hk1.
  destruct (heap_kept_lookup _ _ _ _ Hk1 Ho) as (o1 & Ho1 & _). rewrite Ho1. simpl.
  destruct (write_y_total h1 (Dragging.object d1) (get_y o1 + Ev.movementY e)%dbl)
    as [h2 Hy]; [eauto|].
  rewrite Hy. simpl. pose proof (write_y_kept _ _ _ _ Hy) as Hk2.
  pose proof (heap_kept_trans _ _ _ Hk1 Hk2) as Hk12.
  eexists. split; [done|]. split; [|done].
  split; simpl; [by apply (registry_ok_shaped (heap s1)); [apply heap_kept_shaped|]|].
  split.
  { unfold cards_of at 1. simpl.
    rewrite (cards_in_shaped (heap s1) h2) by by apply heap_kept_shaped. done. }
  split; [by apply (no_trailing_kept (heap s1))|].
  split; [|by exists d1].
  apply (session_ok_moved s1 _ d1); try done. by apply heap_kept_shaped.
Qed.

Lemma apply_movement_inv (e : Ev.t) (s0 s1 : State) (d1 : Dragging.t) :
  moving s0 s1 -> dragging s1 = Some d1 ->
  exists s2, apply_movement e s1 d1 = Some s2 /\ moving s0 s2
             /\ dragging s2 = Some d1 /\ allObjects s2 = allObjects s1.
Proof.
  intros Hm Hd1. unfold apply_movement.
  destruct (Dragging.type d1); [by apply move_top_inv| |];
    (destruct (Dragging.doubleClick d1); [by apply move_top_inv|by exists s1]).
Qed.

(** The preview write keeps class and elements; the only trailing outline it
    can leave is on the hovered Stack, which has a first Card. *)
Lemma mark_preview_spec (h : Heap) (d : Dragging.t) (px py : double) (ov : ref) (o : Obj) :
  h !! ov = Some o -> is_Some (h !! Dragging.object d) -> isIn_ref h px py ov = true ->
  no_trailing h ->
  exists h', mark_preview h d px py ov o = Some h' /\ heap_shaped h h'
    /\ forall r o', h' !! r = Some o' -> trailing o' = true ->
         r = ov /\ forall st, o' = OStack st -> is_Some (first_card h' (Stack.elems st)).
Proof.
  intros Ho [od Hod] Hin Htr.
  assert (Hins : forall o', shaped o o' ->
            (trailing o' = true ->
             forall st, o' = OStack st -> is_Some (first_card (<[ov := o']> h) (Stack.elems st))) ->
            heap_shaped h (<[ov := o']> h)
            /\ forall r o2, <[ov := o']> h !! r = Some o2 -> trailing o2 = true ->
                 r = ov /\ forall st, o2 = OStack st ->
                             is_Some (first_card (<[ov := o']> h) (Stack.elems st))).
  { intros o' Hsh Hfc. split.
    - intros r. destruct (decide (ov = r)) as [<-|Hne].
      + rewrite lookup_insert_eq, Ho. by constructor.
      + rewrite lookup_insert_ne by done. apply heap_shaped_refl.
    - intros r o2 Hr Ht. destruct (decide (ov = r)) as [<-|Hne].
      + rewrite lookup_insert_eq in Hr. injection Hr as <-. split; [done|]. by apply Hfc.
      + rewrite lookup_insert_ne in Hr by done. by rewrite (Htr r o2 Hr) in Ht. }
  assert (Hnone : forall r o', h !! r = Some o' -> trailing o' = true ->
            r = ov /\ forall st, o' = OStack st -> is_Some (first_card h (Stack.elems st))).
  { intros r o' Hr Ht. by rewrite (Htr r o' Hr) in Ht. }
  unfold mark_preview. destruct o as [c|st|p].
  - rewrite Hod. simpl.
    destruct (band _ _ _); eexists; (split; [done|]);
      try (apply Hins; [done|done]).
    split; [apply heap_shaped_refl|done].
  - unfold isIn_ref in Hin. rewrite Ho in Hin. simpl in Hin.
    destruct (Stack_isIn h st px py) as [[]|] eqn:E; try done.
    apply Stack_isIn_true in E as (_ & Hfc).
    assert (Hfc' : forall o', is_Some (first_card (<[ov := o']> h) (Stack.elems st))).
    { intros o'. unfold first_card in *.
      destruct (Stack.elems st) as [|r0 l]; [by destruct Hfc|].
      destruct (h !! r0) as [[c0| |]|] eqn:E0; try by destruct Hfc.
      rewrite lookup_insert_ne; [by rewrite E0|]. intros ->. congruence. }
    destruct (gt_len _ _); eexists; (split; [done|]); apply Hins; try done;
      intros _ st' [= <-]; apply Hfc'.
  - eexists. split; [done|]. by apply Hins.
Qed.

Lemma hover_inv (e : Ev.t) (s0 s2 : State) (d1 : Dragging.t) :
  moving s0 s2 -> dragging s2 = Some d1 -> Dragging.type d1 = KCard ->
  exists s3, hover e s2 d1 = Some s3
    /\ registry_ok (heap s3) (allObjects s3)
    /\ cards_of s3 ≡ₚ cards_of s0
    /\ session_ok s3
    /\ forall r o, heap s3 !! r = Some o -> trailing o = true ->
         r ∈ allObjects s3
         /\ forall st, o = OStack st -> is_Some (first_card (heap s3) (Stack.elems st)).
Proof.
  intros (Hreg & Hc & Htr & Hses & d & Hd & Hdy) Hd1 Hty.
  rewrite Hd1 in Hd. injection Hd as <-.
  destruct (Hses d1 Hd1) as (Htop & (o1 & Ho1 & Hk1) & _).
  unfold hover.
  set (p := fun a => negb (bool_decide (a = Dragging.object d1))
                     && isIn_ref (heap s2) (Ev.clientX e) (Ev.clientY e) a).
  set (idx := js_findIndex p (allObjects s2)).
  (* the session with the new hover record, over any store of the same shape *)
  assert (Hses3 : forall h over,
            heap_shaped (heap s2) h ->
            (forall ov, over = Some ov ->
               ov <> Dragging.object d1
               /\ exists i, idx = Z.of_nat i /\ allObjects s2 !! i = Some ov) ->
            session_ok (mkState h (allObjects s2)
                          (Some (Dragging.set_over idx over d1)) (lastDragged s2))).
  { intros h over Hsh Hov d' [= <-]. simpl. split; [done|]. split; [|split; [congruence|]].
    - destruct (heap_shaped_lookup _ _ _ _ Hsh Ho1) as (o' & Ho' & Hk' & _).
      exists o'. split; [done|congruence].
    - intros ov Hov'. destruct (Hov ov Hov') as (Hne & i & Hi & Hl).
      split; [done|]. split; [done|]. exists i. by rewrite Hi. }
  destruct (js_get (allObjects s2) idx) as [ov|] eqn:Hget.
  2:{ eexists. split; [done|]. simpl. split; [done|]. split; [done|].
      split; [apply Hses3; [apply heap_shaped_refl|done]|].
      intros r o Hr Ht. by rewrite (Htr r o Hr) in Ht. }
  apply js_get_findIndex in Hget as (i & Hi & Hl & Hp).
  apply andb_true_iff in Hp as [Hne Hin].
  apply negb_true_iff, bool_decide_eq_false in Hne.
  assert (Hovin : ov ∈ allObjects s2) by by eapply list_elem_of_lookup_2.
  destruct (reg_live _ _ Hreg ov Hovin) as [o Ho]. rewrite Ho. simpl.
  assert (Hlive1 : is_Some (heap s2 !! Dragging.object d1)) by eauto.
  destruct (mark_preview_spec (heap s2) d1 (Ev.clientX e) (Ev.clientY e) ov o
              Ho Hlive1 Hin Htr) as (h3 & Hm & Hsh & Htr3).
  rewrite Hm. simpl. eexists. split; [done|]. simpl.
  split; [by apply (registry_ok_shaped (heap s2))|].
  split. { unfold cards_of at 1. simpl. by rewrite (cards_in_shaped (heap s2) h3). }
  split.
  - apply Hses3; [done|]. intros ov' [= <-]. split; [done|]. exists i. done.
  - intros r o' Hr Ht. destruct (Htr3 r o' Hr Ht) as [-> Hfc]. done.
Qed.

Lemma mousemove_inv (e : Ev.t) (s : State) :
  inv s -> exists s', mousemove e s = Some s' /\ inv s' /\ cards_of s' ≡ₚ cards_of s.
Proof.
  intros Hinv. unfold mousemove.
  destruct (dragging s) as [d|] eqn:Hd; [|by exists s].
  destruct (before_movement_inv e s d Hinv Hd) as (s1 & Hs1 & Hm1).
  rewrite Hs1. simpl.
  pose proof Hm1 as (_ & _ & _ & _ & d1 & Hd1 & Hdy1). rewrite Hd1. simpl.
  destruct (apply_movement_inv e s s1 d1 Hm1 Hd1) as (s2 & Hs2 & Hm2 & Hd2 & Hall2).
  rewrite Hs2. simpl.
  assert (Hquiet : exists s', Some s2 ≫= tick = Some s' /\ inv s'
                              /\ cards_of s' ≡ₚ cards_of s).
  { destruct Hm2 as (Hreg & Hc & Htr & Hses & _).
    destruct (tick_inv_quiet s2 Hreg Hses Htr) as (s' & Ht & Hinv' & Hc').
    exists s'. split; [done|]. split; [done|]. by rewrite Hc'. }
  destruct (Dragging.type d1) eqn:Hty; [|done|done].
  destruct (hover_inv e s s2 d1 Hm2 Hd2 Hty) as (s3 & Hs3 & Hreg3 & Hc3 & Hses3 & Htr3).
  rewrite Hs3. simpl.
  destruct (tick_inv s3 Hreg3 Hses3 Htr3) as (s' & Ht & Hinv' & Hred & Hall & _).
  exists s'. split; [done|]. split; [done|].
  rewrite <- Hc3. unfold cards_of. rewrite Hall.
  by rewrite (cards_in_shaped (heap s3) (heap s')) by by apply heap_redrawn_shaped.
Qed.

Lemma handle_inv (ev : Event) (s : State) :
  inv s -> exists s', handle ev s = Some s' /\ inv s' /\ cards_of s' ≡ₚ cards_of s.
Proof.
  intros Hinv. destruct ev as [e|e|]; simpl.
  - by apply mousedown_inv.
  - by apply mousemove_inv.
  - by apply mouseup_inv.
Qed.

(** C6.  Under the ownership invariant every handler runs to completion,
    restores the invariant and neither loses nor duplicates a Card: each
    entity is in the registry once, each Card is a lone entry or an element
    of one group, once, and the Cards the registry stands for afterwards are
    a permutation of those before. *)
Theorem ownership_preserved (ev : Event) (s : State) :
  inv s ->
  exists s', handle ev s = Some s'
    /\ inv s'
    /\ NoDup (allObjects s')
    /\ NoDup (cards_of s')
    /\ cards_of s' ≡ₚ cards_of s.
Proof.
  intros Hinv.
  destruct (handle_inv ev s Hinv) as (s' & Hs' & Hinv' & Hc). exists s'.
  split; [done|]. split; [done|].
  split; [apply (reg_nodup _ _ (inv_registry _ Hinv'))|].
  split; [apply (reg_cards _ _ (inv_registry _ Hinv'))|done].
Qed.

(** ** The scene of the script satisfies the invariant *)

Lemma registry_ok_b_sound (h : Heap) (l : list ref) :
  registry_ok_b h l = true -> registry_ok h l.
Proof.
  unfold registry_ok_b. rewrite !andb_true_iff.
  intros [[[H1 H2] H3] H4].
  apply bool_decide_eq_true in H1. apply bool_decide_eq_true in H4.
  rewrite forallb_forall in H2. rewrite forallb_forall in H3.
  split; [done| | |done].
  - intros r Hr. apply list_elem_of_In in Hr. apply H2 in Hr.
    by apply bool_decide_eq_true in Hr.
  - intros r Hr. apply list_elem_of_In in Hr. apply H3 in Hr.
    unfold is_card_b in Hr. unfold is_card.
    destruct (h !! r) as [[c| |]|]; try done. eauto.
Qed.

Lemma no_trailing_b_sound (h : Heap) : no_trailing_b h = true -> no_trailing h.
Proof.
  unfold no_trailing_b. rewrite forallb_forall. intros H r o Hr.
  apply elem_of_map_to_list, list_elem_of_In in Hr. apply H in Hr.
  by apply negb_true_iff in Hr.
Qed.

Lemma inv_script_scene : inv script_scene.
Proof.
  split.
  - apply registry_ok_b_sound. vm_compute. reflexivity.
  - by apply session_ok_idle.
  - apply no_trailing_b_sound. vm_compute. reflexivity.
Qed.

Lemma ownership_preserved_witness :
  exists s',
    handle (MouseDown (press 610 210 0)) script_scene = Some s'
    /\ inv s'
    /\ cards_of s' ≡ₚ cards_of script_scene.
Proof.
  destruct (ownership_preserved (MouseDown (press 610 210 0)) script_scene inv_script_scene)
    as (s' & H1 & H2 & _ & _ & H3).
  exists s'. split; [exact H1|]. split; [exact H2|exact H3].
Defined.

(** The invariant holds along every run that starts in a scene that has it. *)
Lemma inv_run (evs : list Event) (s : State) :
  inv s ->
  exists s', foldl (fun r ev => r ≫= handle ev) (Some s) evs = Some s'
             /\ inv s' /\ cards_of s' ≡ₚ cards_of s.
Proof.
  revert s. induction evs as [|ev evs IH]; intros s Hinv; simpl.
  - by exists s.
  - destruct (handle_inv ev s Hinv) as (s1 & -> & Hinv1 & Hc1).
    destruct (IH s1 Hinv1) as (s' & Hs' & Hinv' & Hc'). simpl.
    exists s'. split; [done|]. split; [done|]. by rewrite Hc', Hc1.
Qed.

(** ** The steps of [mousemove] *)

Lemma same_place_refl (o : Obj) : same_place o o.
Proof. by repeat split. Qed.

Lemma same_place_trans (o1 o2 o3 : Obj) :
  same_place o1 o2 -> same_place o2 o3 -> same_place o1 o3.
Proof.
  intros (? & ? & ? & ? & ? & ?) (? & ? & ? & ? & ? & ?).
  repeat split; congruence.
Qed.

Lemma redrawn_same_place (o o' : Obj) :
  kind_of o <> KCard -> redrawn o o' -> same_place o o'.
Proof.
  destruct o, o'; simpl; try done.
  - intros _ (H1 & H2 & H3 & H4 & H5 & _). repeat split; simpl; congruence.
  - intros _ (H1 & H2 & H3 & H4 & H5). repeat split; simpl; congruence.
Qed.

(** A redraw leaves every entry of a sound registry in its place. *)
Lemma tick_same_place (s s' : State) (r : ref) (o : Obj) :
  registry_ok (heap s) (allObjects s) -> tick s = Some s' ->
  r ∈ allObjects s -> heap s !! r = Some o ->
  exists o', heap s' !! r = Some o' /\ same_place o o'.
Proof.
  intros Hreg Ht Hr Ho.
  destruct (decide (kind_of o = KCard)) as [Hk|Hk].
  - destruct o as [c| |]; try done.
    destruct (tick_cards s s' r c Hreg Ht Ho) as (H & _).
    eexists. split; [by apply H|]. by repeat split.
  - pose proof (tick_redrawn _ _ Ht) as Hred.
    destruct (heap_redrawn_lookup _ _ r o Hred Ho) as (o' & Ho' & Hoo').
    exists o'. split; [done|]. by apply redrawn_same_place.
Qed.

(** The hover block writes preview fields of the hovered entry only, which
    is never the target. *)
Lemma hover_same_place (e : Ev.t) (s s' : State) (d : Dragging.t) :
  hover e s d = Some s' ->
  heap s' !! Dragging.object d = heap s !! Dragging.object d
  /\ forall r o, heap s !! r = Some o ->
       exists o', heap s' !! r = Some o' /\ same_place o o'.
Proof.
  unfold hover.
  destruct (js_get _ _) as [ov|] eqn:Hget.
  2:{ intros [= <-]. simpl. split; [done|]. intros r o Ho. exists o.
      split; [done|apply same_place_refl]. }
  apply js_get_findIndex in Hget as (i & _ & _ & Hp).
  apply andb_true_iff in Hp as [Hne _].
  apply negb_true_iff, bool_decide_eq_false in Hne.
  destruct (heap s !! ov) as [o0|] eqn:Ho0; simpl; [|done].
  assert (Hins : forall o0', same_place o0 o0' ->
            <[ov := o0']> (heap s) !! Dragging.object d = heap s !! Dragging.object d
            /\ forall r o, heap s !! r = Some o ->
                 exists o', <[ov := o0']> (heap s) !! r = Some o' /\ same_place o o').
  { intros o0' Hsp. split; [by apply lookup_insert_ne|].
    intros r o Ho. destruct (decide (ov = r)) as [<-|Hr].
    - rewrite lookup_insert_eq. exists o0'. split; [done|]. congruence.
    - rewrite lookup_insert_ne by done. exists o. split; [done|apply same_place_refl]. }
  assert (Hid : heap s !! Dragging.object d = heap s !! Dragging.object d
            /\ forall r o, heap s !! r = Some o ->
                 exists o', heap s !! r = Some o' /\ same_place o o').
  { split; [done|]. intros r o Ho. exists o. split; [done|apply same_place_refl]. }
  unfold mark_preview. destruct o0 as [c|st|p].
  - destruct (heap s !! Dragging.object d) as [od|] eqn:Hod; simpl; [|done].
    destruct (band _ _ _); intros [= <-]; simpl.
    + apply Hins. by repeat split.
    + apply Hins; by repeat split.
    + split; [by rewrite Hod|apply Hid].
  - destruct (gt_len _ _); intros [= <-]; simpl; apply Hins; by repeat split.
  - intros [= <-]. simpl. apply Hins. by repeat split.
Qed.

(** The movement block leaves every other entry of a sound registry as it
    is. *)
Lemma move_top_registry (e : Ev.t) (s s2 : State) (r0 r : ref) :
  registry_ok (heap s) (allObjects s) -> allObjects s !! 0%nat = Some r0 ->
  move_top e s = Some s2 -> r ∈ allObjects s -> r <> r0 ->
  heap s2 !! r = heap s !! r.
Proof.
  intros Hreg H0 Hm Hr Hne.
  destruct (move_top_spec e s s2 r0 H0 Hm) as (_ & _ & _ & _ & Hfr).
  apply Hfr; [done|]. intros Hfm.
  destruct (registry_apart (heap s) (allObjects s) r0 r) as [Hno _]; try done.
  { by eapply list_elem_of_lookup_2. }
  apply Hno. unfold first_member in Hfm. unfold owned.
  destruct (heap s !! r0) as [[c|st|p]|]; simpl in Hfm; try done;
    by apply head_Some_elem_of.
Qed.

Lemma move_top_card (e : Ev.t) (s : State) (r0 : ref) (c : Card.t) :
  allObjects s !! 0%nat = Some r0 -> heap s !! r0 = Some (OCard c) ->
  move_top e s
  = Some (with_heap (<[r0 := OCard (Card.set_y (Card.y c + Ev.movementY e)%dbl
                                      (Card.set_x (Card.x c + Ev.movementX e)%dbl c))]>
                       (heap s)) s).
Proof.
  intros H0 Hc. unfold move_top. rewrite H0. simpl. rewrite Hc. simpl.
  erewrite write_x_card by done. simpl. rewrite lookup_insert_eq. simpl.
  erewrite write_y_card by apply lookup_insert_eq. simpl.
  by rewrite insert_insert_eq.
Qed.

(** The handler under the invariant, step by step: the block before the
    movement gives [s1], the movement block gives [s2], and from there the
    hover block and the redraw leave every entry of the registry in its
    place; the target, when it is a Card, only loses a pending outline. *)
Lemma mousemove_steps (e : Ev.t) (s : State) (d : Dragging.t) :
  inv s -> dragging s = Some d ->
  exists s1 d1 s2 s',
    before_movement e s d = Some s1 /\ moving s s1 /\ dragging s1 = Some d1
    /\ apply_movement e s1 d1 = Some s2 /\ allObjects s2 = allObjects s1
    /\ mousemove e s = Some s'
    /\ allObjects s' = allObjects s1
    /\ lastDragged s' = lastDragged s1
    /\ (exists d', dragging s' = Some d'
          /\ Dragging.object d' = Dragging.object d1
          /\ Dragging.type d' = Dragging.type d1
          /\ Dragging.timeStamp d' = Dragging.timeStamp d1
          /\ Dragging.doubleClick d' = Dragging.doubleClick d1)
    /\ (forall r o2, r ∈ allObjects s1 -> heap s2 !! r = Some o2 ->
          exists o', heap s' !! r = Some o' /\ same_place o2 o')
    /\ (forall c2, heap s2 !! Dragging.object d1 = Some (OCard c2) ->
          heap s' !! Dragging.object d1
          = Some (OCard (Card.set_outline OutlineFalse c2))).
Proof.
  intros Hinv Hd.
  destruct (before_movement_inv e s d Hinv Hd) as (s1 & Hs1 & Hm1).
  pose proof Hm1 as (_ & _ & _ & Hses1 & d1 & Hd1 & Hdy1).
  destruct (apply_movement_inv e s s1 d1 Hm1 Hd1) as (s2 & Hs2 & Hm2 & Hd2 & Hall2).
  pose proof (apply_movement_fields e s1 s2 d1 Hs2) as (_ & _ & Hl2).
  destruct (Hses1 d1 Hd1) as (Htop1 & _).
  assert (Hin1 : Dragging.object d1 ∈ allObjects s1) by by eapply list_elem_of_lookup_2.
  assert (Hh : exists s3,
            (match Dragging.type d1 with KCard => hover e s2 d1 | _ => Some s2 end) = Some s3
            /\ registry_ok (heap s3) (allObjects s3)
            /\ allObjects s3 = allObjects s2
            /\ lastDragged s3 = lastDragged s2
            /\ (exists d3, dragging s3 = Some d3
                  /\ Dragging.object d3 = Dragging.object d1
                  /\ Dragging.type d3 = Dragging.type d1
                  /\ Dragging.timeStamp d3 = Dragging.timeStamp d1
                  /\ Dragging.doubleClick d3 = Dragging.doubleClick d1)
            /\ heap s3 !! Dragging.object d1 = heap s2 !! Dragging.object d1
            /\ forall r o, heap s2 !! r = Some o ->
                 exists o', heap s3 !! r = Some o' /\ same_place o o').
  { assert (Hplain : exists s3, Some s2 = Some s3
              /\ registry_ok (heap s3) (allObjects s3)
              /\ allObjects s3 = allObjects s2
              /\ lastDragged s3 = lastDragged s2
              /\ (exists d3, dragging s3 = Some d3
                    /\ Dragging.object d3 = Dragging.object d1
                    /\ Dragging.type d3 = Dragging.type d1
                    /\ Dragging.timeStamp d3 = Dragging.timeStamp d1
                    /\ Dragging.doubleClick d3 = Dragging.doubleClick d1)
              /\ heap s3 !! Dragging.object d1 = heap s2 !! Dragging.object d1
              /\ forall r o, heap s2 !! r = Some o ->
                   exists o', heap s3 !! r = Some o' /\ same_place o o').
    { exists s2. split; [done|]. split; [apply Hm2|]. split; [done|]. split; [done|].
      split; [by exists d1|]. split; [done|]. intros r o Ho. exists o.
      split; [done|apply same_place_refl]. }
    destruct (Dragging.type d1) eqn:Hty; [|exact Hplain|exact Hplain].
    destruct (hover_inv e s s2 d1 Hm2 Hd2 Hty) as (s3 & Hs3 & Hreg3 & _).
    destruct (hover_fields e s2 s3 d1 Hs3) as (Hall3 & Hl3 & i & o & Hd3).
    destruct (hover_same_place e s2 s3 d1 Hs3) as [Hfr Hsp].
    exists s3. split; [done|]. split; [done|]. split; [done|]. split; [done|].
    split; [|done]. eexists. split; [exact Hd3|]. done. }
  destruct Hh as (s3 & Hs3 & Hreg3 & Hall3 & Hl3 & Hd3 & Hfr3 & Hsp3).
  destruct (mousemove_inv e s Hinv) as (s' & Hmm & _).
  pose proof Hmm as Ht. unfold mousemove in Ht. rewrite Hd, Hs1 in Ht. simpl in Ht.
  rewrite Hd1 in Ht. simpl in Ht. rewrite Hs2 in Ht. simpl in Ht.
  rewrite Hs3 in Ht. simpl in Ht.
  pose proof (tick_fields s3 s' Ht) as (Hall' & Hd' & Hl').
  exists s1, d1, s2, s'. split; [done|]. split; [done|]. split; [done|].
  split; [done|]. split; [done|]. split; [done|].
  split; [by rewrite Hall', Hall3|]. split; [by rewrite Hl', Hl3|].
  split; [by rewrite Hd'|]. split.
  - intros r o2 Hr Ho2. destruct (Hsp3 r o2 Ho2) as (o3 & Ho3 & Hsp).
    destruct (tick_same_place s3 s' r o3 Hreg3 Ht) as (o' & Ho' & Hsp'); [|done|].
    { by rewrite Hall3, Hall2. }
    exists o'. split; [done|]. by eapply same_place_trans.
  - intros c2 Hc2. rewrite <- Hfr3 in Hc2.
    destruct (tick_cards s3 s' _ c2 Hreg3 Ht Hc2) as (H & _). apply H.
    by rewrite Hall3, Hall2.
Qed.

(** The block before the movement leaves every entry the registry had in
    its place: an extraction takes a Card out of the target and writes
    that Card and, on a collapse, the last member, which were no entries. *)
Lemma before_movement_places (e : Ev.t) (s s1 : State) (d : Dragging.t) :
  inv s -> dragging s = Some d -> before_movement e s d = Some s1 ->
  forall r o, r ∈ allObjects s -> heap s !! r = Some o ->
    exists o1, heap s1 !! r = Some o1 /\ kind_of o1 = kind_of o
      /\ get_x o1 = get_x o /\ get_y o1 = get_y o
      /\ get_flipped o1 = get_flipped o /\ get_direction o1 = get_direction o.
Proof.
  intros Hinv Hd Hs1 r o Hr Ho. pose proof Hinv as [Hreg Hses Htr].
  destruct (session_split s d Hinv Hd) as (rest & o0 & Hall & Ho0 & Hk0 & Hnotin).
  set (d' := Dragging.set_xy (Ev.clientX e) (Ev.clientY e) d).
  assert (Hplain : forall dd ld, s1 = mkState (heap s) (allObjects s) dd ld ->
            exists o1, heap s1 !! r = Some o1 /\ kind_of o1 = kind_of o
              /\ get_x o1 = get_x o /\ get_y o1 = get_y o
              /\ get_flipped o1 = get_flipped o /\ get_direction o1 = get_direction o).
  { intros dd ld ->. by exists o. }
  unfold before_movement in Hs1. simpl in Hs1.
  destruct (Dragging.draggedYet d) eqn:Hdy.
  { injection Hs1 as Hs1. by eapply Hplain. }
  unfold first_move in Hs1. fold d' in Hs1.
  change (Dragging.type d') with (Dragging.type d) in Hs1.
  change (Dragging.doubleClick d') with (Dragging.doubleClick d) in Hs1.
  set (s0 := mkState (heap s) (allObjects s) (Some d') (lastDragged s)) in Hs1.
  destruct (Hses d Hd) as (_ & _ & Hpend & _).
  rewrite Hall in Hreg, Hr. unfold pending_ok in Hpend.
  (* what an extraction that wrote [c] and possibly [m] leaves of [r] *)
  assert (Hwrites : forall (g := Dragging.object d) og c oc h1,
            kind_of og = kind_of o0 -> get_x og = get_x o0 -> get_y og = get_y o0 ->
            get_flipped og = get_flipped o0 -> get_direction og = get_direction o0 ->
            c <> g -> (c ∉ rest) ->
            (h1 = <[c := oc]> (<[g := og]> (heap s))
             \/ exists m om, m <> g /\ (m ∉ rest)
                  /\ (h1 = <[c := oc]> (<[m := om]> (<[g := og]> (heap s)))
                      \/ h1 = <[m := om]> (<[c := oc]> (<[g := og]> (heap s))))) ->
            exists o1, h1 !! r = Some o1 /\ kind_of o1 = kind_of o
              /\ get_x o1 = get_x o /\ get_y o1 = get_y o
              /\ get_flipped o1 = get_flipped o /\ get_direction o1 = get_direction o).
  { intros g og c oc h1 Hk Hx Hy Hf Hdi Hcg Hcr Hh1.
    apply elem_of_cons in Hr as [->|Hr].
    - assert (Heq : o = o0) by congruence. subst o.
      exists og. split; [|done].
      destruct Hh1 as [->|(m & om & Hmg & Hmr & [->| ->])];
        rewrite ?lookup_insert_ne by done; apply lookup_insert_eq.
    - exists o. split; [|done].
      assert (r <> g) by (intros ->; done).
      assert (r <> c) by (intros ->; done).
      destruct Hh1 as [->|(m & om & Hmg & Hmr & [->| ->])].
      + by rewrite !lookup_insert_ne.
      + assert (r <> m) by (intros ->; done). by rewrite !lookup_insert_ne.
      + assert (r <> m) by (intros ->; done). by rewrite !lookup_insert_ne. }
  destruct (Dragging.type d) eqn:Hty.
  - injection Hs1 as Hs1. by eapply Hplain.
  - (* a Stack *)
    destruct (Dragging.doubleClick d) eqn:Hdc; [injection Hs1 as Hs1; by eapply Hplain|].
    destruct (Hpend Hdy eq_refl) as (st & z & Hst & Hidx & Hz & Hne & Hsup).
    apply supported_quarter in Hsup as [q Hq].
    destruct (js_splice_one z (Stack.elems st) Hz Hne) as (i & c & Hc & Hsp).
    destruct (registry_group_facts (heap s) _ rest (OStack st) (Stack.elems st) Hreg Hst)
      as (Hnd & _ & Hfacts); [done|done|].
    destruct (Hfacts c) as ([cc Hcc] & Hcg & Hcr); [by eapply list_elem_of_lookup_2|].
    destruct (extract_from_stack_result e s0 d' st rest z i c cc q)
      as (s2 & Hs2 & Hc1 & Hd1 & Hld & Hmany & Hone); try done.
    { intros m Hm. by apply Hfacts. }
    rewrite Hs2 in Hs1. simpl in Hs1. injection Hs1 as <-. simpl.
    change (heap s0) with (heap s) in *.
    change (Dragging.object d') with (Dragging.object d) in *.
    assert (Ho0' : o0 = OStack st) by congruence. subst o0.
    destruct (delete i (Stack.elems st)) as [|m [|m' l']] eqn:Hdel.
    + destruct Hmany as [_ Hh]; [done|].
      eapply (Hwrites _ c); [..|exact Hcg|exact Hcr|left; exact Hh]; reflexivity.
    + destruct (Hfacts m) as ([mc Hmc] & Hmg & Hmr).
      { apply (list_elem_of_delete_inv m i). rewrite Hdel. by left. }
      destruct (Hone m mc eq_refl Hmc) as (_ & _ & Hh).
      eapply (Hwrites _ c); [..|exact Hcg|exact Hcr|]; [..|
        right; exists m; eexists; split; [exact Hmg|]; split; [exact Hmr|];
        left; exact Hh]; reflexivity.
    + destruct Hmany as [_ Hh]; [done|].
      eapply (Hwrites _ c); [..|exact Hcg|exact Hcr|left; exact Hh]; reflexivity.
  - (* a Pile *)
    destruct (Dragging.doubleClick d) eqn:Hdc; [injection Hs1 as Hs1; by eapply Hplain|].
    destruct (Hpend Hdy eq_refl) as (p & Hp & Hne).
    destruct (Pile.elems p) as [|c l] eqn:Hel; [done|].
    destruct (registry_group_facts (heap s) _ rest (OPile p) (c :: l) Hreg Hp)
      as (Hnd & _ & Hfacts); [done|by (simpl; rewrite Hel)|].
    destruct (Hfacts c) as ([cc Hcc] & Hcg & Hcr); [by left|].
    destruct (extract_from_pile_result e s0 d' p rest l c cc)
      as (s2 & Hs2 & Hd1 & Hld & Hmany & Hone); try done.
    { intros m ->. apply NoDup_cons in Hnd as [Hcm _].
      split; [intros ->; apply Hcm; by left|].
      destruct (Hfacts m) as ([mc Hmc] & _); [by right; left|eauto]. }
    rewrite Hs2 in Hs1. simpl in Hs1. injection Hs1 as <-. simpl.
    change (heap s0) with (heap s) in *.
    change (Dragging.object d') with (Dragging.object d) in *.
    assert (Ho0' : o0 = OPile p) by congruence. subst o0.
    destruct l as [|m [|m' l']].
    + destruct Hmany as [_ Hh]; [done|].
      eapply (Hwrites _ c); [..|exact Hcg|exact Hcr|left; exact Hh]; reflexivity.
    + destruct (Hfacts m) as ([mc Hmc] & Hmg & Hmr); [by right; left|].
      destruct (Hone m mc eq_refl Hmc) as (_ & Hh).
      eapply (Hwrites _ c); [..|exact Hcg|exact Hcr|]; [..|
        right; exists m; eexists; split; [exact Hmg|]; split; [exact Hmr|];
        right; exact Hh]; reflexivity.
    + destruct Hmany as [_ Hh]; [done|].
      eapply (Hwrites _ c); [..|exact Hcg|exact Hcr|left; exact Hh]; reflexivity.
Qed.

(** ** The movement goes to the target *)

(** C10.  When [mousemove] runs with a session open, in a state the
    handlers have reached and whose registry is sound, the target of the
    session is the entry at registry index 0.  The handler runs to
    completion; the session it leaves has as target the entry at index 0
    again, which after an extraction is the extracted Card.  The position
    of that target is the one it had when the movement block was reached
    plus the movement of the event (a group that was single clicked while
    the session is past its first move is not moved at all); every other
    entry of the registry, before or after an extraction, keeps its
    position. *)
Theorem movement_hits_target (e : Ev.t) (s : State) (d : Dragging.t) :
  reachable s -> inv s -> dragging s = Some d ->
  allObjects s !! 0%nat = Some (Dragging.object d)
  /\ exists s1 s' d',
       before_movement e s d = Some s1
       /\ mousemove e s = Some s'
       /\ dragging s' = Some d'
       /\ allObjects s' = allObjects s1
       /\ allObjects s' !! 0%nat = Some (Dragging.object d')
       /\ (exists o o',
             heap s1 !! Dragging.object d' = Some o
             /\ heap s' !! Dragging.object d' = Some o'
             /\ (Dragging.type d' = KCard \/ Dragging.doubleClick d' = true ->
                 get_x o' = (get_x o + Ev.movementX e)%dbl
                 /\ get_y o' = (get_y o + Ev.movementY e)%dbl)
             /\ (Dragging.type d' <> KCard -> Dragging.doubleClick d' = false ->
                 get_x o' = get_x o /\ get_y o' = get_y o))
       /\ (forall r o, r ∈ allObjects s' -> r <> Dragging.object d' ->
             heap s1 !! r = Some o ->
             exists o', heap s' !! r = Some o'
                        /\ get_x o' = get_x o /\ get_y o' = get_y o)
       /\ (forall r o, r ∈ allObjects s -> r ∈ allObjects s' ->
             r <> Dragging.object d' -> heap s !! r = Some o ->
             exists o', heap s' !! r = Some o'
                        /\ get_x o' = get_x o /\ get_y o' = get_y o).
Proof.
  intros Hreach Hinv Hd.
  split; [by apply (reachable_target_on_top s Hreach)|].
  destruct (mousemove_steps e s d Hinv Hd)
    as (s1 & d1 & s2 & s' & Hs1 & Hm1 & Hd1 & Hs2 & Hall2 & Hmm & Hall' & _
        & (d' & Hd' & Hobj & Hty & _ & Hdc) & Hsp & _).
  destruct Hm1 as (Hreg1 & _ & _ & Hses1 & _).
  destruct (Hses1 d1 Hd1) as (Htop1 & (o1 & Ho1 & _) & _).
  exists s1, s', d'. split; [done|]. split; [done|]. split; [done|].
  split; [done|]. rewrite Hobj, Hty, Hdc, Hall'. split; [done|].
  assert (Hin1 : Dragging.object d1 ∈ allObjects s1) by by eapply list_elem_of_lookup_2.
  (* the movement block *)
  assert (Hmoved : move_top e s1 = Some s2 ->
            (exists o2, heap s2 !! Dragging.object d1 = Some o2
               /\ get_x o2 = (get_x o1 + Ev.movementX e)%dbl
               /\ get_y o2 = (get_y o1 + Ev.movementY e)%dbl)
            /\ forall r, r ∈ allObjects s1 -> r <> Dragging.object d1 ->
                 heap s2 !! r = heap s1 !! r).
  { intros Hm. split.
    - destruct (move_top_spec e s1 s2 _ Htop1 Hm)
        as (_ & _ & _ & (o & o2 & Ho & Ho2 & Hx & Hy) & _).
      assert (o = o1) by congruence. subst o. by exists o2.
    - intros r Hr Hne. by apply (move_top_registry e s1 s2 (Dragging.object d1)). }
  assert (Hothers : forall r, r ∈ allObjects s1 -> r <> Dragging.object d1 ->
            heap s2 !! r = heap s1 !! r).
  { unfold apply_movement in Hs2.
    destruct (Dragging.type d1); [by apply Hmoved| |];
      (destruct (Dragging.doubleClick d1);
       [by apply Hmoved|injection Hs2 as <-; done]). }
  assert (Hkeep : forall r o, r ∈ allObjects s1 -> r <> Dragging.object d1 ->
            heap s1 !! r = Some o ->
            exists o', heap s' !! r = Some o'
                       /\ get_x o' = get_x o /\ get_y o' = get_y o).
  { intros r o Hr Hne Ho. rewrite <- (Hothers r Hr Hne) in Ho.
    destruct (Hsp r o Hr Ho) as (o' & Ho' & _ & Hx & Hy & _). by exists o'. }
  split; [|split; [exact Hkeep|]].
  - unfold apply_movement in Hs2.
    assert (Hyes : move_top e s1 = Some s2 ->
              exists o o', heap s1 !! Dragging.object d1 = Some o
                /\ heap s' !! Dragging.object d1 = Some o'
                /\ (Dragging.type d1 = KCard \/ Dragging.doubleClick d1 = true ->
                    get_x o' = (get_x o + Ev.movementX e)%dbl
                    /\ get_y o' = (get_y o + Ev.movementY e)%dbl)
                /\ (Dragging.type d1 <> KCard -> Dragging.doubleClick d1 = false ->
                    get_x o' = get_x o /\ get_y o' = get_y o)).
    { intros Hm. destruct (Hmoved Hm) as [(o2 & Ho2 & Hx2 & Hy2) _].
      destruct (Hsp _ o2 Hin1 Ho2) as (o' & Ho' & _ & Hx & Hy & _).
      exists o1, o'. split; [done|]. split; [done|]. split.
      - intros _. by rewrite Hx, Hy.
      - intros Hnc Hnd. destruct (Dragging.type d1) eqn:E; [done| |];
          rewrite Hnd in Hs2; injection Hs2 as <-; rewrite Ho1 in Ho2;
          injection Ho2 as <-; done. }
    assert (Hno : s2 = s1 -> Dragging.type d1 <> KCard ->
              Dragging.doubleClick d1 = false ->
              exists o o', heap s1 !! Dragging.object d1 = Some o
                /\ heap s' !! Dragging.object d1 = Some o'
                /\ (Dragging.type d1 = KCard \/ Dragging.doubleClick d1 = true ->
                    get_x o' = (get_x o + Ev.movementX e)%dbl
                    /\ get_y o' = (get_y o + Ev.movementY e)%dbl)
                /\ (Dragging.type d1 <> KCard -> Dragging.doubleClick d1 = false ->
                    get_x o' = get_x o /\ get_y o' = get_y o)).
    { intros -> Hnc Hnd. destruct (Hsp _ o1 Hin1 Ho1) as (o' & Ho' & _ & Hx & Hy & _).
      exists o1, o'. split; [done|]. split; [done|]. split; [|done].
      intros [?|?]; congruence. }
    destruct (Dragging.type d1) eqn:Ety; [by apply Hyes| |];
      (destruct (Dragging.doubleClick d1) eqn:Edc;
       [by apply Hyes|injection Hs2 as Hs2; by apply Hno]).
  - intros r o Hr Hr' Hne Ho.
    destruct (before_movement_places e s s1 d Hinv Hd Hs1 r o Hr Ho)
      as (o1' & Ho1' & _ & Hx & Hy & _).
    destruct (Hkeep r o1' Hr' Hne Ho1') as (o' & Ho' & Hx' & Hy').
    exists o'. split; [done|]. by rewrite Hx', Hy'.
Qed.

Lemma bind_Some {A B} (x : option A) (a : A) (f : A -> option B) :
  x = Some a -> x ≫= f = f a.
Proof. by intros ->. Qed.

(** The scene of the script: a press on the Pile, which lies at index 1,
    then a move by (10, 5).  The press raises the Pile to index 0; the move
    takes the top Card [5] off it, puts it at index 0 as the new target and
    moves it from (300, 200) to (310, 205); the Stack [4] stays where it
    is. *)
Lemma movement_hits_target_witness :
  exists sp d s' d' o5 o4 o4',
    mousedown (press 310 210 0) script_scene = Some sp
    /\ allObjects script_scene !! 1%nat = Some 57%nat
    /\ dragging sp = Some d /\ Dragging.object d = 57%nat
    /\ allObjects sp !! 0%nat = Some 57%nat
    /\ mousemove (move 320 215 10 5 7) sp = Some s'
    /\ dragging s' = Some d' /\ Dragging.object d' = 5%nat
    /\ allObjects s' !! 0%nat = Some 5%nat
    /\ heap s' !! 5%nat = Some o5
    /\ (get_x o5, get_y o5) = (300 + 10, 200 + 5)%dbl
    /\ heap sp !! 4%nat = Some o4 /\ heap s' !! 4%nat = Some o4'
    /\ get_x o4' = get_x o4 /\ get_y o4' = get_y o4.
Proof.
  set (e1 := press 310 210 0). set (e2 := move 320 215 10 5 7).
  set (sp := default script_scene (mousedown e1 script_scene)).
  assert (E1 : mousedown e1 script_scene = Some sp) by (vm_compute; reflexivity).
  assert (F2 : Dragging.object <$> dragging sp = Some 57%nat) by (vm_compute; reflexivity).
  assert (F4 : (fun o => (get_x o, get_y o))
                 <$> ((dragging sp ≫= before_movement e2 sp)
                        ≫= (fun s1 => heap s1 !! 5%nat))
               = Some (300, 200)%dbl) by (vm_compute; reflexivity).
  assert (F5 : (fun d => (Dragging.object d, Dragging.type d))
                 <$> (mousemove e2 sp ≫= dragging) = Some (5%nat, KCard))
    by (vm_compute; reflexivity).
  assert (F6 : bool_decide (4%nat ∈ allObjects sp) = true) by (vm_compute; reflexivity).
  assert (F7 : (fun s' => bool_decide (4%nat ∈ allObjects s')) <$> mousemove e2 sp
               = Some true) by (vm_compute; reflexivity).
  assert (F8 : is_Some (heap sp !! 4%nat)) by (vm_compute; eauto).
  assert (F9 : allObjects script_scene !! 1%nat = Some 57%nat) by (vm_compute; reflexivity).
  assert (F0 : dragging script_scene = None) by (vm_compute; reflexivity).
  clearbody sp.
  assert (Hinv : inv sp).
  { destruct (mousedown_inv e1 script_scene inv_script_scene) as (sp' & E & Hi & _).
    rewrite E1 in E. injection E as <-. exact Hi. }
  assert (Hreach : reachable sp).
  { apply (reachable_step script_scene sp (MouseDown e1)); [|exact E1].
    apply reachable_idle. exact F0. }
  destruct (dragging sp) as [d|] eqn:Hd; [|discriminate F2].
  injection F2 as F2.
  destruct (movement_hits_target e2 sp d Hreach Hinv Hd)
    as (Htop & s1 & s' & d' & Hs1 & Hmm & Hd' & Hall' & Htop'
        & (o & o5 & Ho & Ho5 & Hmv & _) & _ & Hkeep).
  rewrite (bind_Some _ _ _ Hmm), Hd' in F5. injection F5 as F5o F5t.
  rewrite Hmm in F7. injection F7 as F7. apply bool_decide_eq_true in F6, F7.
  rewrite (bind_Some _ _ _ eq_refl), (bind_Some _ _ _ Hs1) in F4.
  rewrite F5o in Ho, Ho5, Htop', Hkeep. rewrite Ho in F4. injection F4 as Fx Fy.
  destruct F8 as [o4 Ho4].
  destruct (Hkeep 4%nat o4 F6 F7 ltac:(discriminate) Ho4) as (o4' & Ho4' & Hx4 & Hy4).
  destruct (Hmv (or_introl F5t)) as [Hx Hy].
  exists sp, d, s', d', o5, o4, o4'.
  split; [exact E1|]. split; [exact F9|]. split; [exact Hd|].
  split; [exact F2|]. split; [rewrite Htop, F2; reflexivity|]. split; [exact Hmm|].
  split; [exact Hd'|]. split; [exact F5o|]. split; [exact Htop'|].
  split; [exact Ho5|]. split; [rewrite Hx, Hy, Fx, Fy; reflexivity|].
  split; [exact Ho4|]. split; [exact Ho4'|]. split; [exact Hx4|exact Hy4].
Defined.

(** ** Taking a Card out of a Stack *)

Lemma same_place_stack (st : Stack.t) (o' : Obj) :
  same_place (OStack st) o' ->
  exists st', o' = OStack st' /\ Stack.elems st' = Stack.elems st
    /\ Stack.X st' = Stack.X st /\ Stack.Y st' = Stack.Y st
    /\ Stack.flipped st' = Stack.flipped st
    /\ Stack.direction st' = Stack.direction st.
Proof.
  intros (Hk & Hx & Hy & Hf & Hd & He). destruct o' as [|st'|]; try done.
  exists st'. simpl in *. split; [done|]. split; [congruence|]. done.
Qed.

Lemma js_indexOf_lookup (r : ref) (l : list ref) (i : nat) :
  js_indexOf r l = Z.of_nat i -> l !! i = Some r.
Proof.
  unfold js_indexOf.
  destruct (js_findIndex_spec (fun a => bool_decide (a = r)) l)
    as [[-> _]|(k & a & -> & Hk & Hp & _)]; [lia|].
  apply bool_decide_eq_true in Hp as ->. intros H. apply Nat2Z.inj in H as <-. done.
Qed.

(** The press-time Card of a session [mousedown] opened on a Stack is the
    member at the recorded index, when that index is one. *)
Lemma mousedown_spec_card (e : Ev.t) (s s' : State) (d : Dragging.t) (st : Stack.t)
    (i : nat) :
  dragging s = None -> mousedown e s = Some s' -> dragging s' = Some d ->
  heap s' !! Dragging.object d = Some (OStack st) ->
  Dragging.specCardIndex d = Some (Z.of_nat i) ->
  exists c, Dragging.specCard d = Some c /\ Stack.elems st !! i = Some c.
Proof.
  intros Hidle Hdown Hd Hst Hidx.
  destruct (mousedown_session e s s' d Hidle Hdown Hd) as (o & _ & _ & _ & Hrec & Htick).
  pose proof (tick_redrawn _ _ Htick) as Hred. simpl in Hred.
  destruct (heap_redrawn_lookup _ _ (Dragging.object d) _ Hred (lookup_insert_eq _ _ _))
    as (o' & Ho' & Hoo').
  rewrite Hst in Ho'. injection Ho' as <-.
  set (o1 := press_flip (Ev.button e) o) in *.
  set (h1 := <[Dragging.object d := o1]> (heap s)) in *.
  assert (Hc : Dragging.specCard d = press_specCard h1 o1 (Ev.clientX e) (Ev.clientY e))
    by (by rewrite Hrec at 1).
  assert (Hi : Dragging.specCardIndex d
               = press_specCardIndex h1 o1 (Ev.clientX e) (Ev.clientY e))
    by (by rewrite Hrec at 1).
  clear Hrec. rewrite Hc. rewrite Hi in Hidx. unfold press_specCardIndex in Hidx.
  destruct o1 as [|st1|]; try done. simpl in Hoo'. destruct Hoo' as (Hel & _).
  destruct (press_specCard h1 (OStack st1) _ _) as [c|]; [|injection Hidx; lia].
  exists c. split; [done|]. rewrite Hel. apply js_indexOf_lookup. by injection Hidx.
Qed.

(** C1.  First move of a session on a Stack that was not double clicked,
    in a scene whose registry is sound.  The block before the movement
    takes the press-time Card [c] out of the Stack at its recorded index
    [i], gives it the Stack's face and direction, places it on the fan axis
    at [i * 22.5] from the Stack's anchor (+x at 0, +y at 90, -x at 180, -y
    at 270 degrees) and retargets the session to it.  When the handler
    returns, [c] is the entry at registry index 0, in front of the Stack (or
    of the one Card the Stack collapsed into) and of the other entries,
    which are in their places; the Stack holds the other members in order;
    and [c] lies at the fan position plus the movement of the event.  In a
    session that [mousedown] opened, the Card at the recorded index is the
    press-time Card. *)
Theorem stack_extraction (e : Ev.t) (s : State) (d : Dragging.t)
    (st : Stack.t) (rest : list ref) (i : nat) (c : ref) (cc : Card.t) (q : Quarter) :
  inv s ->
  dragging s = Some d ->
  Dragging.type d = KStack ->
  Dragging.doubleClick d = false ->
  Dragging.draggedYet d = false ->
  allObjects s = Dragging.object d :: rest ->
  heap s !! Dragging.object d = Some (OStack st) ->
  Dragging.specCardIndex d = Some (Z.of_nat i) ->
  Stack.elems st !! i = Some c ->
  heap s !! c = Some (OCard cc) ->
  (Stack.direction st == radians q)%dbl ->
  let g := Dragging.object d in
  let xy := fan_position q (Stack.X st) (Stack.Y st) (of_Z (Z.of_nat i) * spacing)%dbl in
  let cc1 := extracted (Stack.flipped st) (Stack.direction st) xy cc in
  exists s1 s' d',
    before_movement e s d = Some s1
    /\ dragging s1 = Some (retargeted e c)
    /\ allObjects s1 !! 0%nat = Some c
    /\ heap s1 !! c = Some (OCard cc1)
    /\ Card.flipped cc1 = Stack.flipped st
    /\ Card.direction cc1 = Stack.direction st
    /\ (Card.x cc1, Card.y cc1) = xy
    /\ mousemove e s = Some s'
    /\ dragging s' = Some d'
    /\ Dragging.object d' = c
    /\ Dragging.type d' = KCard
    /\ heap s' !! c
       = Some (OCard (Card.set_outline OutlineFalse
                        (Card.set_y (xy.2 + Ev.movementY e)%dbl
                           (Card.set_x (xy.1 + Ev.movementX e)%dbl cc1))))
    /\ ((forall m, delete i (Stack.elems st) <> [m]) ->
        allObjects s' = c :: g :: rest
        /\ exists st',
             heap s' !! g = Some (OStack st')
             /\ Stack.elems st' = delete i (Stack.elems st)
             /\ Stack.X st' = Stack.X st /\ Stack.Y st' = Stack.Y st
             /\ Stack.flipped st' = Stack.flipped st
             /\ Stack.direction st' = Stack.direction st)
    /\ (forall m, delete i (Stack.elems st) = [m] -> allObjects s' = c :: m :: rest)
    /\ (forall r o, r ∈ rest -> heap s !! r = Some o ->
          exists o', heap s' !! r = Some o' /\ same_place o o')
    /\ (forall e0 s0, dragging s0 = None -> mousedown e0 s0 = Some s ->
          Dragging.specCard d = Some c).
Proof.
  intros Hinv Hd Hty Hdc Hdy Hall Hst Hidx Hc Hcc Hq g xy cc1.
  pose proof Hinv as [Hreg _ _]. rewrite Hall in Hreg.
  destruct (registry_group_facts (heap s) _ rest (OStack st) (Stack.elems st) Hreg Hst)
    as (Hnd & Hgr & Hfacts); [done|done|].
  destruct (Hfacts c) as (_ & Hcg & Hcr); [by eapply list_elem_of_lookup_2|].
  destruct (mousemove_steps e s d Hinv Hd)
    as (s1 & d1 & s2 & s' & Hs1 & Hm1 & Hd1 & Hs2 & Hall2 & Hmm & Hall' & _
        & (d' & Hd' & Hobj & Hty' & _) & Hsp & Hcard).
  pose proof Hs1 as Hs1'. rewrite before_movement_first in Hs1' by done.
  set (d0 := Dragging.set_xy _ _ d) in Hs1'. set (s0 := mkState _ _ _ _) in Hs1'.
  destruct (extract_from_stack_result e s0 d0 st rest (Z.of_nat i) i c cc q)
    as (sx & Hsx & Hc1 & Hdx & _ & Hmany & Hone); try done.
  { by apply js_splice_delete. }
  { intros m Hm. by apply Hfacts. }
  unfold first_move in Hs1'. change (Dragging.type d0) with (Dragging.type d) in Hs1'.
  change (Dragging.doubleClick d0) with (Dragging.doubleClick d) in Hs1'.
  rewrite Hty, Hdc, Hsx in Hs1'. ssimpl in Hs1'. rewrite Hdx in Hs1'. ssimpl in Hs1'.
  injection Hs1' as Hs1'.
  change (heap s0) with (heap s) in *. change (Dragging.object d0) with g in *.
  fold xy in Hc1, Hmany, Hone. fold cc1 in Hc1, Hmany, Hone.
  set (st1 := Stack.set_elems (delete i (Stack.elems st)) st) in *.
  (* the state after the extraction block *)
  assert (Hshape : heap s1 = heap sx /\ allObjects s1 = allObjects sx
                   /\ d1 = retargeted e c).
  { rewrite <- Hs1' in Hd1. simpl in Hd1. injection Hd1 as <-.
    by rewrite <- Hs1'. }
  destruct Hshape as (Hh1 & Ha1 & ->).
  assert (Hregx : allObjects sx !! 0%nat = Some c
                  /\ (forall r, r <> c -> (forall m, delete i (Stack.elems st) = [m] -> r <> m) ->
                        heap sx !! r = <[g := OStack st1]> (heap s) !! r)).
  { destruct (delete i (Stack.elems st)) as [|m [|m' l']] eqn:Hdel.
    - destruct Hmany as [-> ->]; [done|]. split; [done|].
      intros r Hr _. by rewrite lookup_insert_ne.
    - destruct (Hfacts m) as ([mc Hmc] & _).
      { apply (list_elem_of_delete_inv m i). rewrite Hdel. by left. }
      destruct (Hone m mc eq_refl Hmc) as (_ & -> & ->). split; [done|].
      intros r Hr Hm. specialize (Hm m eq_refl).
      by rewrite (lookup_insert_ne _ c r), (lookup_insert_ne _ m r).
    - destruct Hmany as [-> ->]; [done|]. split; [done|].
      intros r Hr _. by rewrite lookup_insert_ne. }
  destruct Hregx as [Htop Hframe].
  (* the movement block *)
  assert (Hs2' : s2 = with_heap (<[c := OCard (Card.set_y (Card.y cc1 + Ev.movementY e)%dbl
                                     (Card.set_x (Card.x cc1 + Ev.movementX e)%dbl cc1))]>
                                   (heap s1)) s1).
  { unfold apply_movement in Hs2. simpl in Hs2.
    rewrite (move_top_card e s1 c cc1) in Hs2; [by injection Hs2| |].
    - by rewrite Ha1.
    - by rewrite Hh1. }
  assert (Hxy : (Card.x cc1, Card.y cc1) = xy) by (by destruct xy).
  assert (Hx : Card.x cc1 = xy.1) by (by rewrite <- Hxy).
  assert (Hy : Card.y cc1 = xy.2) by (by rewrite <- Hxy).
  assert (Hother : forall r, r <> c -> heap s2 !! r = heap s1 !! r).
  { intros r Hr. rewrite Hs2'. simpl. by rewrite lookup_insert_ne. }
  exists s1, s', d'. split; [done|]. split; [done|].
  split; [by rewrite Ha1|]. split; [by rewrite Hh1|].
  split; [done|]. split; [done|]. split; [done|]. split; [done|].
  split; [done|]. split; [done|]. split; [done|]. split.
  { rewrite <- Hx, <- Hy. apply (Hcard _). rewrite Hs2'. simpl. apply lookup_insert_eq. }
  split; [|split; [|split]].
  4:{ intros e0 sb Hidle0 Hdown0.
      destruct (mousedown_spec_card e0 sb s d st i Hidle0 Hdown0 Hd Hst Hidx)
        as (c0 & Hsc & Hc0).
      rewrite Hsc. congruence. }
  - intros Hno. destruct (Hmany Hno) as [Hax _]. rewrite Hall', Ha1, Hax.
    split; [done|].
    assert (Hg2 : heap s2 !! g = Some (OStack st1)).
    { rewrite Hother by done. rewrite Hh1, Hframe; [apply lookup_insert_eq|done|].
      intros m Hm. by destruct (Hno m). }
    destruct (Hsp g (OStack st1)) as (o' & Ho' & Hsame); [|done|].
    { rewrite Ha1, Hax. right. by left. }
    apply same_place_stack in Hsame as (st' & -> & He & HX & HY & Hf & Hdi).
    exists st'. by repeat split.
  - intros m Hm. destruct (Hfacts m) as ([mc Hmc] & _).
    { apply (list_elem_of_delete_inv m i). rewrite Hm. by left. }
    destruct (Hone m mc Hm Hmc) as (_ & Hax & _). by rewrite Hall', Ha1, Hax.
  - intros r o Hr Ho.
    assert (Hrc : r <> c) by (intros ->; done).
    assert (Hrg : r <> g) by (intros ->; done).
    assert (Hr1 : heap s2 !! r = Some o).
    { rewrite Hother by done. rewrite Hh1, Hframe; [by rewrite lookup_insert_ne|done|].
      intros m Hm ->. destruct (Hfacts m) as (_ & _ & Hmr); [|done].
      apply (list_elem_of_delete_inv m i). rewrite Hm. by left. }
    apply (Hsp r o); [|done].
    rewrite Ha1.
    destruct (delete i (Stack.elems st)) as [|m [|m' l']] eqn:Hdel.
    + destruct Hmany as [-> _]; [done|]. by right; right.
    + destruct (Hfacts m) as ([mc Hmc] & _).
      { apply (list_elem_of_delete_inv m i). rewrite Hdel. by left. }
      destruct (Hone m mc eq_refl Hmc) as (_ & -> & _). by right; right.
    + destruct Hmany as [-> _]; [done|]. by right; right.
Qed.

(** The scene of the script: a press at (650, 210) inside the Stack at
    (600, 200) records the Card [2] at index 2; a move by (5, 5) takes it
    out, to (600 + 2 * 22.5 + 5, 200 + 5), in front of the Stack, which
    keeps the Cards [0], [1] and [3]. *)
Lemma stack_extraction_witness :
  exists sp d s' d' c' st',
    mousedown (press 650 210 0) script_scene = Some sp
    /\ dragging sp = Some d
    /\ Dragging.object d = 4%nat
    /\ Dragging.specCard d = Some 2%nat
    /\ Dragging.specCardIndex d = Some 2%Z
    /\ mousemove (move 655 215 5 5 7) sp = Some s'
    /\ dragging s' = Some d'
    /\ Dragging.object d' = 2%nat
    /\ allObjects s' = [2; 4; 57; 58; 59; 60; 61]%nat
    /\ heap s' !! 2%nat = Some (OCard c')
    /\ (Card.x c', Card.y c') = (650, 205)%dbl
    /\ heap s' !! 4%nat = Some (OStack st')
    /\ Stack.elems st' = [0; 1; 3]%nat.
Proof.
  set (e1 := press 650 210 0). set (e2 := move 655 215 5 5 7).
  set (sp := default script_scene (mousedown e1 script_scene)).
  set (st := new_Stack 600 200 [0; 1; 2; 3]%nat).
  set (cc := Card.new "ac" img 0 0 half).
  assert (E1 : mousedown e1 script_scene = Some sp) by (vm_compute; reflexivity).
  assert (F1 : (fun d => (Dragging.type d, Dragging.doubleClick d, Dragging.draggedYet d,
                          Dragging.object d, Dragging.specCardIndex d))
                 <$> dragging sp = Some (KStack, false, false, 4%nat, Some 2%Z))
    by (vm_compute; reflexivity).
  assert (F2 : allObjects sp = [4; 57; 58; 59; 60; 61]%nat) by (vm_compute; reflexivity).
  assert (F3 : heap sp !! 4%nat = Some (OStack st)) by (vm_compute; reflexivity).
  assert (F4 : heap sp !! 2%nat = Some (OCard cc)) by (vm_compute; reflexivity).
  assert (F0 : dragging script_scene = None) by (vm_compute; reflexivity).
  clearbody sp.
  assert (Hinv : inv sp).
  { destruct (mousedown_inv e1 script_scene inv_script_scene) as (sp' & E & Hi & _).
    rewrite E1 in E. injection E as <-. exact Hi. }
  destruct (dragging sp) as [d|] eqn:Hd; [|discriminate F1].
  injection F1 as Fty Fdc Fdy Fo Fi.
  destruct (stack_extraction e2 sp d st [57; 58; 59; 60; 61]%nat 2 2%nat cc Deg0)
    as (s1 & s' & d' & _ & _ & _ & _ & _ & _ & _ & Hmm & Hd' & Ho' & _ & Hc' & Hmany
        & _ & _ & Hspec);
    try assumption.
  - rewrite Fo. exact F2.
  - rewrite Fo. exact F3.
  - reflexivity.
  - reflexivity.
  - destruct Hmany as (Hall' & st' & Hst' & Hel' & _); [discriminate|].
    rewrite Fo in Hall', Hst'.
    eexists sp, d, s', d', _, st'.
    split; [exact E1|]. split; [exact Hd|]. split; [exact Fo|].
    split; [exact (Hspec e1 script_scene F0 E1)|]. split; [exact Fi|].
    split; [exact Hmm|]. split; [exact Hd'|]. split; [exact Ho'|].
    split; [exact Hall'|]. split; [exact Hc'|]. split; [vm_compute; reflexivity|].
    split; [exact Hst'|exact Hel'].
Defined.

(** ** The session a press opens, and the record a release leaves *)







(** ** A Card dropped on a Card *)

(** What [release] leaves when a Card is dropped on a Card. *)
Lemma card_merge_release (s : State) (d : Dragging.t) (rest : list ref) (j : nat)
    (ov : ref) (dc oc : Card.t) :
  allObjects s = Dragging.object d :: rest ->
  Dragging.over d = Some ov ->
  Dragging.overIndex d = Some (Z.of_nat (S j)) ->
  rest !! j = Some ov ->
  heap s !! Dragging.object d = Some (OCard dc) ->
  heap s !! ov = Some (OCard oc) ->
  let merged (k : Kind) (s' : State) :=
    exists g o, heap s !! g = None
      /\ allObjects s' = g :: delete j rest
      /\ heap s' !! g = Some o
      /\ is_group_of o k [ov; Dragging.object d] (Card.x oc) (Card.y oc)
           (Card.flipped oc) (Card.direction oc) in
  exists s1,
    release s d = Some s1
    /\ match band (Card.x dc - Card.x oc) (Card.y dc - Card.y oc) (Card.height oc) with
       | BandStack => merged KStack s1
       | BandPile => merged KPile s1
       | BandNone => allObjects s1 = allObjects s /\ heap s1 = heap s
       end.
Proof.
  intros Hall Hov Hoi Hj Hdc Hoc merged.
  set (s0 := mkState (heap s) (allObjects s) (dragging s) (Some d)).
  unfold release, drop_dragged. fold s0. rewrite Hov. ssimpl. rewrite Hoc. ssimpl.
  unfold drop_on_card. ssimpl. rewrite Hdc. ssimpl.
  destruct (band _ _ (Card.height oc)).
  - rewrite (merge_cards_result _ s0 d rest j ov oc) by done. ssimpl.
    eexists. split; [reflexivity|]. exists (new_ref (heap s)). eexists.
    split; [apply new_ref_fresh|]. split; [reflexivity|]. ssimpl.
    split; [apply lookup_insert_eq|]. by repeat split.
  - rewrite (merge_cards_result _ s0 d rest j ov oc) by done. ssimpl.
    eexists. split; [reflexivity|]. exists (new_ref (heap s)). eexists.
    split; [apply new_ref_fresh|]. split; [reflexivity|]. ssimpl.
    split; [apply lookup_insert_eq|]. by repeat split.
  - ssimpl. eexists. split; [reflexivity|]. done.
Qed.

(** C2, as the code has it.  A Card dropped while the hover record holds
    another Card, with [dx], [dy] the differences of the two positions: when
    [dy] is below half the hovered Card's height and [dx] is in [22.5, 45),
    both Cards leave the registry and a new Stack over
    [hovered; dragged] is at index 0, at the hovered Card's position, with its
    face and direction; when [dx] is in [-22.5, 22.5) instead, the same with
    a Pile; otherwise the registry is as before and no group changes.  The
    bounds are in pixels whatever the scale of either Card.  Under the
    invariant of the scene the handler runs to completion. *)
Theorem card_merge (s : State) (d : Dragging.t) (rest : list ref) (j : nat)
    (ov : ref) (dc oc : Card.t) :
  dragging s = Some d ->
  Dragging.type d = KCard ->
  allObjects s = Dragging.object d :: rest ->
  Dragging.over d = Some ov ->
  Dragging.overIndex d = Some (Z.of_nat (S j)) ->
  rest !! j = Some ov ->
  heap s !! Dragging.object d = Some (OCard dc) ->
  heap s !! ov = Some (OCard oc) ->
  let dx := (Card.x dc - Card.x oc)%dbl in
  let dy := (Card.y dc - Card.y oc)%dbl in
  let merged (k : Kind) (s' : State) :=
    exists g o, heap s !! g = None
      /\ allObjects s' = g :: delete j rest
      /\ heap s' !! g = Some o
      /\ is_group_of o k [ov; Dragging.object d] (Card.x oc) (Card.y oc)
           (Card.flipped oc) (Card.direction oc) in
  (inv s -> is_Some (mouseup s))
  /\ forall s', mouseup s = Some s' ->
     ((dy < half * Card.height oc /\ spacing <= dx /\ dx < 45)%dbl ->
      merged KStack s')
     /\ ((dy < half * Card.height oc /\ - spacing <= dx /\ dx < spacing)%dbl ->
         merged KPile s')
     /\ (~ (dy < half * Card.height oc /\ spacing <= dx /\ dx < 45)%dbl ->
         ~ (dy < half * Card.height oc /\ - spacing <= dx /\ dx < spacing)%dbl ->
         allObjects s' = allObjects s /\ heap_redrawn (heap s) (heap s')).
Proof.
  intros Hd Hty Hall Hov Hoi Hj Hdc Hoc dx dy merged. split.
  { intros Hinv. destruct (mouseup_inv s Hinv) as (s' & -> & _). eauto. }
  destruct (band_spec dx dy (Card.height oc)) as (HS & HP & HN).
  destruct (card_merge_release s d rest j ov dc oc) as (s1 & Hs1 & Hband); try done.
  fold dx dy in Hband. fold merged in Hband.
  intros s' Hup. unfold mouseup in Hup. rewrite Hd, Hs1 in Hup. simpl in Hup.
  pose proof (tick_redrawn _ _ Hup) as Hred.
  apply tick_fields in Hup as (Hall' & _ & _).
  assert (Hkeep : forall k, merged k s1 -> merged k s').
  { intros k (g & o & Hg & Hreg & Ho & Hgrp).
    destruct (heap_redrawn_lookup _ _ g o Hred Ho) as (o' & Ho' & Hoo').
    exists g, o'. split; [done|]. split; [by rewrite Hall'|]. split; [done|].
    by apply (is_group_of_redrawn o o'). }
  split; [|split].
  - intros H. apply HS in H. rewrite H in Hband. by apply Hkeep.
  - intros H. apply HP in H. rewrite H in Hband. by apply Hkeep.
  - intros H1 H2. assert (H : band dx dy (Card.height oc) = BandNone) by (by apply HN).
    rewrite H in Hband. destruct Hband as [Ha Hh].
    split; [by rewrite Hall'|]. by rewrite <- Hh.
Qed.

Lemma card_merge_witness :
  exists s' g o,
    mouseup dropped_at_15 = Some s'
    /\ allObjects s' = [g]
    /\ heap s' !! g = Some o
    /\ is_group_of o KPile [1; 0]%nat 300 10 false 0.
Proof.
  destruct (card_merge dropped_at_15
              (Dragging.mk KCard 0%nat 325 20 1000 false None None true 0
                 (Some 1%Z) (Some 1%nat))
              [1%nat] 0 1%nat
              (Card.new "as" img 315 10 half) (Card.new "as" img 300 10 half))
    as (_ & H); try reflexivity.
  destruct (mouseup dropped_at_15) as [s'|] eqn:E; [|vm_compute in E; discriminate].
  destruct (H s' eq_refl) as (_ & HP & _).
  destruct HP as (g & o & _ & Hreg & Ho & Hgrp).
  { split; [reflexivity|]. split; [by vm_compute|reflexivity]. }
  exists s', g, o. done.
Defined.

(** Against C2 as the specification words it, twice.  Both Cards of
    [dropped_at_15] have scale 0.5 and the dragged one lies 15 pixels right
    of the hovered one, inside [22.5 * 0.5, 45 * 0.5), yet the release builds
    a Pile, not a Stack.  And in [big_cards], at scale 1, a Card dragged to
    30 pixels right of the other and 10 pixels above it, not within its
    upper half, is merged with it into a Stack all the same. *)
Lemma card_merge_scale_and_height :
  (exists dc oc s' g p,
     heap dropped_at_15 !! 0%nat = Some (OCard dc)
     /\ heap dropped_at_15 !! 1%nat = Some (OCard oc)
     /\ (Card.y dc - Card.y oc < half * Card.height oc)%dbl
     /\ (spacing * Card.size dc <= Card.x dc - Card.x oc)%dbl
     /\ (Card.x dc - Card.x oc < 45 * Card.size dc)%dbl
     /\ mouseup dropped_at_15 = Some s'
     /\ allObjects s' = [g]
     /\ heap s' !! g = Some (OPile p)
     /\ Pile.elems p = [1; 0]%nat)
  /\ (exists s1 s2 dc oc s3 g st,
        mousedown (press 20 20 0) big_cards = Some s1
        /\ mousemove (move 340 20 320 (-10) 5) s1 = Some s2
        /\ heap s2 !! 0%nat = Some (OCard dc)
        /\ heap s2 !! 1%nat = Some (OCard oc)
        /\ Card.size dc = 1%dbl /\ Card.size oc = 1%dbl
        /\ (Card.x dc - Card.x oc == 30)%dbl
        /\ (Card.y dc - Card.y oc == -10)%dbl
        /\ (Card.y dc - Card.y oc < 0)%dbl
        /\ mouseup s2 = Some s3
        /\ allObjects s3 = [g]
        /\ heap s3 !! g = Some (OStack st)
        /\ Stack.elems st = [1; 0]%nat).
Proof.
  split.
  - set (s' := default dropped_at_15 (mouseup dropped_at_15)).
    assert (E : mouseup dropped_at_15 = Some s') by (vm_compute; reflexivity).
    assert (F1 : allObjects s' = [2%nat]) by (vm_compute; reflexivity).
    assert (F2 : heap s' !! 2%nat
                 = Some (OPile (Pile.set_flipped false
                                  (Pile.set_direction 0 (new_Pile 300 10 [1; 0]%nat)))))
      by (vm_compute; reflexivity).
    clearbody s'.
    eexists _, _, s', _, _.
    split; [vm_compute; reflexivity|]. split; [vm_compute; reflexivity|].
    split; [vm_compute; reflexivity|]. split; [vm_compute; reflexivity|].
    split; [vm_compute; reflexivity|].
    split; [exact E|]. split; [exact F1|]. split; [exact F2|]. reflexivity.
  - set (s1 := default big_cards (mousedown (press 20 20 0) big_cards)).
    set (s2 := default big_cards (mousemove (move 340 20 320 (-10) 5) s1)).
    set (s3 := default big_cards (mouseup s2)).
    assert (E1 : mousedown (press 20 20 0) big_cards = Some s1) by (vm_compute; reflexivity).
    assert (E2 : mousemove (move 340 20 320 (-10) 5) s1 = Some s2)
      by (vm_compute; reflexivity).
    assert (E3 : mouseup s2 = Some s3) by (vm_compute; reflexivity).
    assert (F0 : heap s2 !! 0%nat = Some (OCard (Card.new "as" img 330 0 1)))
      by (vm_compute; reflexivity).
    assert (F1 : heap s2 !! 1%nat = Some (OCard (Card.new "as" img 300 10 1)))
      by (vm_compute; reflexivity).
    assert (F2 : allObjects s3 = [2%nat]) by (vm_compute; reflexivity).
    assert (F3 : heap s3 !! 2%nat
                 = Some (OStack (Stack.set_flipped false
                                   (Stack.set_direction 0 (new_Stack 300 10 [1; 0]%nat)))))
      by (vm_compute; reflexivity).
    clearbody s1 s2 s3.
    eexists s1, s2, _, _, s3, _, _.
    split; [exact E1|]. split; [exact E2|]. split; [exact F0|]. split; [exact F1|].
    split; [reflexivity|]. split; [reflexivity|].
    split; [vm_compute; reflexivity|]. split; [vm_compute; reflexivity|].
    split; [vm_compute; reflexivity|].
    split; [exact E3|]. split; [exact F2|]. split; [exact F3|]. reflexivity.
Qed.

(** ** Events outside their state: the three handlers *)

(** C9, as the code has it.  A press while a session is open and a move
    while none is open change nothing.  A release while none is open leaves
    the registry, the session and the last-drag record alone but still
    redraws: the state afterwards is the state after [tick], objects differ
    from before by what a redraw writes, and it is the same state whenever
    the scene was drawn already.  Under the invariant the release goes
    through and leaves a drawn scene, so that a second one changes
    nothing. *)
Theorem stray_events (e : Ev.t) (s : State) :
  (is_Some (dragging s) -> mousedown e s = Some s)
  /\ (dragging s = None -> mousemove e s = Some s)
  /\ (dragging s = None -> mouseup s = tick s)
  /\ (dragging s = None -> forall s', mouseup s = Some s' ->
        allObjects s' = allObjects s /\ dragging s' = None
        /\ lastDragged s' = lastDragged s /\ heap_redrawn (heap s) (heap s'))
  /\ (dragging s = None -> drawn s -> mouseup s = Some s)
  /\ (dragging s = None -> inv s ->
        exists s', mouseup s = Some s' /\ inv s' /\ drawn s'
                   /\ mouseup s' = Some s').
Proof.
  assert (Hup : forall s0, dragging s0 = None -> mouseup s0 = tick s0).
  { intros s0 H. unfold mouseup. by rewrite H. }
  split; [|split; [|split; [|split; [|split]]]].
  - intros [d Hd]. unfold mousedown. by rewrite Hd.
  - intros H. unfold mousemove. by rewrite H.
  - apply Hup.
  - intros Hidle s' H. rewrite Hup in H by done.
    pose proof (tick_redrawn _ _ H) as Hred.
    apply tick_fields in H as (-> & -> & ->). done.
  - intros Hidle Hd. rewrite Hup by done. by apply tick_drawn.
  - intros Hidle Hinv.
    destruct (tick_inv_quiet s) as (s' & Ht & Hinv' & _); [apply Hinv..|].
    pose proof (tick_leaves_drawn s s' (inv_registry s Hinv) Ht) as Hdr.
    pose proof (tick_fields _ _ Ht) as (_ & Hd' & _). rewrite Hidle in Hd'.
    exists s'. rewrite !Hup by done. split; [done|]. split; [done|].
    split; [done|]. by apply tick_drawn.
Qed.

Lemma two_cards_drawn : drawn two_cards.
Proof.
  intros r Hr. apply list_elem_of_In in Hr. simpl in Hr.
  destruct Hr as [<-|[<-|[]]]; eexists; (split; [vm_compute; reflexivity|reflexivity]).
Qed.

Lemma stray_events_witness :
  is_Some (dragging pressed)
  /\ mousedown (press 310 20 1100) pressed = Some pressed
  /\ dragging two_cards = None
  /\ mousemove (move 30 30 5 5 1100) two_cards = Some two_cards
  /\ mouseup two_cards = Some two_cards
  /\ exists s', mouseup script_scene = Some s' /\ mouseup s' = Some s'.
Proof.
  assert (Hp : is_Some (dragging pressed)) by (vm_compute; eauto).
  destruct (stray_events (press 310 20 1100) pressed) as (H1 & _).
  destruct (stray_events (move 30 30 5 5 1100) two_cards)
    as (_ & H2 & _ & _ & H3 & _).
  destruct (stray_events (move 30 30 5 5 1100) script_scene)
    as (_ & _ & _ & _ & _ & H4).
  split; [exact Hp|]. split; [exact (H1 Hp)|]. split; [reflexivity|].
  split; [exact (H2 eq_refl)|]. split; [exact (H3 eq_refl two_cards_drawn)|].
  destruct (H4 eq_refl inv_script_scene) as (s' & Hs' & _ & _ & Hs'').
  exists s'. split; assumption.
Defined.

(** Against C9 as the specification words it, for a release without a
    session: in the scene the script builds, before anything was drawn, the
    release redraws and the redraw moves the Pile's top Card from (0, 0) to
    the Pile's position (300, 200). *)
Lemma idle_release_moves_pile_top :
  dragging script_scene = None
  /\ exists s' pile p top c c',
       mouseup script_scene = Some s'
       /\ allObjects script_scene !! 1%nat = Some pile
       /\ heap script_scene !! pile = Some (OPile p)
       /\ head (Pile.elems p) = Some top
       /\ heap script_scene !! top = Some (OCard c)
       /\ heap s' !! top = Some (OCard c')
       /\ (Card.x c, Card.y c) = (0, 0)%dbl
       /\ (Card.x c', Card.y c') = (300, 200)%dbl.
Proof.
  split; [reflexivity|].
  destruct (mouseup script_scene) as [s'|] eqn:E; [|vm_compute in E; discriminate].
  exists s'. eexists _, _, _, _, _. split; [reflexivity|].
  assert (Hs : Some s' = mouseup script_scene) by done.
  split; [vm_compute; reflexivity|]. split; [vm_compute; reflexivity|].
  split; [vm_compute; reflexivity|]. split; [vm_compute; reflexivity|].
  split.
  - change (heap s' !! ?t) with (default ∅ (heap <$> Some s') !! t).
    rewrite Hs. vm_compute. reflexivity.
  - split; reflexivity.
Qed.
